(** * Error classification and retry core of the OpenRouter client

    A shallow embedding of [pkg/openrouter/client.go] (the request/response
    client, [ParseError], [categorizeError], [WithRetry] and the error
    wrappers) together with the properties of the error taxonomy and of the
    retry executor.

    Conventions.
    - Go [string] is a byte sequence: Rocq [string].
    - Go [int] and [time.Duration] are 64-bit integers: [Z], with the
      wrap-around of [int64] arithmetic written [wrap64] where the code
      multiplies.
    - Go [error] is the inductive [error]; a nil error is [None].
    - Go [float64] is the IEEE 754 binary64 datum [spec_float], with the
      operations of [SpecFloat] at precision 53.
    - [http.Header] is a finite map from canonical keys to value lists.
    - Functions of the Go standard library whose bodies are not part of
      this repository and that are not reproduced here byte for byte are
      the members of the class [GoLib]; every theorem holds for any
      instance of it. *)

From Stdlib Require Import ZArith String Ascii List Bool Lia DecimalString SpecFloat.
From stdpp Require Import gmap strings.
Import ListNotations.

Local Open Scope string_scope.
Local Open Scope list_scope.
Local Open Scope Z_scope.

(** ** Durations and 64-bit integers *)

Definition Duration := Z.

Definition Millisecond : Duration := 1000000.
Definition Second : Duration := 1000000000.

Definition minInt64 : Z := - 2 ^ 63.
Definition maxInt64 : Z := 2 ^ 63 - 1.

(** Two's complement wrap-around of a 64-bit signed result. *)
Definition wrap64 (z : Z) : Z := (z + 2 ^ 63) mod 2 ^ 64 - 2 ^ 63.

(** ** Errors *)

(** [OpenRouterError] of client.go; the field [OriginalErr] holds an
    [error], hence the parameter. *)
Record OpenRouterError_ (E : Type) : Type := mkOpenRouterError {
  StatusCode : Z;
  ErrorCode : string;
  ErrorType : string;
  Message : string;
  UserMessage : string;
  IsRetryable : bool;
  RetryAfter : Duration;
  OriginalErr : option E
}.

Arguments mkOpenRouterError {E}.
Arguments StatusCode {E}.
Arguments ErrorCode {E}.
Arguments ErrorType {E}.
Arguments Message {E}.
Arguments UserMessage {E}.
Arguments IsRetryable {E}.
Arguments RetryAfter {E}.
Arguments OriginalErr {E}.

(** The dynamic types an [error] value takes in this package: a (non-nil)
    pointer to an [OpenRouterError], a text error ([errors.New], [fmt.Errorf] without
    a wrapped cause, or an error of another library), an error built by
    [fmt.Errorf("<prefix>%w", cause)], and the two errors of [context]. *)
#[local] Set Warnings "-register-all".
Inductive error : Type :=
  | ErrOpenRouter (e : OpenRouterError_ error)
  | ErrText (msg : string)
  | ErrWrapf (prefix : string) (cause : error)
  | Canceled
  | DeadlineExceeded.

#[local] Set Warnings "register-all".

Abbreviation OpenRouterError := (OpenRouterError_ error).

(** The type assertion of [err] to a pointer to [OpenRouterError]: it looks
    at the dynamic type only and does not unwrap. *)
Definition asOpenRouterError (err : error) : option OpenRouterError :=
  match err with
  | ErrOpenRouter e => Some e
  | _ => None
  end.

(** ** Strings *)

Fixpoint HasPrefix (s prefix : string) : bool :=
  match prefix, s with
  | EmptyString, _ => true
  | String a p, String b r => Ascii.eqb a b && HasPrefix r p
  | String _ _, EmptyString => false
  end.

(** [strings.Contains]: [substr] occurs in [s] as a run of bytes. *)
Fixpoint Contains (s substr : string) : bool :=
  HasPrefix s substr ||
  match s with
  | EmptyString => false
  | String _ r => Contains r substr
  end.

(** The [%d] verb of [fmt] on an [int]. *)
Definition itoa (n : Z) : string := NilZero.string_of_int (Z.to_int n).

(** ** [strconv.Atoi] on a 64-bit platform

    An optional sign followed by one or more decimal digits whose value
    lies in the range of [int64]; anything else is an error ([None]).
    The fast path of the library (fewer than 19 bytes) and its slow path
    ([ParseInt(s, 10, 0)]) accept the same inputs with the same values. *)

Definition digit (c : ascii) : option Z :=
  let n := Z.of_N (N_of_ascii c) in
  if (48 <=? n) && (n <=? 57) then Some (n - 48) else None.

Fixpoint digits (acc : Z) (s : string) : option Z :=
  match s with
  | EmptyString => Some acc
  | String c r =>
      match digit c with
      | Some d => digits (acc * 10 + d) r
      | None => None
      end
  end.

Definition Atoi (s : string) : option Z :=
  let '(neg, body) :=
    match s with
    | String "-" r => (true, r)
    | String "+" r => (false, r)
    | _ => (false, s)
    end in
  match body with
  | EmptyString => None
  | _ =>
      match digits 0 body with
      | Some n =>
          let v := if neg : bool then - n else n in
          if (minInt64 <=? v) && (v <=? maxInt64) then Some v else None
      | None => None
      end
  end.

(** ** HTTP headers and responses *)

Abbreviation Header := (gmap string (list string)).

(** [Header.Get]: the first value stored under the canonical form of the
    key, or the empty string.  The only key the package asks for is the
    literal [Retry-After], which is its own canonical form. *)
Definition Header_Get (h : Header) (key : string) : string :=
  match h !! key with
  | Some (v :: _) => v
  | _ => ""
  end.

(** [Header.Set]: replaces the values of the key by a single one. *)
Definition Header_Set (h : Header) (key value : string) : Header :=
  <[key := [value]]> h.

Record Response : Type := mkResponse {
  resp_StatusCode : Z;
  resp_Header : Header
}.

(** [ErrorDetail] and [ErrorResponse]: the decoded failure envelope
    [{"error": {"code", "message", "type", "param"}}]. *)
Record ErrorDetail : Type := mkErrorDetail {
  Code : string;
  Detail_Message : string;
  Type_ : string;
  Param : string
}.

Record ErrorResponse : Type := mkErrorResponse {
  Detail : ErrorDetail
}.

(** ** The Go standard library, as far as the package relies on it *)

Class GoLib : Type := {
  (** [strings.ToLower] *)
  ToLower : string -> string;
  (** [http.StatusText] *)
  StatusText : Z -> string;
  (** [json.Unmarshal(body, &errorResp)] on a zero [ErrorResponse]:
      [None] when it returns an error, else the filled value. *)
  Unmarshal : string -> option ErrorResponse;
  (** The empty input is not a JSON value. *)
  Unmarshal_empty : Unmarshal "" = None
}.

(** ** The Error Classifier *)

Section Classifier.
Context `{go : GoLib}.

(** The [switch statusCode] of [categorizeError]; the three locals start
    at their zero values. *)
Definition statusTable (statusCode : Z) (errorCode : string) (headers : Header)
  : bool * string * Duration :=
  if statusCode =? 401 then
    (false, "Authentication failed. Please check your OpenRouter API key.", 0)
  else if statusCode =? 403 then
    (false,
     if Contains (ToLower errorCode) "insufficient"
        || Contains (ToLower errorCode) "credit"
        || Contains (ToLower errorCode) "balance"
     then "Insufficient credits. Please add credits to your OpenRouter account."
     else "Access forbidden. Please check your API permissions.",
     0)
  else if statusCode =? 404 then
    (false,
     if Contains (ToLower errorCode) "model"
     then "The requested AI model is not available. Please try a different model."
     else "The requested resource was not found.",
     0)
  else if statusCode =? 429 then
    let retryAfterStr := Header_Get headers "Retry-After" in
    let retryAfter :=
      if String.eqb retryAfterStr "" then 0
      else match Atoi retryAfterStr with
           | Some seconds => wrap64 (seconds * Second)
           | None => 0
           end in
    (true, "Rate limit exceeded. Please wait a moment before trying again.",
     if retryAfter =? 0 then 60 * Second else retryAfter)
  else if statusCode =? 400 then
    (false,
     if String.eqb (ToLower errorCode) "invalid_request_error"
     then "Invalid request. Please check your input parameters."
     else if String.eqb (ToLower errorCode) "model_not_found"
     then "The specified AI model was not found. Please check the model name."
     else if String.eqb (ToLower errorCode) "context_length_exceeded"
     then "Your message is too long. Please try with a shorter message."
     else "Bad request. Please check your input and try again.",
     0)
  else if statusCode =? 500 then
    (true, "OpenRouter service is temporarily unavailable. Please try again in a few moments.", 0)
  else if statusCode =? 502 then
    (true, "OpenRouter gateway error. Please try again in a few moments.", 0)
  else if statusCode =? 503 then
    (true, "OpenRouter service is temporarily unavailable. Please try again later.",
     30 * Second)
  else if statusCode =? 504 then
    (true, "Request timed out. Please try again.", 0)
  else if statusCode >=? 500 then
    (true, "OpenRouter service error. Please try again later.", 0)
  else if statusCode >=? 400 then
    (false, "Request error. Please check your input and try again.", 0)
  else
    (false, "An unexpected error occurred.", 0).

(** The [switch strings.ToLower(errorType)] that follows: it overwrites
    the locals it names and leaves the others as the table set them. *)
Definition errorTypeOverride (errorType : string) (v : bool * string * Duration)
  : bool * string * Duration :=
  let '(isRetryable, userMessage, retryAfter) := v in
  if String.eqb (ToLower errorType) "insufficient_quota" then
    (false, "Insufficient quota. Please check your OpenRouter account limits.",
     retryAfter)
  else if String.eqb (ToLower errorType) "model_overloaded" then
    (true, "The AI model is currently overloaded. Please try again in a few moments.",
     30 * Second)
  else if String.eqb (ToLower errorType) "model_unavailable" then
    (true,
     "The AI model is temporarily unavailable. Please try a different model or wait a few moments.",
     60 * Second)
  else (isRetryable, userMessage, retryAfter).

Definition categorizeError (statusCode : Z) (errorCode errorType : string)
  (headers : Header) : bool * string * Duration :=
  errorTypeOverride errorType (statusTable statusCode errorCode headers).

(** [ParseError]. *)
Definition ParseError (resp : Response) (body : string) : OpenRouterError :=
  let '(errorCode, errorType, message) :=
    match Unmarshal body with
    | Some errorResp =>
        if negb (String.eqb (Detail_Message (Detail errorResp)) "")
        then (Code (Detail errorResp), Type_ (Detail errorResp),
              Detail_Message (Detail errorResp))
        else ("", "", if String.eqb body "" then StatusText (resp_StatusCode resp) else body)
    | None =>
        ("", "", if String.eqb body "" then StatusText (resp_StatusCode resp) else body)
    end in
  let '(isRetryable, userMessage, retryAfter) :=
    categorizeError (resp_StatusCode resp) errorCode errorType (resp_Header resp) in
  {| StatusCode := resp_StatusCode resp;
     ErrorCode := errorCode;
     ErrorType := errorType;
     Message := message;
     UserMessage := userMessage;
     IsRetryable := isRetryable;
     RetryAfter := retryAfter;
     OriginalErr := None |}.

End Classifier.

(** ** A reference instance of [GoLib]

    Executable stand-ins for the library functions, used to run the
    embedding on concrete inputs.  [ToLower_ascii] is [strings.ToLower] on
    ASCII text (bytes from 128 up are copied); [StatusText_table] is the
    table of [net/http]; [Unmarshal_json] reads JSON text as [encoding/json]
    does for the envelope, with field names compared without regard to
    ASCII case and input bytes from 128 up copied into strings. *)

Module Ref.

Definition lower_byte (c : ascii) : ascii :=
  let n := N_of_ascii c in
  if ((65 <=? n) && (n <=? 90))%N then ascii_of_N (n + 32) else c.

Fixpoint ToLower_ascii (s : string) : string :=
  match s with
  | EmptyString => EmptyString
  | String c r => String (lower_byte c) (ToLower_ascii r)
  end.

Definition StatusText_table (code : Z) : string :=
  match code with
  | 100 => "Continue"
  | 101 => "Switching Protocols"
  | 102 => "Processing"
  | 103 => "Early Hints"
  | 200 => "OK"
  | 201 => "Created"
  | 202 => "Accepted"
  | 203 => "Non-Authoritative Information"
  | 204 => "No Content"
  | 205 => "Reset Content"
  | 206 => "Partial Content"
  | 207 => "Multi-Status"
  | 208 => "Already Reported"
  | 226 => "IM Used"
  | 300 => "Multiple Choices"
  | 301 => "Moved Permanently"
  | 302 => "Found"
  | 303 => "See Other"
  | 304 => "Not Modified"
  | 305 => "Use Proxy"
  | 307 => "Temporary Redirect"
  | 308 => "Permanent Redirect"
  | 400 => "Bad Request"
  | 401 => "Unauthorized"
  | 402 => "Payment Required"
  | 403 => "Forbidden"
  | 404 => "Not Found"
  | 405 => "Method Not Allowed"
  | 406 => "Not Acceptable"
  | 407 => "Proxy Authentication Required"
  | 408 => "Request Timeout"
  | 409 => "Conflict"
  | 410 => "Gone"
  | 411 => "Length Required"
  | 412 => "Precondition Failed"
  | 413 => "Request Entity Too Large"
  | 414 => "Request URI Too Long"
  | 415 => "Unsupported Media Type"
  | 416 => "Requested Range Not Satisfiable"
  | 417 => "Expectation Failed"
  | 418 => "I'm a teapot"
  | 421 => "Misdirected Request"
  | 422 => "Unprocessable Entity"
  | 423 => "Locked"
  | 424 => "Failed Dependency"
  | 425 => "Too Early"
  | 426 => "Upgrade Required"
  | 428 => "Precondition Required"
  | 429 => "Too Many Requests"
  | 431 => "Request Header Fields Too Large"
  | 451 => "Unavailable For Legal Reasons"
  | 500 => "Internal Server Error"
  | 501 => "Not Implemented"
  | 502 => "Bad Gateway"
  | 503 => "Service Unavailable"
  | 504 => "Gateway Timeout"
  | 505 => "HTTP Version Not Supported"
  | 506 => "Variant Also Negotiates"
  | 507 => "Insufficient Storage"
  | 508 => "Loop Detected"
  | 510 => "Not Extended"
  | 511 => "Network Authentication Required"
  | _ => ""
  end.

(** *** JSON text *)

#[local] Set Warnings "-register-all".
Inductive json : Type :=
  | JNull
  | JBool (b : bool)
  | JNumber (literal : string)
  | JString (s : string)
  | JArray (elements : list json)
  | JObject (members : list (string * json)).
#[local] Set Warnings "register-all".

Definition is_ws (c : ascii) : bool :=
  let n := N_of_ascii c in
  ((n =? 32) || (n =? 9) || (n =? 10) || (n =? 13))%N.

Fixpoint skip_ws (s : string) : string :=
  match s with
  | EmptyString => EmptyString
  | String c r => if is_ws c then skip_ws r else s
  end.

Definition hex (c : ascii) : option N :=
  let n := N_of_ascii c in
  if ((48 <=? n) && (n <=? 57))%N then Some (n - 48)%N
  else if ((97 <=? n) && (n <=? 102))%N then Some (n - 87)%N
  else if ((65 <=? n) && (n <=? 70))%N then Some (n - 55)%N
  else None.

Definition hex4 (a b c d : ascii) : option N :=
  match hex a, hex b, hex c, hex d with
  | Some x, Some y, Some z, Some w => Some (((x * 16 + y) * 16 + z) * 16 + w)%N
  | _, _, _, _ => None
  end.

(** UTF-8 encoding of a code point below 0x110000. *)
Definition utf8 (n : N) : string :=
  (let b (k : N) := ascii_of_N k in
   let cont (k : N) := b (128 + k mod 64) in
   if n <? 128 then String (b n) ""
   else if n <? 2048 then String (b (192 + n / 64)) (String (cont n) "")
   else if n <? 65536 then
     String (b (224 + n / 4096)) (String (cont (n / 64)) (String (cont n) ""))
   else
     String (b (240 + n / 262144))
       (String (cont (n / 4096)) (String (cont (n / 64)) (String (cont n) ""))))%N.

Definition replacement : string := utf8 65533.

Definition is_high (n : N) : bool := ((55296 <=? n) && (n <? 56320))%N.
Definition is_low (n : N) : bool := ((56320 <=? n) && (n <? 57344))%N.

Definition cons_str (p : string) (r : option (string * string))
  : option (string * string) :=
  match r with
  | Some (s, rest) => Some (p +:+ s, rest)
  | None => None
  end.

(** The characters of a string literal, after its opening quote: the
    decoded text and the input left after the closing quote. *)
Fixpoint parse_chars (s : string) : option (string * string) :=
  match s with
  | EmptyString => None
  | String "034" r => Some ("", r)
  | String "\" (String "u" (String a (String b (String c (String d r))))) =>
      match hex4 a b c d with
      | None => None
      | Some n =>
          if is_high n then
            match r with
            | String "\" (String "u" (String a' (String b' (String c' (String d' r'))))) =>
                match hex4 a' b' c' d' with
                | Some m =>
                    if is_low m
                    then cons_str (utf8 (65536 + (n - 55296) * 1024 + (m - 56320))%N)
                           (parse_chars r')
                    else cons_str replacement (parse_chars r)
                | None => cons_str replacement (parse_chars r)
                end
            | _ => cons_str replacement (parse_chars r)
            end
          else if is_low n then cons_str replacement (parse_chars r)
          else cons_str (utf8 n) (parse_chars r)
      end
  | String "\" (String e r) =>
      let lit (k : N) := cons_str (String (ascii_of_N k) "") (parse_chars r) in
      match e with
      | "034"%char => lit 34%N
      | "\"%char => lit 92%N
      | "/"%char => lit 47%N
      | "b"%char => lit 8%N
      | "f"%char => lit 12%N
      | "n"%char => lit 10%N
      | "r"%char => lit 13%N
      | "t"%char => lit 9%N
      | _ => None
      end
  | String "\" EmptyString => None
  | String c r =>
      if (N_of_ascii c <? 32)%N then None
      else cons_str (String c "") (parse_chars r)
  end.

Definition is_digit (c : ascii) : bool :=
  let n := N_of_ascii c in ((48 <=? n) && (n <=? 57))%N.

Fixpoint span_digits (s : string) : string * string :=
  match s with
  | String c r =>
      if is_digit c then let '(d, rest) := span_digits r in (String c d, rest)
      else (""%string, s)
  | EmptyString => (""%string, ""%string)
  end.

(** A number literal: an optional minus sign, an integer part without a
    leading zero (unless it is the single digit 0), an optional fraction
    and an optional exponent. *)
Definition parse_number (s : string) : option (string * string) :=
  let '(sign, s1) :=
    match s with String "-" r => ("-", r) | _ => ("", s) end in
  let '(int, s2) := span_digits s1 in
  let int_ok :=
    match int with
    | EmptyString => false
    | String "0" (String _ _) => false
    | _ => true
    end in
  if negb int_ok then None else
  let frac :=
    match s2 with
    | String "." r =>
        let '(f, s3) := span_digits r in
        match f with
        | EmptyString => None
        | _ => Some (String "." f, s3)
        end
    | _ => Some ("", s2)
    end in
  match frac with
  | None => None
  | Some (f, s3) =>
      let after_e (e : ascii) (r : string) :=
        let '(sg, r1) :=
          match r with
          | String "+" t => ("+", t)
          | String "-" t => ("-", t)
          | _ => ("", r)
          end in
        let '(x, s4) := span_digits r1 in
        match x with
        | EmptyString => None
        | _ => Some (sign +:+ int +:+ f +:+ String e sg +:+ x, s4)
        end in
      match s3 with
      | String "e" r => after_e "e"%char r
      | String "E" r => after_e "E"%char r
      | _ => Some (sign +:+ int +:+ f, s3)
      end
  end%string.

(** One JSON value at the head of the input (leading white space already
    skipped by the caller where the grammar allows it).  [fuel] bounds
    the number of values and members read; the length of the input is
    always enough. *)
Fixpoint parse_value (fuel : nat) (s : string) : option (json * string) :=
  match fuel with
  | O => None
  | S fuel =>
      match skip_ws s with
      | String "{" r =>
          match skip_ws r with
          | String "}" r' => Some (JObject [], r')
          | _ =>
              match parse_members fuel r [] with
              | Some (ms, r') => Some (JObject ms, r')
              | None => None
              end
          end
      | String "[" r =>
          match skip_ws r with
          | String "]" r' => Some (JArray [], r')
          | _ =>
              match parse_elements fuel r [] with
              | Some (es, r') => Some (JArray es, r')
              | None => None
              end
          end
      | String "034" r =>
          match parse_chars r with
          | Some (str, r') => Some (JString str, r')
          | None => None
          end
      | String "t" (String "r" (String "u" (String "e" r))) => Some (JBool true, r)
      | String "f" (String "a" (String "l" (String "s" (String "e" r)))) =>
          Some (JBool false, r)
      | String "n" (String "u" (String "l" (String "l" r))) => Some (JNull, r)
      | s' =>
          match parse_number s' with
          | Some (lit, r) => Some (JNumber lit, r)
          | None => None
          end
      end
  end
with parse_elements (fuel : nat) (s : string) (acc : list json)
  : option (list json * string) :=
  match fuel with
  | O => None
  | S fuel =>
      match parse_value fuel s with
      | Some (v, r) =>
          match skip_ws r with
          | String "," r' => parse_elements fuel r' (acc ++ [v])
          | String "]" r' => Some ((acc ++ [v]), r')
          | _ => None
          end
      | None => None
      end
  end
with parse_members (fuel : nat) (s : string) (acc : list (string * json))
  : option (list (string * json) * string) :=
  match fuel with
  | O => None
  | S fuel =>
      match skip_ws s with
      | String "034" r =>
          match parse_chars r with
          | Some (key, r1) =>
              match skip_ws r1 with
              | String ":" r2 =>
                  match parse_value fuel r2 with
                  | Some (v, r3) =>
                      match skip_ws r3 with
                      | String "," r4 => parse_members fuel r4 (acc ++ [(key, v)])
                      | String "}" r4 => Some ((acc ++ [(key, v)]), r4)
                      | _ => None
                      end
                  | None => None
                  end
              | _ => None
              end
          | None => None
          end
      | _ => None
      end
  end.

(** The whole input is one JSON value between optional white space. *)
Definition parse_json (s : string) : option json :=
  match parse_value (S (String.length s)) s with
  | Some (v, r) =>
      match skip_ws r with
      | EmptyString => Some v
      | _ => None
      end
  | None => None
  end.

(** *** Decoding into [ErrorResponse]

    Members are stored in input order, a later duplicate overwriting an
    earlier one; [null] leaves a field as it is; a value of the wrong
    JSON type for a field makes [json.Unmarshal] return an error;
    unknown members and the free-form [details] member are skipped. *)

Definition fold_eq (a b : string) : bool :=
  String.eqb (ToLower_ascii a) (ToLower_ascii b).

Definition string_field (v : json) (old : string) : option string :=
  match v with
  | JString s => Some s
  | JNull => Some old
  | _ => None
  end.

Definition decode_detail_member (d : ErrorDetail) (m : string * json)
  : option ErrorDetail :=
  let '(k, v) := m in
  if fold_eq k "code" then
    option_map (fun s => mkErrorDetail s (Detail_Message d) (Type_ d) (Param d))
      (string_field v (Code d))
  else if fold_eq k "message" then
    option_map (fun s => mkErrorDetail (Code d) s (Type_ d) (Param d))
      (string_field v (Detail_Message d))
  else if fold_eq k "type" then
    option_map (fun s => mkErrorDetail (Code d) (Detail_Message d) s (Param d))
      (string_field v (Type_ d))
  else if fold_eq k "param" then
    option_map (fun s => mkErrorDetail (Code d) (Detail_Message d) (Type_ d) s)
      (string_field v (Param d))
  else Some d.

Definition decode_members {A : Type} (step : A -> string * json -> option A)
  (ms : list (string * json)) (a : A) : option A :=
  fold_left (fun acc m => match acc with Some x => step x m | None => None end)
    ms (Some a).

Definition decode_response_member (e : ErrorResponse) (m : string * json)
  : option ErrorResponse :=
  let '(k, v) := m in
  if fold_eq k "error" then
    match v with
    | JNull => Some e
    | JObject ms =>
        option_map mkErrorResponse (decode_members decode_detail_member ms (Detail e))
    | _ => None
    end
  else Some e.

Definition decode_ErrorResponse (j : json) : option ErrorResponse :=
  let zero := mkErrorResponse (mkErrorDetail "" "" "" "") in
  match j with
  | JNull => Some zero
  | JObject ms => decode_members decode_response_member ms zero
  | _ => None
  end.

Definition Unmarshal_json (body : string) : option ErrorResponse :=
  match parse_json body with
  | Some j => decode_ErrorResponse j
  | None => None
  end.

(** Test inputs are written with single quotes where JSON has double
    quotes; [quoted] puts the double quotes in. *)
Fixpoint quoted (s : string) : string :=
  match s with
  | EmptyString => EmptyString
  | String c r => String (if Ascii.eqb c "'" then "034"%char else c) (quoted r)
  end.

Definition lib : GoLib :=
  {| ToLower := ToLower_ascii;
     StatusText := StatusText_table;
     Unmarshal := Unmarshal_json;
     Unmarshal_empty := eq_refl |}.

End Ref.



(** ** The [Error] method and the error wrappers *)

(** [Error()] of each dynamic type; for [OpenRouterError] it is the
    method of client.go. *)
Fixpoint Error (err : error) : string :=
  match err with
  | ErrOpenRouter e =>
      let head :=
        "OpenRouter API error (status: " +:+ itoa (StatusCode e) +:+ ", code: "
        +:+ ErrorCode e +:+ "): " +:+ Message e in
      match OriginalErr e with
      | Some cause => head +:+ " (original: " +:+ Error cause +:+ ")"
      | None => head
      end
  | ErrText msg => msg
  | ErrWrapf prefix cause => prefix +:+ Error cause
  | Canceled => "context canceled"
  | DeadlineExceeded => "context deadline exceeded"
  end.

Definition IsTemporary (e : OpenRouterError) : bool := IsRetryable e.

Definition GetUserMessage (e : OpenRouterError) : string :=
  if negb (String.eqb (UserMessage e) "") then UserMessage e else Message e.

Definition WrapNetworkError (err : error) : OpenRouterError :=
  {| StatusCode := 0;
     ErrorCode := "network_error";
     ErrorType := "network_error";
     Message := Error err;
     UserMessage :=
       "Network error occurred. Please check your internet connection and try again.";
     IsRetryable := true;
     RetryAfter := 0;
     OriginalErr := Some err |}.

Definition isDeadlineExceeded (err : error) : bool :=
  match err with
  | DeadlineExceeded => true
  | _ => false
  end.

Definition WrapContextError (err : error) : OpenRouterError :=
  {| StatusCode := 0;
     ErrorCode := "context_error";
     ErrorType := "context_error";
     Message := Error err;
     UserMessage :=
       if isDeadlineExceeded err then "Request timed out. Please try again."
       else "Request was cancelled.";
     IsRetryable := isDeadlineExceeded err;
     RetryAfter := 0;
     OriginalErr := Some err |}.

Definition IsRetryableError (err : error) : bool :=
  match asOpenRouterError err with
  | Some orErr => IsRetryable orErr
  | None => false
  end.

Definition GetUserFriendlyMessage (err : error) : string :=
  match asOpenRouterError err with
  | Some orErr => GetUserMessage orErr
  | None => "An unexpected error occurred. Please try again."
  end.

(** ** The logger, as the sequence of calls made on it *)

Inductive LogLevel : Type :=
  | LogLevelDebug
  | LogLevelInfo
  | LogLevelWarn
  | LogLevelError.

Record Logger : Type := mkLogger {
  level : LogLevel;
  enableMetrics : bool;
  enableRequestLog : bool;
  enableResponseLog : bool
}.

Definition DefaultLogger : Logger :=
  {| level := LogLevelInfo;
     enableMetrics := true;
     enableRequestLog := true;
     enableResponseLog := true |}.

(** An outbound request: what [buildRequest] sets on it. *)
Record Request : Type := mkRequest {
  Req_Method : string;
  Req_URL : string;
  Req_Path : string;
  Req_Header : Header
}.

(** One call of a method of the logger with the arguments that are
    values of the model (measured durations and decoded bodies are left
    out).  The logger writes lines and returns; it has no other effect
    on the client. *)
Inductive LogCall : Type :=
  | LogRequest (req : Request)
  | LogResponse (statusCode : Z) (headers : Header)
  | LogError (err : error) (context : string)
  | LogChatCompletion (err : option error)
  | LogImageGeneration (err : option error)
  | LogConnectionTest (success : bool) (err : option error)
  | LogRateLimitHit (retryAfter : Duration)
  | LogRetryAttempt (attempt maxRetries : Z) (delay : Duration) (err : error).

(** ** The request/response client *)

Definition DefaultBaseURL : string := "https://openrouter.ai/api/v1".

Record Client : Type := mkClient {
  apiKey : string;
  baseURL : string;
  siteURL : string;
  siteName : string;
  logger : Logger
}.

Record ClientConfig : Type := mkClientConfig {
  APIKey : string;
  BaseURL : string;
  SiteURL : string;
  SiteName : string;
  Config_Logger : option Logger
}.

Definition NewClientWithConfig (config : ClientConfig) : Client :=
  {| apiKey := APIKey config;
     baseURL := if String.eqb (BaseURL config) "" then DefaultBaseURL else BaseURL config;
     siteURL := SiteURL config;
     siteName := SiteName config;
     logger := match Config_Logger config with
               | Some l => l
               | None => DefaultLogger
               end |}.

Definition NewClient (key : string) : Client :=
  NewClientWithConfig
    {| APIKey := key; BaseURL := DefaultBaseURL; SiteURL := ""; SiteName := "";
       Config_Logger := Some DefaultLogger |}.

(** What the world outside the process answers to one call of the
    client: the outcome of [json.Marshal] on the payload (asked for by
    the two calls that send one), of [http.NewRequestWithContext] (an
    error, or the path of the URL it parsed), and of the exchange
    itself: the transport fails, or a response arrives and reading its
    body fails or gives the body. *)
Inductive RoundTrip : Type :=
  | TransportFailed (err : error)
  | ReadFailed (resp : Response) (err : error)
  | Received (resp : Response) (body : string).

Record Exchange : Type := mkExchange {
  marshal : error + string;
  newRequest : error + string;
  roundTrip : RoundTrip
}.

(** [buildRequest]; [body] is [None] for a nil body, else the outcome of
    [json.Marshal] on it.  [Header.Set] stores a key in its canonical
    form, so [HTTP-Referer] is stored as [Http-Referer]. *)
Definition buildRequest (c : Client) (method endpoint : string)
  (body : option (error + string)) (made : error + string)
  : list LogCall * (error + Request) :=
  let url := baseURL c +:+ endpoint in
  match body with
  | Some (inl err) =>
      ([LogError err "Marshaling request body"],
       inl (ErrWrapf "failed to marshal request body: " err))
  | _ =>
      match made with
      | inl err =>
          ([LogError err "Creating HTTP request"],
           inl (ErrWrapf "failed to create request: " err))
      | inr path =>
          let h0 : Header :=
            Header_Set (Header_Set ∅ "Authorization" ("Bearer " +:+ apiKey c))
              "Content-Type" "application/json" in
          let h1 :=
            if negb (String.eqb (siteURL c) "")
            then Header_Set h0 "Http-Referer" (siteURL c) else h0 in
          let h2 :=
            if negb (String.eqb (siteName c) "")
            then Header_Set h1 "X-Title" (siteName c) else h1 in
          let req := mkRequest method url path h2 in
          ([LogRequest req], inr req)
      end
  end.

Section DoRequest.
Context `{go : GoLib}.

Definition httpContext (req : Request) : string :=
  "HTTP " +:+ Req_Method req +:+ " " +:+ Req_Path req.

(** [doRequest].  [result] is the decoder of the success shape the
    caller passes a pointer to, or [None] for a nil [result]; the value
    returned is the error, or what [result] points to afterwards. *)
Definition doRequest {T : Type} (req : Request) (result : option (string -> error + T))
  (rt : RoundTrip) : list LogCall * (error + option T) :=
  match rt with
  | TransportFailed err =>
      ([LogError (ErrOpenRouter (WrapNetworkError err)) (httpContext req)],
       inl (ErrWrapf "request failed: " err))
  | ReadFailed resp err =>
      ([LogError err "Reading response body"],
       inl (ErrWrapf "failed to read response body: " err))
  | Received resp body =>
      let log := [LogResponse (resp_StatusCode resp) (resp_Header resp)] in
      if resp_StatusCode resp >=? 400 then
        match Unmarshal body with
        | None =>
            let httpErr :=
              ErrText ("HTTP " +:+ itoa (resp_StatusCode resp) +:+ ": " +:+ body) in
            (log ++ [LogError httpErr (httpContext req)], inl httpErr)
        | Some _ =>
            let orErr := ErrOpenRouter (ParseError resp body) in
            (log ++ [LogError orErr (httpContext req)], inl orErr)
        end
      else
        match result with
        | Some decode =>
            match decode body with
            | inl err =>
                (log ++ [LogError err "Unmarshaling response"],
                 inl (ErrWrapf "failed to unmarshal response: " err))
            | inr v => (log, inr (Some v))
            end
        | None => (log, inr None)
        end
  end.

End DoRequest.

(** ** Request payloads and their validation *)

Record ChatCompletionMessage : Type := mkChatCompletionMessage {
  Role : string;
  Content : string;
  Name : string
}.

(** The fields [Validate] reads; the sampling options do not take part
    in any decision of the client. *)
Record ChatCompletionRequest : Type := mkChatCompletionRequest {
  Chat_Model : string;
  Messages : list ChatCompletionMessage
}.

Record ImageRequest : Type := mkImageRequest {
  Prompt : string;
  Image_Model : string;
  N : Z
}.

Fixpoint validateMessages (i : Z) (msgs : list ChatCompletionMessage) : option error :=
  match msgs with
  | [] => None
  | msg :: rest =>
      if String.eqb (Role msg) "" then
        Some (ErrText ("message " +:+ itoa i +:+ ": role is required"))
      else if String.eqb (Content msg) "" then
        Some (ErrText ("message " +:+ itoa i +:+ ": content is required"))
      else validateMessages (i + 1) rest
  end.

Definition ChatCompletionRequest_Validate (r : ChatCompletionRequest) : option error :=
  if String.eqb (Chat_Model r) "" then Some (ErrText "model is required")
  else match Messages r with
       | [] => Some (ErrText "at least one message is required")
       | msgs => validateMessages 0 msgs
       end.

Definition ImageRequest_Validate (r : ImageRequest) : option error :=
  if String.eqb (Prompt r) "" then Some (ErrText "prompt is required")
  else if String.eqb (Image_Model r) "" then Some (ErrText "model is required")
  else if N r <? 0 then Some (ErrText "n must be non-negative")
  else None.

(** ** The five calls of the client *)

Section Calls.
Context `{go : GoLib}.

(** The success shapes and their decoding by [json.Unmarshal] from a
    zero value.  Their content plays no part in error handling. *)
Context {ChatCompletionResponse ImageResponse ModelsResponse Model : Type}.
Variable zeroChat : ChatCompletionResponse.
Variable zeroImage : ImageResponse.
Variable zeroModels : ModelsResponse.
Variable zeroModel : Model.
Variable decodeChat : string -> error + ChatCompletionResponse.
Variable decodeImage : string -> error + ImageResponse.
Variable decodeModels : string -> error + ModelsResponse.
Variable decodeModel : string -> error + Model.

Definition filled {T : Type} (zero : T) (r : option T) : T :=
  match r with
  | Some v => v
  | None => zero
  end.

Definition isNil (err : option error) : bool :=
  match err with
  | None => true
  | Some _ => false
  end.

Definition errOf {T : Type} (r : error + T) : option error :=
  match r with
  | inl err => Some err
  | inr _ => None
  end.

Definition CreateChatCompletion (c : Client) (req : ChatCompletionRequest) (x : Exchange)
  : list LogCall * (error + ChatCompletionResponse) :=
  match ChatCompletionRequest_Validate req with
  | Some err =>
      ([LogError err "Chat completion request validation"],
       inl (ErrWrapf "invalid request: " err))
  | None =>
      match buildRequest c "POST" "/chat/completions" (Some (marshal x)) (newRequest x) with
      | (l1, inl err) => (l1, inl err)
      | (l1, inr httpReq) =>
          let '(l2, r) := doRequest httpReq (Some decodeChat) (roundTrip x) in
          ((l1 ++ l2 ++ [LogChatCompletion (errOf r)]),
           match r with
           | inl err => inl err
           | inr resp => inr (filled zeroChat resp)
           end)
      end
  end.

Definition CreateImage (c : Client) (req : ImageRequest) (x : Exchange)
  : list LogCall * (error + ImageResponse) :=
  match ImageRequest_Validate req with
  | Some err =>
      ([LogError err "Image generation request validation"],
       inl (ErrWrapf "invalid request: " err))
  | None =>
      match buildRequest c "POST" "/images/generations" (Some (marshal x)) (newRequest x) with
      | (l1, inl err) => (l1, inl err)
      | (l1, inr httpReq) =>
          let '(l2, r) := doRequest httpReq (Some decodeImage) (roundTrip x) in
          ((l1 ++ l2 ++ [LogImageGeneration (errOf r)]),
           match r with
           | inl err => inl err
           | inr resp => inr (filled zeroImage resp)
           end)
      end
  end.

Definition ListModels (c : Client) (x : Exchange)
  : list LogCall * (error + ModelsResponse) :=
  match buildRequest c "GET" "/models" None (newRequest x) with
  | (l1, inl err) => (l1, inl err)
  | (l1, inr httpReq) =>
      let '(l2, r) := doRequest httpReq (Some decodeModels) (roundTrip x) in
      ((l1 ++ l2),
       match r with
       | inl err => inl err
       | inr resp => inr (filled zeroModels resp)
       end)
  end.

Definition GetModel (c : Client) (modelID : string) (x : Exchange)
  : list LogCall * (error + Model) :=
  match buildRequest c "GET" ("/models/" +:+ modelID) None (newRequest x) with
  | (l1, inl err) => (l1, inl err)
  | (l1, inr httpReq) =>
      let '(l2, r) := doRequest httpReq (Some decodeModel) (roundTrip x) in
      ((l1 ++ l2),
       match r with
       | inl err => inl err
       | inr model => inr (filled zeroModel model)
       end)
  end.

(** [Ping] passes a nil [result]; it returns the error alone. *)
Definition Ping (c : Client) (x : Exchange) : list LogCall * option error :=
  match buildRequest c "GET" "/models" None (newRequest x) with
  | (l1, inl err) => (l1, Some err)
  | (l1, inr httpReq) =>
      let '(l2, r) := doRequest (T := unit) httpReq None (roundTrip x) in
      ((l1 ++ l2 ++ [LogConnectionTest (isNil (errOf r)) (errOf r)]),
       errOf r)
  end.

End Calls.

(** ** The retry policy *)

(** A [float64] value, as the IEEE 754 datum it is. *)
Definition float64 : Type := spec_float.

Definition float64_2 : float64 := S754_finite false 4503599627370496 (-51).

Record RetryConfig : Type := mkRetryConfig {
  MaxRetries : Z;
  BaseDelay : Duration;
  MaxDelay : Duration;
  BackoffFactor : float64;
  JitterEnabled : bool
}.

Definition DefaultRetryConfig : RetryConfig :=
  {| MaxRetries := 3;
     BaseDelay := 1 * Second;
     MaxDelay := 30 * Second;
     BackoffFactor := float64_2;
     JitterEnabled := true |}.

(** ** The Retry Executor *)

(** Why a context is done: what [ctx.Err()] reports once [ctx.Done()] is
    closed. *)
Inductive Cause : Type :=
  | CauseCanceled
  | CauseDeadline.

Definition ctxErr (c : Cause) : error :=
  match c with
  | CauseCanceled => Canceled
  | CauseDeadline => DeadlineExceeded
  end.

(** Which of the two [select] statements of [WithRetry] a wait is. *)
Inductive WaitKind : Type :=
  | ServerSuggested
  | Backoff.

(** What a run of the executor does, in order: it invokes the operation
    (and gets its result), calls the logger, and waits in a [select]
    that ends with the timer ([None]) or with the context ([Some]). *)
Inductive Event : Type :=
  | EvCall (result : option error)
  | EvLog (l : LogCall)
  | EvWait (kind : WaitKind) (delay : Duration) (done : option Cause).

Record Outcome (World : Type) : Type := mkOutcome {
  ret : option error;
  trace : list Event;
  world : World
}.

Arguments mkOutcome {World}.
Arguments ret {World}.
Arguments trace {World}.
Arguments world {World}.

(** The results of the invocations of the operation, in order. *)
Fixpoint calls (tr : list Event) : list (option error) :=
  match tr with
  | [] => []
  | EvCall r :: rest => r :: calls rest
  | _ :: rest => calls rest
  end.

Definition invocations (tr : list Event) : Z := Z.of_nat (length (calls tr)).

Definition interrupted (ev : Event) : bool :=
  match ev with
  | EvWait _ _ (Some _) => true
  | _ => false
  end.

(** No wait of the trace was ended by the context. *)
Definition undisturbed (tr : list Event) : Prop :=
  Forall (fun ev => interrupted ev = false) tr.

Section Retry.

(** Everything the executor does not own is a state [World] that is
    passed along: the state the closure [fn] captures, the clock and the
    context, the source of random numbers.
    - [fn w] is one invocation of the operation.
    - [wait d w] is [select] between [ctx.Done()] and [time.After(d)]:
      [Some c] when the context wins, [c] telling what [ctx.Err()] is.
    - [calculateDelay attempt config w] is the backoff delay.  The code
      computes it in [float64], from [math.Pow] and, with jitter, from
      [rand.Float64()], and converts the result to [int64]; no property
      below depends on its value. *)
Context {World : Type}.
Variable fn : World -> option error * World.
Variable wait : Duration -> World -> option Cause * World.
Variable calculateDelay : Z -> RetryConfig -> World -> Duration * World.

(** How one pass through the body of the loop ends. *)
Inductive Step : Type :=
  | Return (err : option error)
  | Continue (lastErr : option error).

Definition logged (logger : option Logger) (l : LogCall) : list Event :=
  match logger with
  | Some _ => [EvLog l]
  | None => []
  end.

Definition selectWait (kind : WaitKind) (delay : Duration) (lastErr : option error)
  (tr : list Event) (w : World) : Step * list Event * World :=
  let '(done, w') := wait delay w in
  (match done with
   | Some c => Return (Some (ctxErr c))
   | None => Continue lastErr
   end,
   tr ++ [EvWait kind delay done], w').

(** The tail of the body: the computed delay and the second [select]. *)
Definition backoff (config : RetryConfig) (logger : option Logger) (attempt : Z)
  (err : error) (tr : list Event) (w : World) : Step * list Event * World :=
  let '(delay, w1) := calculateDelay attempt config w in
  selectWait Backoff delay (Some err)
    (tr ++ logged logger (LogRetryAttempt (attempt + 1) (MaxRetries config) delay err)) w1.

(** The body of the [for] loop at a given value of [attempt]. *)
Definition iteration (config : RetryConfig) (logger : option Logger) (attempt : Z)
  (tr : list Event) (w : World) : Step * list Event * World :=
  let '(result, w1) := fn w in
  let tr1 := tr ++ [EvCall result] in
  match result with
  | None => (Return None, tr1, w1)
  | Some err =>
      if attempt =? MaxRetries config then (Return (Some err), tr1, w1)
      else
        match asOpenRouterError err with
        | Some orErr =>
            if negb (IsRetryable orErr) then (Return (Some err), tr1, w1)
            else
              let tr2 :=
                tr1 ++ (if StatusCode orErr =? 429
                        then logged logger (LogRateLimitHit (RetryAfter orErr))
                        else []) in
              if RetryAfter orErr >? 0 then
                selectWait ServerSuggested (RetryAfter orErr) (Some err)
                  (tr2 ++ logged logger
                     (LogRetryAttempt (attempt + 1) (MaxRetries config)
                        (RetryAfter orErr) err)) w1
              else backoff config logger attempt err tr2 w1
        | None => backoff config logger attempt err tr1 w1
        end
  end.

(** The [for] loop.  [fuel] bounds the number of passes. *)
Fixpoint retryLoop (fuel : nat) (config : RetryConfig) (logger : option Logger)
  (attempt : Z) (lastErr : option error) (tr : list Event) (w : World)
  : option (Outcome World) :=
  match fuel with
  | O => None
  | S fuel =>
      if attempt <=? MaxRetries config then
        match iteration config logger attempt tr w with
        | (Return err, tr', w') => Some (mkOutcome err tr' w')
        | (Continue lastErr', tr', w') =>
            retryLoop fuel config logger (attempt + 1) lastErr' tr' w'
        end
      else Some (mkOutcome lastErr tr w)
  end.

Definition resolve (config : option RetryConfig) : RetryConfig :=
  match config with
  | Some c => c
  | None => DefaultRetryConfig
  end.

(** [WithRetry].  The loop makes at most [MaxRetries + 1] passes, so the
    fuel given here is never used up ([WithRetry_returns] below). *)
Definition WithRetry (config : option RetryConfig) (logger : option Logger) (w : World)
  : option (Outcome World) :=
  retryLoop (S (Z.to_nat (MaxRetries (resolve config)))) (resolve config) logger 0 None [] w.

(** The operation fails on every invocation with a retryable
    [OpenRouterError]. *)
Definition alwaysRetryable : Prop :=
  ∀ w, ∃ e w', fn w = (Some (ErrOpenRouter e), w') ∧ IsRetryable e = true.

(** The context never ends a wait. *)
Definition neverDone : Prop := ∀ d w, (wait d w).1 = None.

End Retry.

(** ** What a run did in the world

    The trace [WithRetry] returns is its own account of the run.  The
    relation [performed] says that an account is true of the world: read
    from the world [w] on, every [EvCall r] is an invocation of the
    operation that gave [r], every [EvWait] is a [select] that ended as
    the event says, after the computation of its delay when it is a
    backoff wait, each in the world the events before it left, and the
    world at the end is [w'].  Calls of the logger do not touch the
    world.  The index is the value of [attempt], which goes up by one
    with every wait. *)

Fixpoint waits (tr : list Event) : Z :=
  match tr with
  | [] => 0
  | EvWait _ _ _ :: rest => 1 + waits rest
  | _ :: rest => waits rest
  end.

Section Performed.
Context {World : Type}.
Variable fn : World -> option error * World.
Variable wait : Duration -> World -> option Cause * World.
Variable calculateDelay : Z -> RetryConfig -> World -> Duration * World.
Variable config : RetryConfig.

Inductive performed : Z -> World -> list Event -> World -> Prop :=
  | performed_nil attempt w :
      performed attempt w [] w
  | performed_call attempt w result w1 tr w' :
      fn w = (result, w1) ->
      performed attempt w1 tr w' ->
      performed attempt w (EvCall result :: tr) w'
  | performed_log attempt w l tr w' :
      performed attempt w tr w' ->
      performed attempt w (EvLog l :: tr) w'
  | performed_suggested attempt w delay done w1 tr w' :
      wait delay w = (done, w1) ->
      performed (attempt + 1) w1 tr w' ->
      performed attempt w (EvWait ServerSuggested delay done :: tr) w'
  | performed_backoff attempt w delay w0 done w1 tr w' :
      calculateDelay attempt config w = (delay, w0) ->
      wait delay w0 = (done, w1) ->
      performed (attempt + 1) w1 tr w' ->
      performed attempt w (EvWait Backoff delay done :: tr) w'.

End Performed.

(** ** A simulated world for running the executor

    A clock in nanoseconds, the counter a test closure captures, and a
    context that is done from a given instant on.  The operation takes
    no time; a wait of [d] ends at [now + d] unless the context is done
    before that. *)

Module Sim.

Record World : Type := mkWorld {
  now : Z;
  callCount : Z;
  doneAt : option (Z * Cause)
}.

Definition start (doneAt : option (Z * Cause)) : World := mkWorld 0 0 doneAt.

Definition wait (d : Duration) (w : World) : option Cause * World :=
  let fire := now w + Z.max d 0 in
  match doneAt w with
  | Some (t, c) =>
      if t <? fire then (Some c, mkWorld (Z.max (now w) t) (callCount w) (doneAt w))
      else (None, mkWorld fire (callCount w) (doneAt w))
  | None => (None, mkWorld fire (callCount w) (doneAt w))
  end.

(** A wait under [context.Background()], which is never done. *)
Definition sleep (d : Duration) (w : World) : option Cause * World :=
  (None, mkWorld (now w + Z.max d 0) (callCount w) (doneAt w)).

(** The closure of the tests: it counts its invocations and fails with
    [err] while the count is below [succeedAt] (never succeeding when
    [succeedAt] is [None]). *)
Definition fn (err : error) (succeedAt : option Z) (w : World) : option error * World :=
  let n := callCount w + 1 in
  let w' := mkWorld (now w) n (doneAt w) in
  match succeedAt with
  | Some k => if n <? k then (Some err, w') else (None, w')
  | None => (Some err, w')
  end.

(** A source of backoff delays for the runs below: the base delay
    doubled at each attempt and capped, the values the tests expect
    for [BackoffFactor] 2 without jitter. *)
Definition doubling (attempt : Z) (config : RetryConfig) (w : World)
  : Duration * World :=
  (Z.min (BaseDelay config * 2 ^ attempt) (MaxDelay config), w).

Definition retryable (retryAfter : Duration) : error :=
  ErrOpenRouter
    {| StatusCode := 0; ErrorCode := ""; ErrorType := ""; Message := "";
       UserMessage := ""; IsRetryable := true; RetryAfter := retryAfter;
       OriginalErr := None |}.

Definition nonRetryable : error :=
  ErrOpenRouter
    {| StatusCode := 0; ErrorCode := ""; ErrorType := "";
       Message := "Non-retryable error";
       UserMessage := ""; IsRetryable := false; RetryAfter := 0;
       OriginalErr := None |}.

Definition config (maxRetries : Z) (baseDelay maxDelay : Duration) : RetryConfig :=
  {| MaxRetries := maxRetries; BaseDelay := baseDelay; MaxDelay := maxDelay;
     BackoffFactor := float64_2; JitterEnabled := false |}.

Definition run (err : error) (succeedAt : option Z) (cfg : option RetryConfig)
  (doneAt : option (Z * Cause)) : option (Outcome World) :=
  WithRetry (fn err succeedAt) wait doubling cfg None (start doneAt).

(** A client and an exchange for running the calls: success bodies are
    kept as text. *)
Definition client : Client := NewClient "test-api-key".

Definition exchange (rt : RoundTrip) : Exchange :=
  {| marshal := inr "{}"; newRequest := inr "/api/v1/test"; roundTrip := rt |}.

Definition text (body : string) : error + string := inr body.

End Sim.

(** ** The backoff delay *)

From Stdlib Require FloatAxioms Uint63.

(** [float64] is IEEE 754 binary64: precision 53, exponents below 1024,
    every operation rounded to nearest, ties to even. *)
Definition prec : Z := 53.
Definition emax : Z := 1024.

(** The conversion [float64(n)] of an integer. *)
Definition float64_of_int (z : Z) : float64 := binary_normalize prec emax z 0 false.

(** The constants [1] and [0.1] as [float64]. *)
Definition float64_1 : float64 := S754_finite false 4503599627370496 (-52).
Definition float64_0_1 : float64 := S754_finite false 7205759403792794 (-56).

(** The integer part of a finite [float64], the fraction discarded. *)
Definition truncate (x : float64) : option Z :=
  match x with
  | S754_zero _ => Some 0
  | S754_finite s m e =>
      let a := if 0 <=? e then Z.pos m * 2 ^ e else Z.pos m / 2 ^ (- e) in
      Some (if s then - a else a)
  | S754_infinity _ | S754_nan => None
  end.

(** What [calculateDelay] takes from outside the repository.
    - [Pow] is [math.Pow]; what it returns is a [float64].
    - [unrepresentable x] is the result of converting to [int64] an [x]
      whose integer part is not an [int64], or that has none: the
      language leaves it to the implementation. *)
Class GoFloat : Type := {
  Pow : float64 -> float64 -> float64;
  Pow_float64 : forall x y, valid_binary prec emax (Pow x y) = true;
  unrepresentable : float64 -> Z
}.

Section BackoffDelay.
Context `{gf : GoFloat}.

(** The conversion [int64(x)], here [time.Duration(delay)]. *)
Definition int64_of_float64 (x : float64) : Z :=
  match truncate x with
  | Some z => if (minInt64 <=? z) && (z <=? maxInt64) then z else unrepresentable x
  | None => unrepresentable x
  end.

(** [rnd] is what [rand.Float64()] returns; it is read with jitter only. *)
Definition calculateDelay (attempt : Z) (config : RetryConfig) (rnd : float64)
  : Duration :=
  let delay :=
    SFmul prec emax (float64_of_int (BaseDelay config))
      (Pow (BackoffFactor config) (float64_of_int attempt)) in
  let delay :=
    if SFltb (float64_of_int (MaxDelay config)) delay
    then float64_of_int (MaxDelay config)
    else delay in
  let delay :=
    if JitterEnabled config then
      let jitter :=
        SFmul prec emax (SFmul prec emax delay float64_0_1)
          (SFsub prec emax (SFmul prec emax float64_2 rnd) float64_1) in
      SFadd prec emax delay jitter
    else delay in
  int64_of_float64 delay.

(** The first value of [delay]: the product before the cap. *)
Definition product (attempt : Z) (config : RetryConfig) : float64 :=
  SFmul prec emax (float64_of_int (BaseDelay config))
    (Pow (BackoffFactor config) (float64_of_int attempt)).

End BackoffDelay.

(** Zero, a positive number or plus infinity. *)
Definition nonneg (x : float64) : bool :=
  match x with
  | S754_zero _ | S754_finite false _ _ | S754_infinity false => true
  | _ => false
  end.

(** A non-negative [float64] counted in units of the smallest positive
    one, [2^-1074]; plus infinity counts [2^1024]. *)
Definition rank (x : float64) : Z :=
  match x with
  | S754_finite false m e => Z.pos m * 2 ^ (e - emin prec emax)
  | S754_infinity false => 2 ^ (emax - emin prec emax)
  | _ => 0
  end.

(** *** A reference instance of [GoFloat]

    [Pow] multiplies repeatedly when the exponent is a natural number,
    which is the value of [math.Pow] wherever the powers are exact, as
    those of 2 are; the conversion of a value outside [int64] is the one
    of amd64, the smallest [int64]. *)
Module RefFloat.

Definition natural (y : float64) : option nat :=
  match truncate y with
  | Some z =>
      if (0 <=? z) && SFeqb (float64_of_int z) y then Some (Z.to_nat z) else None
  | None => None
  end.

Fixpoint power (x : float64) (n : nat) : float64 :=
  match n with
  | O => float64_1
  | S n => SFmul prec emax x (power x n)
  end.

(** A datum that is not a [float64] is not returned. *)
Definition checked (r : float64) : float64 :=
  if valid_binary prec emax r then r else S754_nan.

Definition checked_float64 (r : float64)
  : valid_binary prec emax (checked r) = true :=
  (if valid_binary prec emax r as b
      return valid_binary prec emax r = b ->
             valid_binary prec emax (if b then r else S754_nan) = true
   then fun E => E
   else fun _ => eq_refl) eq_refl.

Definition Pow (x y : float64) : float64 :=
  checked
    match natural y with
    | Some n => power x n
    | None => S754_nan
    end.

Definition amd64 : GoFloat :=
  Build_GoFloat Pow (fun x y => checked_float64 _) (fun _ => minInt64).

End RefFloat.

From Stdlib Require DecimalPos.

(** * The callers of the client

    The helpers of [pkg/commands/gpt], the configuration of the main
    package and the helpers of the logger. *)

(** [len] of a string: its number of bytes. *)
Definition len (s : string) : Z := Z.of_nat (String.length s).

(** ** [pkg/commands/gpt]: messages and model names *)

(** ** The chat completion response

    The fields of the response that the callers of the client read. *)

Record Usage : Type := mkUsage {
  PromptTokens : Z;
  CompletionTokens : Z;
  TotalTokens : Z
}.

Record ChatCompletionChoice : Type := mkChatCompletionChoice {
  Choice_Index : Z;
  Choice_Message : ChatCompletionMessage;
  FinishReason : string
}.

Record ChatCompletionResponse : Type := mkChatCompletionResponse {
  Choices : list ChatCompletionChoice;
  Resp_Usage : Usage
}.

(** The zero value [CreateChatCompletion] decodes into. *)
Definition zeroChatCompletionResponse : ChatCompletionResponse :=
  {| Choices := []; Resp_Usage := mkUsage 0 0 0 |}.

Module Gpt.

Definition discordMaxMessageLength : Z := 2000.

Section SplitMessage.

(** [strings.Fields]: the words of a text, split around runs of white
    space. *)
Variable Fields : string -> list string.

(** The body of the loop of [splitMessage] on the pair
    [(messageParts, currentMessage)]. *)
Definition addWord (st : list string * string) (word : string) : list string * string :=
  let '(messageParts, currentMessage) := st in
  if len currentMessage + len word + 1 >? discordMaxMessageLength
  then (messageParts ++ [currentMessage], word +:+ " ")
  else (messageParts, currentMessage +:+ word +:+ " ").

(** The loop over the words and the [append] that follows it. *)
Definition packWords (words : list string) : list string :=
  let '(messageParts, currentMessage) := fold_left addWord words ([], "") in
  messageParts ++ [currentMessage].

Definition splitMessage (message : string) : list string :=
  if len message <=? discordMaxMessageLength then [message]
  else packWords (Fields message).

End SplitMessage.

(** The parts of a split message written one after the other, and the
    words of a text each followed by one space. *)
Definition flat (parts : list string) : string := foldr String.append "" parts.

Definition spaced (words : list string) : string :=
  flat (map (fun w => w +:+ " ") words).

(** [strings.Fields] on ASCII text, for running [splitMessage]: the
    white space is the six ASCII characters [unicode.IsSpace] accepts. *)
Fixpoint fieldsFrom (word : string) (s : string) : list string :=
  match s with
  | EmptyString => if String.eqb word "" then [] else [word]
  | String c r =>
      if Ascii.is_space c
      then (if String.eqb word "" then fieldsFrom "" r else word :: fieldsFrom "" r)
      else fieldsFrom (word +:+ String c "") r
  end.

Definition Fields_ascii (s : string) : list string := fieldsFrom "" s.

(** [strings.Repeat]. *)
Fixpoint Repeat (s : string) (count : nat) : string :=
  match count with
  | O => ""
  | S n => s +:+ Repeat s n
  end.

(** [a[i], a[j] = a[j], a[i]]; an index out of range panics ([None]). *)
Definition swap {A : Type} (l : list A) (i j : nat) : option (list A) :=
  match l !! i, l !! j with
  | Some x, Some y => Some (<[j := x]> (<[i := y]> l))
  | _, _ => None
  end.

(** [n] passes of the loop of [reverseOpenRouterMessages] from index
    [i] on; [length] was read before the loop. *)
Fixpoint reverseFrom {A : Type} (n i length : nat) (l : list A) : option (list A) :=
  match n with
  | O => Some l
  | S n' =>
      match swap l i (length - i - 1) with
      | Some l' => reverseFrom n' (S i) length l'
      | None => None
      end
  end.

(** [reverseOpenRouterMessages], and [reverseMessages], which is the
    same code on another message type. *)
Definition reverseOpenRouterMessages {A : Type} (messages : list A) : option (list A) :=
  reverseFrom (length messages / 2) 0 (length messages) messages.

(** [strings.Split(s, sep)] for a separator of one byte. *)
Fixpoint SplitByte (sep : ascii) (s : string) : list string :=
  match s with
  | EmptyString => [""]
  | String c r =>
      if Ascii.eqb c sep then "" :: SplitByte sep r
      else match SplitByte sep r with
           | p :: ps => String c p :: ps
           | [] => [String c ""]
           end
  end.

(** The number of bytes of [s] equal to [sep]. *)
Fixpoint countByte (sep : ascii) (s : string) : nat :=
  match s with
  | EmptyString => O
  | String c r => (if Ascii.eqb c sep then 1 else 0) + countByte sep r
  end%nat.

Definition validateOpenRouterModel (model : string) : bool :=
  Contains model "/" && (length (SplitByte "/" model) =? 2)%nat.

Definition getModelDisplayName (model : string) (isDefault : bool) : string :=
  if isDefault then model +:+ " (Default)" else model.

(** The filter of [Command] over the configured models and the default
    model it sets: the first valid one, when there is one. *)
Definition validModels (completionModels : list string) : list string :=
  List.filter validateOpenRouterModel completionModels.

Definition defaultModel (gptDefaultModel : string) (completionModels : list string) : string :=
  match validModels completionModels with
  | m :: _ => m
  | [] => gptDefaultModel
  end.

(** [extractBaseModel]: the part after the first slash, when there is
    one. *)
Definition extractBaseModel (model : string) : string :=
  if Contains model "/" then
    match SplitByte "/" model with
    | _ :: base :: _ => base
    | _ => model
    end
  else model.

Definition gptTruncateLimitGPT3Dot5Turbo0301 : Z := 3500.
Definition gptTruncateLimitGPT40314 : Z := 6500.
Definition gptTruncateLimitGPT432K0314 : Z := 30500.

(** [modelTruncateLimit]; [None] is the nil pointer. *)
Definition modelTruncateLimit (model : string) : option Z :=
  let baseModel := extractBaseModel model in
  if String.eqb baseModel "gpt-3.5-turbo" then Some gptTruncateLimitGPT3Dot5Turbo0301
  else if String.eqb baseModel "gpt-4" then Some gptTruncateLimitGPT40314
  else if String.eqb baseModel "gpt-4-32k" then Some gptTruncateLimitGPT432K0314
  else None.

(** [_tokensConfiguration]: every branch of its default case sets the
    same two values. *)
Definition _tokensConfiguration (model : string) : bool * Z * Z :=
  if String.eqb model "gpt-3.5-turbo-0301" then (true, 4, -1)
  else if String.eqb model "gpt-3.5-turbo" || String.eqb model "gpt-3.5-turbo-0613"
          || String.eqb model "gpt-3.5-turbo-16k"
          || String.eqb model "gpt-3.5-turbo-16k-0613" then (true, 3, 1)
  else if String.eqb model "gpt-4" || String.eqb model "gpt-4-0314"
          || String.eqb model "gpt-4-0613" || String.eqb model "gpt-4-32k-0314"
          || String.eqb model "gpt-4-32k-0613" then (true, 3, 1)
  else if Contains model "gpt-4" || Contains model "claude" then (true, 3, 1)
  else if Contains model "gpt-3.5" then (true, 3, 1)
  else (true, 3, 1).

(** The conversation kept for a thread: the fields the functions below
    read and write. *)
Record MessagesCacheData : Type := mkMessagesCacheData {
  Messages : list ChatCompletionMessage;
  SystemMessage : option ChatCompletionMessage;
  Model : string;
  TokenCount : Z
}.

Section Tokens.

(** The tokenizer is a library: [Encode model text] stands for the ids
    that the codec chosen for [model] ([tokenizer.ForModel], or
    [Cl100kBase] when that fails) gives for [text]. *)
Variable Encode : string -> string -> list Z.

Definition ids (enc : string -> list Z) (text : string) : Z :=
  Z.of_nat (length (enc text)).

Definition _countMessageTokens (enc : string -> list Z) (tokensPerMessage tokensPerName : Z)
  (message : ChatCompletionMessage) : Z :=
  let tokens := tokensPerMessage in
  let tokens := wrap64 (tokens + ids enc (Content message)) in
  let tokens := wrap64 (tokens + ids enc (Role message)) in
  if negb (String.eqb (Name message) "") then
    let tokens := wrap64 (tokens + tokensPerName) in
    wrap64 (tokens + ids enc (Name message))
  else tokens.

Definition countOpenRouterMessageTokens (message : ChatCompletionMessage) (model : string)
  : option Z :=
  let '(ok, tokensPerMessage, tokensPerName) :=
    _tokensConfiguration (extractBaseModel model) in
  if negb ok then None
  else Some (_countMessageTokens (Encode (extractBaseModel model))
               tokensPerMessage tokensPerName message).

Definition countAllOpenRouterMessagesTokens (systemMessage : option ChatCompletionMessage)
  (messages : list ChatCompletionMessage) (model : string) : option Z :=
  let '(ok, tokensPerMessage, tokensPerName) :=
    _tokensConfiguration (extractBaseModel model) in
  if negb ok then None
  else
    let count := _countMessageTokens (Encode (extractBaseModel model))
                   tokensPerMessage tokensPerName in
    let tokens := fold_left (fun tokens message => wrap64 (tokens + count message))
                    messages 0 in
    let tokens :=
      match systemMessage with
      | Some message => wrap64 (tokens + count message)
      | None => tokens
      end in
    Some (wrap64 (tokens + 3)).

(** The loop of [adjustMessageTokens]; [None] is the panic of
    [cacheItem.Messages[0]] on an empty slice. *)
Fixpoint adjustLoop (truncateLimit : Z) (model : string)
  (messages : list ChatCompletionMessage) (tokenCount : Z)
  : option (list ChatCompletionMessage * Z) :=
  if tokenCount >? truncateLimit then
    match messages with
    | [] => None
    | message :: rest =>
        match countOpenRouterMessageTokens message model with
        | None => Some (rest, tokenCount)
        | Some removedTokens =>
            adjustLoop truncateLimit model rest (wrap64 (tokenCount - removedTokens))
        end
    end
  else Some (messages, tokenCount).

(** [adjustMessageTokens]: the cache item as the call leaves it, [None]
    when it panics. *)
Definition adjustMessageTokens (cacheItem : MessagesCacheData) : option MessagesCacheData :=
  match modelTruncateLimit (Model cacheItem) with
  | None => Some cacheItem
  | Some truncateLimit =>
      match adjustLoop truncateLimit (Model cacheItem) (Messages cacheItem)
              (TokenCount cacheItem) with
      | Some (messages, tokenCount) =>
          Some (mkMessagesCacheData messages (SystemMessage cacheItem)
                  (Model cacheItem) tokenCount)
      | None => None
      end
  end.

(** [isCacheItemWithinTruncateLimit]: the two results and the cache item
    as the call leaves it. *)
Definition isCacheItemWithinTruncateLimit (cacheItem : MessagesCacheData)
  : bool * Z * MessagesCacheData :=
  match modelTruncateLimit (Model cacheItem) with
  | None => (true, 0, cacheItem)
  | Some truncateLimit =>
      match countAllOpenRouterMessagesTokens (SystemMessage cacheItem)
              (Messages cacheItem) (Model cacheItem) with
      | None => (true, 0, cacheItem)
      | Some tokens =>
          (tokens <=? truncateLimit, tokens,
           mkMessagesCacheData (Messages cacheItem) (SystemMessage cacheItem)
             (Model cacheItem) tokens)
      end
  end.

(** The token count left once the [j] oldest messages are gone: their
    counts taken off one by one. *)
Definition remaining (model : string) (messages : list ChatCompletionMessage)
  (tokenCount : Z) (j : nat) : Z :=
  fold_left
    (fun t m => wrap64 (t - default 0 (countOpenRouterMessageTokens m model)))
    (take j messages) tokenCount.

End Tokens.

(** A tokenizer for running the functions: one id for each byte. *)
Fixpoint Encode_bytes (text : string) : list Z :=
  match text with
  | EmptyString => []
  | String c r => Z.of_N (N_of_ascii c) :: Encode_bytes r
  end.

Record chatGPTResponse : Type := mkChatGPTResponse {
  content : string;
  usage : Usage
}.

(** How a call of [sendOpenRouterRequest] ends: with a response, with an
    error, or in the panic of [resp.Choices[0]] on a response without
    choices. *)
Inductive Sent : Type :=
  | Replied (r : chatGPTResponse)
  | Failed (err : error)
  | IndexOutOfRange.

Section Send.
Context `{go : GoLib}.

(** [json.Unmarshal] of a success body into a [ChatCompletionResponse]. *)
Variable decodeChat : string -> error + ChatCompletionResponse.

(** [sendOpenRouterRequest]: the calls on the logger, the cache item as
    the call leaves it, and how the call ends.  The temperature it
    copies into the request is one of the sampling options, which the
    client only passes on. *)
Definition sendOpenRouterRequest (client : Client) (cacheItem : MessagesCacheData)
  (x : Exchange) : list LogCall * MessagesCacheData * Sent :=
  let messages :=
    match SystemMessage cacheItem with
    | Some systemMessage => [systemMessage] ++ Messages cacheItem
    | None => Messages cacheItem
    end in
  let req := mkChatCompletionRequest (Model cacheItem) messages in
  match CreateChatCompletion zeroChatCompletionResponse decodeChat client req x with
  | (log, inl err) => (log, cacheItem, Failed err)
  | (log, inr resp) =>
      match Choices resp with
      | [] => (log, cacheItem, IndexOutOfRange)
      | choice :: _ =>
          let responseContent := Content (Choice_Message choice) in
          (log,
           mkMessagesCacheData
             (Messages cacheItem ++ [mkChatCompletionMessage "assistant" responseContent ""])
             (SystemMessage cacheItem) (Model cacheItem)
             (TotalTokens (Resp_Usage resp)),
           Replied (mkChatGPTResponse responseContent (Resp_Usage resp)))
      end
  end.

End Send.

(** A conversation of three messages for [openai/gpt-4], the oldest of
    6993 bytes, not counted yet; and the same once
    [isCacheItemWithinTruncateLimit] counted it, with one token for each
    byte. *)
Definition uncounted : MessagesCacheData :=
  {| Messages :=
       [mkChatCompletionMessage "user" (Repeat "question " 777) "";
        mkChatCompletionMessage "assistant" "answer" "";
        mkChatCompletionMessage "user" "thanks" ""];
     SystemMessage := Some (mkChatCompletionMessage "system" "be brief" "");
     Model := "openai/gpt-4";
     TokenCount := 0 |}.

Definition longConversation : MessagesCacheData :=
  (isCacheItemWithinTruncateLimit (fun _ => Encode_bytes) uncounted).2.

(** A conversation to run [sendOpenRouterRequest] on, and the decoding
    of a response whose only choice has no content. *)
Definition greeting : MessagesCacheData :=
  {| Messages := [mkChatCompletionMessage "user" "hi" ""];
     SystemMessage := Some (mkChatCompletionMessage "system" "be brief" "");
     Model := "openai/gpt-4";
     TokenCount := 0 |}.

Definition emptyReply (body : string) : error + ChatCompletionResponse :=
  inr {| Choices := [mkChatCompletionChoice 0 (mkChatCompletionMessage "assistant" "" "") "stop"];
         Resp_Usage := mkUsage 5 0 5 |}.

End Gpt.

(** ** The configuration of the bot *)

Record Config : Type := mkConfig {
  Discord_Token : string;
  Discord_Guild : string;
  Discord_RemoveCommands : bool;
  OpenRouter_APIKey : string;
  OpenRouter_BaseURL : string;
  OpenRouter_SiteURL : string;
  OpenRouter_SiteName : string;
  OpenRouter_CompletionModels : list string;
  OpenRouter_ImageModels : list string
}.

Definition withBaseURL (c : Config) (v : string) : Config :=
  mkConfig (Discord_Token c) (Discord_Guild c) (Discord_RemoveCommands c)
    (OpenRouter_APIKey c) v (OpenRouter_SiteURL c) (OpenRouter_SiteName c)
    (OpenRouter_CompletionModels c) (OpenRouter_ImageModels c).

Definition withCompletionModels (c : Config) (v : list string) : Config :=
  mkConfig (Discord_Token c) (Discord_Guild c) (Discord_RemoveCommands c)
    (OpenRouter_APIKey c) (OpenRouter_BaseURL c) (OpenRouter_SiteURL c)
    (OpenRouter_SiteName c) v (OpenRouter_ImageModels c).

Definition withImageModels (c : Config) (v : list string) : Config :=
  mkConfig (Discord_Token c) (Discord_Guild c) (Discord_RemoveCommands c)
    (OpenRouter_APIKey c) (OpenRouter_BaseURL c) (OpenRouter_SiteURL c)
    (OpenRouter_SiteName c) (OpenRouter_CompletionModels c) v.

(** The [for] loops of [Validate] over the model names: the first name
    without a slash, if any. *)
Fixpoint firstWithoutSlash (models : list string) : option string :=
  match models with
  | [] => None
  | model :: rest =>
      if negb (Contains model "/") then Some model else firstWithoutSlash rest
  end.

(** [Config.Validate]: the configuration as the call leaves it, and the
    error. *)
Definition Config_Validate (c : Config) : Config * option error :=
  if String.eqb (Discord_Token c) "" then
    (c, Some (ErrText "discord token is required"))
  else if String.eqb (OpenRouter_APIKey c) "" then
    (c, Some (ErrText "openRouter API key is required"))
  else if negb (HasPrefix (OpenRouter_APIKey c) "sk-or-v1-") then
    (c, Some (ErrText "invalid OpenRouter API key format, must start with 'sk-or-v1-'"))
  else
    let c :=
      if String.eqb (OpenRouter_BaseURL c) ""
      then withBaseURL c "https://openrouter.ai/api/v1" else c in
    if negb (HasPrefix (OpenRouter_BaseURL c) "http://")
       && negb (HasPrefix (OpenRouter_BaseURL c) "https://") then
      (c, Some (ErrText
                  "invalid OpenRouter base URL format, must start with http:// or https://"))
    else
      let c :=
        if (length (OpenRouter_CompletionModels c) =? 0)%nat
        then withCompletionModels c ["openai/gpt-3.5-turbo"] else c in
      let c :=
        if (length (OpenRouter_ImageModels c) =? 0)%nat
        then withImageModels c ["openai/dall-e-2"] else c in
      match firstWithoutSlash (OpenRouter_CompletionModels c) with
      | Some model =>
          (c, Some (ErrText ("invalid OpenRouter completion model name '" +:+ model
                             +:+ "', must include provider prefix (e.g., 'openai/gpt-4')")))
      | None =>
          match firstWithoutSlash (OpenRouter_ImageModels c) with
          | Some model =>
              (c, Some (ErrText ("invalid OpenRouter image model name '" +:+ model
                                 +:+ "', must include provider prefix (e.g., 'openai/dall-e-2')")))
          | None => (c, None)
          end
      end.

(** The client [main] builds from a validated configuration. *)
Definition clientOf (c : Config) : Client :=
  NewClientWithConfig
    {| APIKey := OpenRouter_APIKey c; BaseURL := OpenRouter_BaseURL c;
       SiteURL := OpenRouter_SiteURL c; SiteName := OpenRouter_SiteName c;
       Config_Logger := None |}.

(** ** What the logger writes of a request *)

(** [strings.Join]. *)
Fixpoint Join (elems : list string) (sep : string) : string :=
  match elems with
  | [] => ""
  | [e] => e
  | e :: rest => e +:+ sep +:+ Join rest sep
  end.

(** The [headers] map [LogRequest] builds from the header of a request
    before it writes it. *)
Definition sanitizedHeaders `{go : GoLib} (h : Header) : gmap string string :=
  map_imap (fun key values =>
              Some (if String.eqb (ToLower key) "authorization"
                    then "Bearer [REDACTED]"
                    else Join values ", ")) h.

(** [truncateString]; [None] is the panic of the slice expression
    [s[:maxLen-3]] when its bound is out of range. *)
Definition truncateString (s : string) (maxLen : Z) : option string :=
  if len s <=? maxLen then Some s
  else
    let high := wrap64 (maxLen - 3) in
    if (0 <=? high) && (high <=? len s)
    then Some (substring 0 (Z.to_nat high) s +:+ "...")
    else None.

(** ** Readings of a run of the executor *)

(** Whether the executor goes on after an invocation with this result,
    attempts permitting: a failure, other than an [OpenRouterError]
    marked as not retryable. *)
Definition retried (r : option error) : bool :=
  match r with
  | None => false
  | Some err =>
      match asOpenRouterError err with
      | Some orErr => IsRetryable orErr
      | None => true
      end
  end.

(** The delay the server suggested with a failure, when it is an
    [OpenRouterError] with a positive [RetryAfter]. *)
Definition suggested (r : option error) : option Duration :=
  match r with
  | Some err =>
      match asOpenRouterError err with
      | Some orErr => if RetryAfter orErr >? 0 then Some (RetryAfter orErr) else None
      | None => None
      end
  | None => None
  end.

(** The result of the last invocation of a trace, [r] when it has none. *)
Fixpoint lastCall (r : option error) (tr : list Event) : option error :=
  match tr with
  | [] => r
  | EvCall r' :: rest => lastCall r' rest
  | _ :: rest => lastCall r rest
  end.

(** The waits of a trace, each with the result of the invocation before
    it ([r] before the first invocation). *)
Fixpoint waitsAfter (r : option error) (tr : list Event)
  : list (option error * WaitKind * Duration) :=
  match tr with
  | [] => []
  | EvCall r' :: rest => waitsAfter r' rest
  | EvWait kind delay _ :: rest => (r, kind, delay) :: waitsAfter r rest
  | EvLog _ :: rest => waitsAfter r rest
  end.

(** A wait that comes after a failure and is of the kind the failure
    asks for: the delay the server suggested when there is one, else a
    backoff. *)
Definition waitChosen (x : option error * WaitKind * Duration) : Prop :=
  let '(r, kind, delay) := x in
  retried r = true
  ∧ match suggested r with
    | Some d => kind = ServerSuggested ∧ delay = d
    | None => kind = Backoff
    end.

(** * Properties *)

(** ** Runs of the repository's tests *)

Example TestWithRetry_Success :
  option_map (fun o => (ret o, invocations (trace o)))
    (Sim.run (Sim.retryable 0) (Some 3)
       (Some (Sim.config 5 (1 * Millisecond) (10 * Millisecond))) None)
  = Some (None, 3).
Proof. vm_compute. reflexivity. Qed.

Example TestWithRetry_NonRetryableError :
  option_map (fun o => (ret o, invocations (trace o)))
    (Sim.run Sim.nonRetryable None
       (Some (Sim.config 3 (1 * Millisecond) (10 * Millisecond))) None)
  = Some (Some Sim.nonRetryable, 1).
Proof. vm_compute. reflexivity. Qed.

Example TestWithRetry_MaxRetriesExceeded :
  option_map (fun o => (ret o, invocations (trace o)))
    (Sim.run (Sim.retryable 0) None
       (Some (Sim.config 2 (1 * Millisecond) (10 * Millisecond))) None)
  = Some (Some (Sim.retryable 0), 3).
Proof. vm_compute. reflexivity. Qed.

Example TestWithRetry_ContextCancellation :
  option_map (fun o => (ret o, invocations (trace o)))
    (Sim.run (Sim.retryable 0) None
       (Some (Sim.config 5 (100 * Millisecond) (1 * Second)))
       (Some (50 * Millisecond, CauseDeadline)))
  = Some (Some DeadlineExceeded, 1).
Proof. vm_compute. reflexivity. Qed.

Example TestWithRetry_RetryAfter :
  option_map (fun o => (ret o, invocations (trace o), Sim.now (world o)))
    (Sim.run (Sim.retryable (10 * Millisecond)) (Some 2)
       (Some (Sim.config 3 (100 * Millisecond) (1 * Second))) None)
  = Some (None, 2, 10 * Millisecond).
Proof. vm_compute. reflexivity. Qed.

Example TestParseError_json :
  ParseError (go := Ref.lib) (mkResponse 400 ∅)
    (Ref.quoted "{'error':{'code':'invalid_request_error','message':'Invalid model specified','type':'invalid_request_error'}}")
  = {| StatusCode := 400; ErrorCode := "invalid_request_error";
       ErrorType := "invalid_request_error"; Message := "Invalid model specified";
       UserMessage := "Invalid request. Please check your input parameters.";
       IsRetryable := false; RetryAfter := 0; OriginalErr := None |}.
Proof. vm_compute. reflexivity. Qed.

Example TestParseError_plain_text :
  ParseError (go := Ref.lib) (mkResponse 502 ∅) "Bad Gateway"
  = {| StatusCode := 502; ErrorCode := ""; ErrorType := ""; Message := "Bad Gateway";
       UserMessage := "OpenRouter gateway error. Please try again in a few moments.";
       IsRetryable := true; RetryAfter := 0; OriginalErr := None |}.
Proof. vm_compute. reflexivity. Qed.

Example TestParseError_empty_body :
  ParseError (go := Ref.lib) (mkResponse 503 ∅) ""
  = {| StatusCode := 503; ErrorCode := ""; ErrorType := "";
       Message := "Service Unavailable";
       UserMessage :=
         "OpenRouter service is temporarily unavailable. Please try again later.";
       IsRetryable := true; RetryAfter := 30 * Second; OriginalErr := None |}.
Proof. vm_compute. reflexivity. Qed.

(** ** The Error Classifier *)

Section ClassifierFacts.
Context `{go : GoLib}.

(** Where the status table leaves a non-zero [retryAfter], the status is
    429 or 503 and the verdict is retryable. *)
Lemma statusTable_retryAfter statusCode errorCode headers :
  (statusTable statusCode errorCode headers).2 = 0
  ∨ ((statusCode = 429 ∨ statusCode = 503)
     ∧ (statusTable statusCode errorCode headers).1.1 = true).
Proof.
  unfold statusTable.
  destruct (statusCode =? 401); [left; reflexivity|].
  destruct (statusCode =? 403); [left; reflexivity|].
  destruct (statusCode =? 404); [left; reflexivity|].
  destruct (statusCode =? 429) eqn:E429.
  { right. split; [left; lia | reflexivity]. }
  destruct (statusCode =? 400); [left; reflexivity|].
  destruct (statusCode =? 500); [left; reflexivity|].
  destruct (statusCode =? 502); [left; reflexivity|].
  destruct (statusCode =? 503) eqn:E503.
  { right. split; [right; lia | reflexivity]. }
  destruct (statusCode =? 504); [left; reflexivity|].
  destruct (statusCode >=? 500); [left; reflexivity|].
  destruct (statusCode >=? 400); left; reflexivity.
Qed.

(** The row of the table for 429. *)
Lemma statusTable_429 errorCode headers :
  statusTable 429 errorCode headers =
  (true, "Rate limit exceeded. Please wait a moment before trying again.",
   match Atoi (Header_Get headers "Retry-After") with
   | Some seconds =>
       if wrap64 (seconds * Second) =? 0 then 60 * Second
       else wrap64 (seconds * Second)
   | None => 60 * Second
   end).
Proof.
  unfold statusTable. cbn [Z.eqb Pos.eqb].
  destruct (String.eqb_spec (Header_Get headers "Retry-After") "") as [-> | _].
  - reflexivity.
  - destruct (Atoi (Header_Get headers "Retry-After")); reflexivity.
Qed.

(** Without a matching error type the override pass changes nothing. *)
Lemma errorTypeOverride_none errorType v :
  ToLower errorType ≠ "insufficient_quota" →
  ToLower errorType ≠ "model_overloaded" →
  ToLower errorType ≠ "model_unavailable" →
  errorTypeOverride errorType v = v.
Proof.
  intros H1 H2 H3. unfold errorTypeOverride. destruct v as [[r m] a].
  destruct (String.eqb_spec (ToLower errorType) "insufficient_quota"); [done|].
  destruct (String.eqb_spec (ToLower errorType) "model_overloaded"); [done|].
  destruct (String.eqb_spec (ToLower errorType) "model_unavailable"); done.
Qed.

(** C6.  The override pass on the lower-cased error type wins over the
    status table, whatever the status code, the error code and the
    headers: [insufficient_quota] gives a non-retryable verdict with the
    quota message, [model_overloaded] a retryable one with the overload
    message and a delay of 30s, [model_unavailable] a retryable one with
    the unavailable message and a delay of 60s. *)
Theorem errorType_override_wins statusCode errorCode errorType headers :
  (ToLower errorType = "insufficient_quota" →
   (categorizeError statusCode errorCode errorType headers).1 =
   (false, "Insufficient quota. Please check your OpenRouter account limits."))
  ∧ (ToLower errorType = "model_overloaded" →
     categorizeError statusCode errorCode errorType headers =
     (true, "The AI model is currently overloaded. Please try again in a few moments.",
      30 * Second))
  ∧ (ToLower errorType = "model_unavailable" →
     categorizeError statusCode errorCode errorType headers =
     (true,
      "The AI model is temporarily unavailable. Please try a different model or wait a few moments.",
      60 * Second)).
Proof.
  unfold categorizeError, errorTypeOverride.
  destruct (statusTable statusCode errorCode headers) as [[r m] a].
  repeat split; intros ->; reflexivity.
Qed.

(** A positive [retryAfter] comes with a retryable verdict, the quota
    override on a 429 or 503 status apart. *)
Lemma categorizeError_retryAfter statusCode errorCode errorType headers :
  ToLower errorType ≠ "insufficient_quota" ∨ (statusCode ≠ 429 ∧ statusCode ≠ 503) →
  (categorizeError statusCode errorCode errorType headers).2 > 0 →
  (categorizeError statusCode errorCode errorType headers).1.1 = true.
Proof.
  intros Hside. unfold categorizeError, errorTypeOverride.
  pose proof (statusTable_retryAfter statusCode errorCode headers) as Ht.
  destruct (statusTable statusCode errorCode headers) as [[r m] a]. simpl in Ht.
  destruct (String.eqb_spec (ToLower errorType) "insufficient_quota") as [Eq | _].
  - simpl. intros Ha. destruct Ht as [-> | [Hs _]]; [lia|].
    destruct Hside as [Hne | [H429 H503]]; [done|]. destruct Hs; done.
  - destruct (String.eqb_spec (ToLower errorType) "model_overloaded"); [done|].
    destruct (String.eqb_spec (ToLower errorType) "model_unavailable"); [done|].
    simpl. intros Ha. destruct Ht as [-> | [_ Hr]]; [lia | done].
Qed.

(** [ParseError] copies the status and hands the classifier the code and
    type it stored. *)
Lemma ParseError_classified resp body :
  let e := ParseError resp body in
  StatusCode e = resp_StatusCode resp
  ∧ (IsRetryable e, UserMessage e, RetryAfter e) =
    categorizeError (resp_StatusCode resp) (ErrorCode e) (ErrorType e) (resp_Header resp).
Proof.
  unfold ParseError.
  destruct (Unmarshal body) as [errorResp|];
    [destruct (negb (Detail_Message (Detail errorResp) =? "")%string)|];
    match goal with
    | |- context [categorizeError ?s ?c ?t ?h] =>
        destruct (categorizeError s c t h) as [[r m] a] eqn:E
    end; simpl; rewrite ?E; split; reflexivity.
Qed.

(** C1, as amended.  For every input of the classifier, and so for every
    error [ParseError] builds, a positive [retryAfter] comes with
    [isRetryable = true], unless the lower-cased error type is
    [insufficient_quota] on a 429 or 503 status. *)
Theorem retryAfter_implies_retryable :
  (∀ statusCode errorCode errorType headers,
     ToLower errorType ≠ "insufficient_quota" ∨ (statusCode ≠ 429 ∧ statusCode ≠ 503) →
     (categorizeError statusCode errorCode errorType headers).2 > 0 →
     (categorizeError statusCode errorCode errorType headers).1.1 = true)
  ∧ (∀ resp body,
       let e := ParseError resp body in
       ToLower (ErrorType e) ≠ "insufficient_quota"
       ∨ (StatusCode e ≠ 429 ∧ StatusCode e ≠ 503) →
       RetryAfter e > 0 → IsRetryable e = true).
Proof.
  split; [apply categorizeError_retryAfter|].
  intros resp body e Hside Ha.
  destruct (ParseError_classified resp body) as [Hs Hc]. fold e in Hs, Hc.
  rewrite Hs in Hside.
  pose proof (categorizeError_retryAfter _ (ErrorCode e) _ (resp_Header resp) Hside) as Hr.
  rewrite <- Hc in Hr. simpl in Hr. auto.
Qed.

(** C7, as amended.  On a 429 status, when the lower-cased error type is
    none of the three override types, the verdict is retryable with the
    rate-limit message, and [retryAfter] is the duration of the
    [Retry-After] header (its integer seconds times 10^9 nanoseconds in
    64-bit arithmetic) when the header is there, reads as an integer and
    that duration is not zero, and 60s otherwise.  In particular the
    header value 60 gives 60s, and so does a missing header. *)
Theorem rate_limit_retryAfter errorCode errorType headers :
  ToLower errorType ≠ "insufficient_quota" →
  ToLower errorType ≠ "model_overloaded" →
  ToLower errorType ≠ "model_unavailable" →
  categorizeError 429 errorCode errorType headers =
  (true, "Rate limit exceeded. Please wait a moment before trying again.",
   match Atoi (Header_Get headers "Retry-After") with
   | Some seconds =>
       if wrap64 (seconds * Second) =? 0 then 60 * Second
       else wrap64 (seconds * Second)
   | None => 60 * Second
   end)
  ∧ (∀ seconds, Atoi (Header_Get headers "Retry-After") = Some seconds →
       seconds ≠ 0 → minInt64 ≤ seconds * Second ≤ maxInt64 →
       (categorizeError 429 errorCode errorType headers).2 = seconds * Second)
  ∧ (Header_Get headers "Retry-After" = "60" →
     (categorizeError 429 errorCode errorType headers).2 = 60 * Second)
  ∧ (headers !! "Retry-After" = None →
     (categorizeError 429 errorCode errorType headers).2 = 60 * Second).
Proof.
  intros H1 H2 H3. unfold categorizeError.
  rewrite errorTypeOverride_none by assumption. rewrite statusTable_429.
  split; [reflexivity|]. cbn [snd]. split; [|split].
  - intros seconds -> Hnz Hrange.
    assert (wrap64 (seconds * Second) = seconds * Second) as ->.
    { unfold wrap64, minInt64, maxInt64 in *.
      rewrite Z.mod_small by lia. lia. }
    destruct (Z.eqb_spec (seconds * Second) 0) as [E | _]; [|reflexivity].
    unfold Second in E. lia.
  - intros ->. reflexivity.
  - intros Hmiss. unfold Header_Get. rewrite Hmiss. reflexivity.
Qed.

End ClassifierFacts.

(** C1, the claim as stated fails: a 503 with the error type
    [insufficient_quota] is classified as not retryable while the 30s of
    the table stay in [retryAfter]; and [ParseError] builds such an
    error from a 429 response with [Retry-After: 60]. *)
Lemma retryAfter_without_retryable :
  categorizeError (go := Ref.lib) 503 "" "insufficient_quota" ∅ =
  (false, "Insufficient quota. Please check your OpenRouter account limits.", 30 * Second)
  ∧ 30 * Second > 0
  ∧ (let e :=
       ParseError (go := Ref.lib)
         (mkResponse 429 (Header_Set ∅ "Retry-After" "60"))
         (Ref.quoted "{'error':{'code':'quota','message':'Quota used up','type':'insufficient_quota'}}") in
     RetryAfter e = 60 * Second ∧ IsRetryable e = false).
Proof. vm_compute. repeat split; reflexivity. Qed.

(** C1: the amended statement at a 503 response with an overloaded model. *)
Lemma retryAfter_implies_retryable_witness :
  let e :=
    ParseError (go := Ref.lib) (mkResponse 503 ∅)
      (Ref.quoted "{'error':{'code':'busy','message':'Busy','type':'model_overloaded'}}") in
  (ToLower (GoLib := Ref.lib) (ErrorType e) ≠ "insufficient_quota"
   ∨ (StatusCode e ≠ 429 ∧ StatusCode e ≠ 503))
  ∧ RetryAfter e > 0 ∧ IsRetryable e = true.
Proof.
  intros e.
  assert (Hside : ToLower (GoLib := Ref.lib) (ErrorType e) ≠ "insufficient_quota"
                  ∨ (StatusCode e ≠ 429 ∧ StatusCode e ≠ 503)).
  { left. vm_compute. discriminate. }
  assert (Ha : RetryAfter e > 0) by (vm_compute; reflexivity).
  split; [exact Hside|]. split; [exact Ha|].
  exact (proj2 (retryAfter_implies_retryable (go := Ref.lib)) _ _ Hside Ha).
Defined.

(** C6 at a 403 whose error type is written in capitals. *)
Lemma errorType_override_wins_witness :
  ToLower (GoLib := Ref.lib) "MODEL_OVERLOADED" = "model_overloaded"
  ∧ categorizeError (go := Ref.lib) 403 "insufficient_credits" "MODEL_OVERLOADED" ∅ =
    (true, "The AI model is currently overloaded. Please try again in a few moments.",
     30 * Second).
Proof.
  assert (Hl : ToLower (GoLib := Ref.lib) "MODEL_OVERLOADED" = "model_overloaded")
    by (vm_compute; reflexivity).
  split; [exact Hl|].
  exact (proj1 (proj2 (errorType_override_wins (go := Ref.lib) 403
                         "insufficient_credits" "MODEL_OVERLOADED" ∅)) Hl).
Defined.

(** C7, the claim as stated fails: the header [Retry-After: 0] is
    present and reads as the integer 0, and the delay is 60s; and a 429
    whose error type is [insufficient_quota] is not retryable. *)
Lemma rate_limit_zero_header_and_quota :
  Atoi "0" = Some 0
  ∧ categorizeError (go := Ref.lib) 429 "" "" (Header_Set ∅ "Retry-After" "0") =
    (true, "Rate limit exceeded. Please wait a moment before trying again.", 60 * Second)
  ∧ (categorizeError (go := Ref.lib) 429 "" "insufficient_quota" ∅).1.1 = false.
Proof. vm_compute. repeat split; reflexivity. Qed.

(** C7: the amended statement at the header [Retry-After: 120]. *)
Lemma rate_limit_retryAfter_witness :
  (ToLower (GoLib := Ref.lib) "rate_limit_exceeded" ≠ "insufficient_quota"
   ∧ ToLower (GoLib := Ref.lib) "rate_limit_exceeded" ≠ "model_overloaded"
   ∧ ToLower (GoLib := Ref.lib) "rate_limit_exceeded" ≠ "model_unavailable")
  ∧ (categorizeError (go := Ref.lib) 429 "rate_limit_exceeded" "rate_limit_exceeded"
       (Header_Set ∅ "Retry-After" "120")).2 = 120 * Second.
Proof.
  assert (H1 : ToLower (GoLib := Ref.lib) "rate_limit_exceeded" ≠ "insufficient_quota")
    by (vm_compute; discriminate).
  assert (H2 : ToLower (GoLib := Ref.lib) "rate_limit_exceeded" ≠ "model_overloaded")
    by (vm_compute; discriminate).
  assert (H3 : ToLower (GoLib := Ref.lib) "rate_limit_exceeded" ≠ "model_unavailable")
    by (vm_compute; discriminate).
  split; [auto|].
  apply (proj1 (proj2 (rate_limit_retryAfter (go := Ref.lib) "rate_limit_exceeded"
                         "rate_limit_exceeded" (Header_Set ∅ "Retry-After" "120")
                         H1 H2 H3)) 120).
  - vm_compute. reflexivity.
  - lia.
  - vm_compute. split; discriminate.
Defined.

(** ** The backoff delay *)

(** *** Every value of the computation is a [float64] *)

Lemma valid_mul x y :
  valid_binary prec emax x = true → valid_binary prec emax y = true →
  valid_binary prec emax (SFmul prec emax x y) = true.
Proof.
  intros Hx Hy.
  rewrite <- (FloatAxioms.Prim2SF_SF2Prim x Hx), <- (FloatAxioms.Prim2SF_SF2Prim y Hy).
  change (SFmul prec emax) with FloatAxioms.SF64mul.
  rewrite <- FloatAxioms.mul_spec. apply FloatAxioms.Prim2SF_valid.
Qed.

Lemma valid_of_nonneg z :
  0 ≤ z < 2 ^ 63 → valid_binary prec emax (float64_of_int z) = true.
Proof.
  intros Hz. unfold float64_of_int.
  assert (E : Uint63.to_Z (Uint63.of_Z z) = z).
  { rewrite Uint63.of_Z_spec. apply Z.mod_small. exact Hz. }
  rewrite <- E.
  change (binary_normalize prec emax (Uint63.to_Z (Uint63.of_Z z)) 0 false)
    with (binary_normalize FloatOps.prec FloatOps.emax (Uint63.to_Z (Uint63.of_Z z)) 0 false).
  rewrite <- FloatAxioms.of_uint63_spec. apply FloatAxioms.Prim2SF_valid.
Qed.

Lemma valid_round_sign s s' m e l :
  valid_binary prec emax (binary_round_aux prec emax s m e l)
  = valid_binary prec emax (binary_round_aux prec emax s' m e l).
Proof.
  unfold binary_round_aux.
  destruct (shr_fexp prec emax m e l) as [mrs' e'].
  destruct (shr_fexp prec emax _ e' loc_Exact) as [mrs'' e''].
  destruct (shr_m mrs''); [reflexivity | | reflexivity].
  destruct (e'' <=? emax - prec); reflexivity.
Qed.

Lemma valid_of_int z :
  minInt64 ≤ z ≤ maxInt64 → valid_binary prec emax (float64_of_int z) = true.
Proof.
  unfold minInt64, maxInt64. intros Hz. destruct z as [|p|p].
  - reflexivity.
  - apply valid_of_nonneg. lia.
  - destruct (Z.eq_dec (Z.neg p) (- 2 ^ 63)) as [E | NE].
    { rewrite E. vm_compute. reflexivity. }
    pose proof (valid_of_nonneg (Z.pos p) ltac:(lia)) as H.
    unfold float64_of_int, binary_normalize, binary_round in *.
    destruct (shl_align p 0 _) as [mz ez].
    rewrite (valid_round_sign true false). exact H.
Qed.

(** *** The order of the non-negative [float64] *)

Lemma digits2_pos_bounds m :
  2 ^ (Z.pos (digits2_pos m) - 1) ≤ Z.pos m < 2 ^ Z.pos (digits2_pos m).
Proof.
  induction m as [p IH | p IH |]; cbn [digits2_pos].
  - rewrite Pos2Z.inj_succ, Z.pow_succ_r by lia.
    replace (Z.succ (Z.pos (digits2_pos p)) - 1)
      with (Z.succ (Z.pos (digits2_pos p) - 1)) by lia.
    rewrite Z.pow_succ_r by lia. lia.
  - rewrite Pos2Z.inj_succ, Z.pow_succ_r by lia.
    replace (Z.succ (Z.pos (digits2_pos p)) - 1)
      with (Z.succ (Z.pos (digits2_pos p) - 1)) by lia.
    rewrite Z.pow_succ_r by lia. lia.
  - cbn. lia.
Qed.

(** A mantissa has at most 53 bits, and exactly 53 above the smallest
    exponent. *)
Lemma bounded_canonical m e :
  bounded prec emax m e = true →
  -1074 ≤ e ≤ 971 ∧ Z.pos m < 2 ^ 53 ∧ (-1074 < e → 2 ^ 52 ≤ Z.pos m).
Proof.
  unfold bounded, canonical_mantissa, fexp, emin, prec, emax.
  intros [Hc He]%andb_true_iff.
  apply Z.eqb_eq in Hc. apply Z.leb_le in He.
  pose proof (digits2_pos_bounds m) as [Hlo Hhi].
  set (d := Z.pos (digits2_pos m)) in *.
  assert (Hd : d ≤ 53) by lia.
  split; [lia | split].
  - eapply Z.lt_le_trans; [exact Hhi |]. apply Z.pow_le_mono_r; lia.
  - intros Hlt. assert (d = 53) as -> by lia. exact Hlo.
Qed.

Lemma rank_finite_lt m1 e1 m2 e2 :
  bounded prec emax m1 e1 = true → bounded prec emax m2 e2 = true →
  e1 < e2 → Z.pos m1 * 2 ^ (e1 + 1074) < Z.pos m2 * 2 ^ (e2 + 1074).
Proof.
  intros (He1 & Hm1 & _)%bounded_canonical (He2 & _ & Hm2)%bounded_canonical Hlt.
  specialize (Hm2 ltac:(lia)).
  replace (e2 + 1074) with ((e2 - e1 - 1) + 1 + (e1 + 1074)) by lia.
  rewrite (Z.pow_add_r 2 (e2 - e1 - 1 + 1)), (Z.pow_add_r 2 (e2 - e1 - 1) 1) by lia.
  assert (0 < 2 ^ (e1 + 1074)) by (apply Z.pow_pos_nonneg; lia).
  assert (1 ≤ 2 ^ (e2 - e1 - 1)) by (apply (Z.pow_le_mono_r 2 0); lia).
  change (2 ^ 1) with 2. change (2 ^ 53) with (2 * 2 ^ 52) in Hm1.
  set (c := 2 ^ 52) in *. assert (0 < c) by (subst c; lia).
  set (P := 2 ^ (e1 + 1074)) in *. set (Q := 2 ^ (e2 - e1 - 1)) in *.
  apply Z.lt_le_trans with (2 * c * P).
  - apply Z.mul_lt_mono_pos_r; assumption.
  - assert (c * 1 ≤ Z.pos m2 * Q) by (apply Z.mul_le_mono_nonneg; lia).
    replace (Z.pos m2 * (Q * 2 * P)) with (2 * (Z.pos m2 * Q) * P) by ring.
    apply Z.mul_le_mono_nonneg_r; lia.
Qed.

(** The comparison of [float64] is the comparison of the ranks. *)
Lemma SFcompare_rank x y :
  valid_binary prec emax x = true → valid_binary prec emax y = true →
  nonneg x = true → nonneg y = true →
  SFcompare x y = Some (rank x ?= rank y).
Proof.
  assert (Htop : ∀ m e, bounded prec emax m e = true →
            0 < Z.pos m * 2 ^ (e - emin prec emax) < 2 ^ (emax - emin prec emax)).
  { intros m e (He & Hm & _)%bounded_canonical.
    change (emin prec emax) with (-1074). change emax with 1024.
    replace (1024 - -1074) with (53 + (971 - e) + (e - -1074)) by lia.
    rewrite (Z.pow_add_r 2 (53 + (971 - e))), (Z.pow_add_r 2 53) by lia.
    assert (0 < 2 ^ (e - -1074)) by (apply Z.pow_pos_nonneg; lia).
    assert (1 ≤ 2 ^ (971 - e)) by (apply (Z.pow_le_mono_r 2 0); lia).
    set (P := 2 ^ (e - -1074)) in *. set (Q := 2 ^ (971 - e)) in *.
    set (c := 2 ^ 53) in *. assert (0 < c) by (subst c; lia).
    split; [lia |].
    apply Z.lt_le_trans with (c * P).
    - apply Z.mul_lt_mono_pos_r; assumption.
    - assert (c * 1 ≤ c * Q) by (apply Z.mul_le_mono_nonneg; lia).
      apply Z.mul_le_mono_nonneg_r; lia. }
  assert (HT : 0 < 2 ^ (emax - emin prec emax)) by (vm_compute; reflexivity).
  intros Hx Hy Nx Ny.
  destruct x as [sx | [] | | [] mx ex]; try discriminate Nx;
  destruct y as [sy | [] | | [] my ey]; try discriminate Ny;
    cbn [SFcompare rank valid_binary] in *; try reflexivity;
    try (f_equal; symmetry;
         try pose proof (Htop _ _ Hx); try pose proof (Htop _ _ Hy);
         first [ apply Z.compare_lt_iff; lia | apply Z.compare_gt_iff; lia ]).
  f_equal. change (emin prec emax) with (-1074).
  replace (ex - -1074) with (ex + 1074) by lia.
  replace (ey - -1074) with (ey + 1074) by lia.
  destruct (Z.compare_spec ex ey) as [-> | Hlt | Hgt].
  - pose proof (bounded_canonical _ _ Hy) as (He & _).
    assert (0 < 2 ^ (ey + 1074)) by (apply Z.pow_pos_nonneg; lia).
    change (Pos.compare_cont Eq mx my) with (Z.pos mx ?= Z.pos my).
    destruct (Z.compare_spec (Z.pos mx) (Z.pos my)) as [E | L | G]; symmetry.
    + apply Z.compare_eq_iff. rewrite E. reflexivity.
    + apply Z.compare_lt_iff. apply Z.mul_lt_mono_pos_r; assumption.
    + apply Z.compare_gt_iff. apply Z.mul_lt_mono_pos_r; assumption.
  - symmetry. apply Z.compare_lt_iff. apply rank_finite_lt; assumption.
  - symmetry. apply Z.compare_gt_iff. apply rank_finite_lt; assumption.
Qed.

Lemma rank_nonneg x : 0 ≤ rank x.
Proof.
  destruct x as [s | [] | | [] m e]; cbn [rank];
    first [ lia
          | apply Z.pow_nonneg; lia
          | apply Z.mul_nonneg_nonneg; [lia | apply Z.pow_nonneg; lia] ].
Qed.

(** The integer part is the whole number of units [2^1074] ranks. *)
Lemma truncate_rank x :
  valid_binary prec emax x = true → nonneg x = true →
  ∀ z, truncate x = Some z → z = rank x / 2 ^ 1074.
Proof.
  intros Hx Nx z. destruct x as [s | [] | | [] m e]; try discriminate Nx;
    cbn [truncate rank]; intros [= <-]; try reflexivity.
  cbn [valid_binary] in Hx. apply bounded_canonical in Hx as (He & _).
  change (emin prec emax) with (-1074).
  destruct (Z.leb_spec 0 e) as [H0 | H0].
  - replace (e - -1074) with (e + 1074) by lia.
    rewrite Z.pow_add_r, Z.mul_assoc by lia.
    symmetry. apply Z.div_mul. lia.
  - replace (2 ^ 1074) with (2 ^ (- e) * 2 ^ (e - -1074))
      by (rewrite <- Z.pow_add_r by lia; f_equal; lia).
    symmetry. apply Z.div_mul_cancel_r.
    + apply Z.pow_nonzero; lia.
    + apply Z.pow_nonzero; lia.
Qed.

Lemma truncate_nonneg_mono x y zx zy :
  valid_binary prec emax x = true → valid_binary prec emax y = true →
  nonneg x = true → nonneg y = true →
  truncate x = Some zx → truncate y = Some zy →
  rank x ≤ rank y → 0 ≤ zx ≤ zy.
Proof.
  intros Vx Vy Nx Ny Hx Hy Hle.
  rewrite (truncate_rank x Vx Nx zx Hx), (truncate_rank y Vy Ny zy Hy).
  split.
  - apply Z.div_pos; [apply rank_nonneg | lia].
  - apply Z.div_le_mono; [lia | exact Hle].
Qed.

Lemma nonneg_spec x : SFleb (S754_zero false) x = true → nonneg x = true.
Proof. destruct x as [s | [] | | [] m e]; cbn; congruence. Qed.

Lemma SFleb_nonneg x y :
  nonneg x = true → SFleb x y = true → nonneg y = true.
Proof.
  destruct x as [sx | [] | | [] mx ex]; try discriminate;
  destruct y as [sy | [] | | [] my ey]; cbn; congruence.
Qed.

(** When the comparison of the code holds, given an exact [MaxDelay]. *)
Lemma capped_iff fmax p z :
  valid_binary prec emax fmax = true → valid_binary prec emax p = true →
  truncate fmax = Some z → nonneg p = true →
  SFltb fmax p = true ↔ nonneg fmax = false ∨ rank fmax < rank p.
Proof.
  intros Vm Vp Hm Np. destruct (nonneg fmax) eqn:Nm.
  - unfold SFltb. rewrite (SFcompare_rank fmax p Vm Vp Nm Np).
    destruct (Z.compare_spec (rank fmax) (rank p)); split;
      try discriminate; try lia; try (intros [? | ?]; [discriminate | lia]);
      intros _; try reflexivity; right; lia.
  - split; [intros _; left; reflexivity | intros _].
    destruct fmax as [s | [] | | [] mm em]; try discriminate;
      destruct p as [sp | [] | | [] mp ep]; try discriminate; reflexivity.
Qed.

Section BackoffFacts.
Context `{gf : GoFloat}.

Lemma product_float64 attempt config :
  minInt64 ≤ BaseDelay config ≤ maxInt64 →
  valid_binary prec emax (product attempt config) = true.
Proof.
  intros Hb. apply valid_mul; [apply valid_of_int; exact Hb | apply Pow_float64].
Qed.

Lemma int64_of_float64_truncate x z :
  truncate x = Some z → minInt64 ≤ z ≤ maxInt64 → int64_of_float64 x = z.
Proof.
  intros Hx [Hlo Hhi]. unfold int64_of_float64. rewrite Hx.
  apply Z.leb_le in Hlo, Hhi. rewrite Hlo, Hhi. reflexivity.
Qed.

Lemma calculateDelay_product attempt config rnd :
  JitterEnabled config = false →
  calculateDelay attempt config rnd =
  int64_of_float64
    (if SFltb (float64_of_int (MaxDelay config)) (product attempt config)
     then float64_of_int (MaxDelay config)
     else product attempt config).
Proof. intros Hj. unfold calculateDelay, product. rewrite Hj. reflexivity. Qed.

Lemma calculateDelay_capped attempt config rnd :
  JitterEnabled config = false →
  minInt64 ≤ MaxDelay config ≤ maxInt64 →
  truncate (float64_of_int (MaxDelay config)) = Some (MaxDelay config) →
  SFltb (float64_of_int (MaxDelay config)) (product attempt config) = true →
  calculateDelay attempt config rnd = MaxDelay config.
Proof.
  intros Hj Hr Hm Hc. rewrite (calculateDelay_product _ _ _ Hj), Hc.
  apply int64_of_float64_truncate; assumption.
Qed.

Lemma calculateDelay_uncapped attempt config rnd :
  JitterEnabled config = false →
  minInt64 ≤ BaseDelay config ≤ maxInt64 →
  minInt64 ≤ MaxDelay config ≤ maxInt64 →
  truncate (float64_of_int (MaxDelay config)) = Some (MaxDelay config) →
  nonneg (product attempt config) = true →
  SFltb (float64_of_int (MaxDelay config)) (product attempt config) = false →
  truncate (product attempt config) = Some (calculateDelay attempt config rnd)
  ∧ 0 ≤ calculateDelay attempt config rnd ≤ MaxDelay config
  ∧ nonneg (float64_of_int (MaxDelay config)) = true
  ∧ rank (product attempt config) ≤ rank (float64_of_int (MaxDelay config)).
Proof.
  intros Hj Hb Hr Hm Np Hc.
  pose proof (product_float64 attempt config Hb) as Vp.
  pose proof (valid_of_int _ Hr) as Vm.
  rewrite (calculateDelay_product _ _ _ Hj), Hc.
  set (p := product attempt config) in *.
  set (fmax := float64_of_int (MaxDelay config)) in *.
  assert (Hnot : ¬ (nonneg fmax = false ∨ rank fmax < rank p)).
  { intros H. apply (capped_iff fmax p _ Vm Vp Hm Np) in H. congruence. }
  assert (Nm : nonneg fmax = true) by (destruct (nonneg fmax); tauto).
  assert (Hle : rank p ≤ rank fmax) by lia.
  assert (Hz : ∃ z, truncate p = Some z).
  { destruct p as [sp | [] | | sp mp ep]; try discriminate Np; cbn [truncate]; eauto.
    exfalso. destruct fmax as [s | [] | | [] mm em]; discriminate. }
  destruct Hz as [z Hz].
  pose proof (truncate_nonneg_mono p fmax z _ Vp Vm Np Nm Hz Hm Hle) as Hzle.
  rewrite (int64_of_float64_truncate p z Hz) by (unfold minInt64 in *; lia).
  auto.
Qed.

(** C8, amended.  With jitter disabled, for a configuration whose
    [MaxDelay] is a [float64] exactly and an attempt at which the product
    [float64(BaseDelay) * math.Pow(BackoffFactor, float64(attempt))] is a
    number not below zero: the delay never exceeds [MaxDelay]; it is
    [MaxDelay] when the product is above [float64(MaxDelay)] and the
    integer part of the product otherwise; it is [min(P, MaxDelay)] when
    the product is the integer [P] exactly; and it is not above the delay
    of any attempt whose product is not smaller.  With [BaseDelay] 100ms,
    [BackoffFactor] 2 and [MaxDelay] 1s the delays of the attempts 0..5
    are 100ms, 200ms, 400ms, 800ms, 1s, 1s, [math.Pow(2, n)] being [2^n]
    for these [n]. *)
Theorem backoff_delay_without_jitter :
  (∀ attempt config rnd,
     JitterEnabled config = false →
     minInt64 ≤ BaseDelay config ≤ maxInt64 →
     minInt64 ≤ MaxDelay config ≤ maxInt64 →
     truncate (float64_of_int (MaxDelay config)) = Some (MaxDelay config) →
     SFleb (S754_zero false) (product attempt config) = true →
     calculateDelay attempt config rnd ≤ MaxDelay config
     ∧ (if SFltb (float64_of_int (MaxDelay config)) (product attempt config)
        then calculateDelay attempt config rnd = MaxDelay config
        else truncate (product attempt config)
             = Some (calculateDelay attempt config rnd))
     ∧ (∀ P, product attempt config = float64_of_int P →
             truncate (float64_of_int P) = Some P →
             calculateDelay attempt config rnd = Z.min P (MaxDelay config))
     ∧ (∀ other,
          SFleb (product attempt config) (product other config) = true →
          calculateDelay attempt config rnd ≤ calculateDelay other config rnd))
  ∧ (∀ rnd,
       (∀ n, 0 ≤ n ≤ 5 →
             Pow float64_2 (float64_of_int n) = float64_of_int (2 ^ n)) →
       map (fun n => calculateDelay n (Sim.config 5 (100 * Millisecond) (1 * Second)) rnd)
         [0; 1; 2; 3; 4; 5]
       = [100 * Millisecond; 200 * Millisecond; 400 * Millisecond;
          800 * Millisecond; 1 * Second; 1 * Second]).
Proof.
  split.
  - intros attempt config rnd Hj Hb Hr Hm Hp.
    apply nonneg_spec in Hp as Np.
    pose proof (product_float64 attempt config Hb) as Vp.
    pose proof (valid_of_int _ Hr) as Vm.
    destruct (SFltb (float64_of_int (MaxDelay config)) (product attempt config))
      eqn:Hc.
    + pose proof (calculateDelay_capped attempt config rnd Hj Hr Hm Hc) as Hd.
      rewrite Hd. split; [lia | split; [reflexivity | split]].
      * intros P HP HtP. rewrite HP in *.
        apply (capped_iff _ _ _ Vm Vp Hm Np) in Hc.
        destruct (nonneg (float64_of_int (MaxDelay config))) eqn:Nm.
        -- destruct Hc as [? | Hlt]; [discriminate |].
           pose proof (truncate_nonneg_mono _ _ _ _ Vm Vp Nm Np Hm HtP ltac:(lia)).
           lia.
        -- assert (0 ≤ P).
           { rewrite (truncate_rank _ Vp Np P HtP).
             apply Z.div_pos; [apply rank_nonneg | lia]. }
           assert (MaxDelay config ≤ 0); [| lia].
           destruct (float64_of_int (MaxDelay config)) as [s | [] | | [] mm em];
             try discriminate; cbn [truncate] in Hm; injection Hm as <-.
           destruct (0 <=? em).
           ++ assert (0 ≤ 2 ^ em) by (apply Z.pow_nonneg; lia). nia.
           ++ assert (0 ≤ Z.pos mm / 2 ^ (- em)); [| lia].
              apply Z_div_nonneg_nonneg; [lia | apply Z.pow_nonneg; lia].
      * intros other Hle.
        pose proof (SFleb_nonneg _ _ Np Hle) as No.
        pose proof (product_float64 other config Hb) as Vo.
        assert (Hrk : rank (product attempt config) ≤ rank (product other config)).
        { unfold SFleb in Hle. rewrite (SFcompare_rank _ _ Vp Vo Np No) in Hle.
          destruct (Z.compare_spec (rank (product attempt config))
                      (rank (product other config))); try discriminate; lia. }
        assert (Hco : SFltb (float64_of_int (MaxDelay config))
                        (product other config) = true).
        { apply (capped_iff _ _ _ Vm Vo Hm No).
          apply (capped_iff _ _ _ Vm Vp Hm Np) in Hc.
          destruct Hc; [left | right]; [assumption | lia]. }
        rewrite (calculateDelay_capped other config rnd Hj Hr Hm Hco). lia.
    + destruct (calculateDelay_uncapped attempt config rnd Hj Hb Hr Hm Np Hc)
        as (Ht & Hz & Nm & Hrk).
      split; [lia | split; [exact Ht | split]].
      * intros P HP HtP. rewrite HP in *. rewrite HtP in Ht.
        injection Ht as HPd. lia.
      * intros other Hle.
        pose proof (SFleb_nonneg _ _ Np Hle) as No.
        pose proof (product_float64 other config Hb) as Vo.
        destruct (SFltb (float64_of_int (MaxDelay config)) (product other config))
          eqn:Hco.
        -- rewrite (calculateDelay_capped other config rnd Hj Hr Hm Hco). lia.
        -- destruct (calculateDelay_uncapped other config rnd Hj Hb Hr Hm No Hco)
             as (Hto & _ & _ & _).
           unfold SFleb in Hle. rewrite (SFcompare_rank _ _ Vp Vo Np No) in Hle.
           apply (truncate_nonneg_mono _ _ _ _ Vp Vo Np No Ht Hto).
           destruct (Z.compare_spec (rank (product attempt config))
                       (rank (product other config))); try discriminate; lia.
  - intros rnd Hpow. cbn [map]. unfold calculateDelay.
    cbn [BackoffFactor BaseDelay MaxDelay JitterEnabled Sim.config].
    rewrite !Hpow by lia. vm_compute. reflexivity.
Qed.

End BackoffFacts.

(** C8, the claim as stated fails.  [BaseDelay = MaxDelay = 2^53 + 3] ns
    is not a [float64]: the conversion rounds it to [2^53 + 4], the
    product with [math.Pow(2, 0) = 1] is not above the converted
    [MaxDelay], and the delay of attempt 0 is [2^53 + 4] ns, above
    [MaxDelay] and not the minimum.  And with [BaseDelay = 3] ns and
    [MaxDelay] the largest [int64], which converts to [2^63], the product
    [3 * 2^62] of attempt 62 is capped to [2^63], outside [int64]: on
    amd64 the delay falls from [3 * 2^61] ns at attempt 61 to the
    smallest [int64]. *)
Lemma backoff_delay_exceeds_MaxDelay :
  let config := Sim.config 3 (2 ^ 53 + 3) (2 ^ 53 + 3) in
  let delay := calculateDelay (gf := RefFloat.amd64) 0 config (S754_zero false) in
  let overflow := Sim.config 62 3 maxInt64 in
  let delays n := calculateDelay (gf := RefFloat.amd64) n overflow (S754_zero false) in
  (0 ≤ BaseDelay config
   ∧ SFleb float64_1 (BackoffFactor config) = true
   ∧ JitterEnabled config = false
   ∧ RefFloat.Pow float64_2 (float64_of_int 0) = float64_1
   ∧ truncate (float64_of_int (MaxDelay config)) = Some (2 ^ 53 + 4)
   ∧ delay = 2 ^ 53 + 4
   ∧ delay ≠ Z.min (BaseDelay config * 2 ^ 0) (MaxDelay config)
   ∧ ¬ delay ≤ MaxDelay config)
  ∧ (RefFloat.Pow float64_2 (float64_of_int 62) = float64_of_int (2 ^ 62)
     ∧ truncate (float64_of_int (MaxDelay overflow)) = Some (2 ^ 63)
     ∧ delays 61 = 3 * 2 ^ 61
     ∧ delays 62 = minInt64
     ∧ ¬ delays 61 ≤ delays 62).
Proof.
  intros config delay overflow delays.
  assert (Hd : delay = 2 ^ 53 + 4) by (vm_compute; reflexivity).
  assert (H61 : delays 61 = 3 * 2 ^ 61) by (vm_compute; reflexivity).
  assert (H62 : delays 62 = minInt64) by (vm_compute; reflexivity).
  rewrite Hd, H61, H62. unfold minInt64.
  repeat split;
    first [ vm_compute; reflexivity
          | unfold config; cbn [BaseDelay MaxDelay Sim.config]; lia ].
Qed.

(** C8: the amended statement on the configuration of
    [TestCalculateDelay], at attempt 3 and over the attempts 0..5. *)
Lemma backoff_delay_without_jitter_witness :
  let config := Sim.config 5 (100 * Millisecond) (1 * Second) in
  let delay n := calculateDelay (gf := RefFloat.amd64) n config (S754_zero false) in
  (JitterEnabled config = false
   ∧ truncate (float64_of_int (MaxDelay config)) = Some (MaxDelay config)
   ∧ SFleb (S754_zero false) (product (gf := RefFloat.amd64) 3 config) = true
   ∧ SFleb (product (gf := RefFloat.amd64) 3 config)
       (product (gf := RefFloat.amd64) 4 config) = true)
  ∧ delay 3 ≤ 1 * Second
  ∧ truncate (product (gf := RefFloat.amd64) 3 config) = Some (delay 3)
  ∧ delay 3 = Z.min (100 * Millisecond * 2 ^ 3) (1 * Second)
  ∧ delay 3 ≤ delay 4
  ∧ map delay [0; 1; 2; 3; 4; 5]
    = [100 * Millisecond; 200 * Millisecond; 400 * Millisecond;
       800 * Millisecond; 1 * Second; 1 * Second].
Proof.
  intros config delay.
  assert (Hj : JitterEnabled config = false) by reflexivity.
  assert (Hm : truncate (float64_of_int (MaxDelay config)) = Some (MaxDelay config))
    by (vm_compute; reflexivity).
  assert (Hp : SFleb (S754_zero false) (product (gf := RefFloat.amd64) 3 config) = true)
    by (vm_compute; reflexivity).
  assert (Hle : SFleb (product (gf := RefFloat.amd64) 3 config)
                  (product (gf := RefFloat.amd64) 4 config) = true)
    by (vm_compute; reflexivity).
  assert (Hb : minInt64 ≤ BaseDelay config ≤ maxInt64)
    by (vm_compute; split; discriminate).
  assert (Hr : minInt64 ≤ MaxDelay config ≤ maxInt64)
    by (vm_compute; split; discriminate).
  destruct (backoff_delay_without_jitter (gf := RefFloat.amd64)) as [Hdelay Hexample].
  destruct (Hdelay 3 config (S754_zero false) Hj Hb Hr Hm Hp)
    as (Hcap & Hval & Hmin & Hmono).
  assert (Hc : SFltb (float64_of_int (MaxDelay config))
                 (product (gf := RefFloat.amd64) 3 config) = false)
    by (vm_compute; reflexivity).
  rewrite Hc in Hval.
  split; [auto |].
  split; [exact Hcap |].
  split; [exact Hval |].
  split; [apply (Hmin (100 * Millisecond * 2 ^ 3)); vm_compute; reflexivity |].
  split; [exact (Hmono 4 Hle) |].
  apply Hexample. intros n Hn.
  assert (n = 0 ∨ n = 1 ∨ n = 2 ∨ n = 3 ∨ n = 4 ∨ n = 5) as Hcases by lia.
  destruct Hcases as [-> | [-> | [-> | [-> | [-> | ->]]]]]; vm_compute; reflexivity.
Defined.

(** ** The Retry Executor *)

Lemma calls_app tr1 tr2 : calls (tr1 ++ tr2) = calls tr1 ++ calls tr2.
Proof.
  induction tr1 as [|ev tr1 IH]; [reflexivity|].
  destruct ev; simpl; rewrite IH; reflexivity.
Qed.

Lemma calls_logged logger l : calls (logged logger l) = [].
Proof. destruct logger; reflexivity. Qed.

Lemma undisturbed_app tr1 tr2 :
  undisturbed tr1 → undisturbed tr2 → undisturbed (tr1 ++ tr2).
Proof. unfold undisturbed. intros. apply Forall_app. auto. Qed.

Lemma undisturbed_logged logger l : undisturbed (logged logger l).
Proof. destruct logger; repeat constructor. Qed.

Section RetryFacts.
Context {World : Type}.
Variable fn : World → option error * World.
Variable wait : Duration → World → option Cause * World.
Variable calculateDelay : Z → RetryConfig → World → Duration * World.

Abbreviation pass := (iteration fn wait calculateDelay).
Abbreviation loop := (retryLoop fn wait calculateDelay).
Abbreviation run := (WithRetry fn wait calculateDelay).
Abbreviation select := (selectWait wait).

(** *** One wait *)

Lemma selectWait_cases kind delay lastErr tr w :
  (∃ w', select kind delay lastErr tr w =
         (Continue lastErr, tr ++ [EvWait kind delay None], w')
         ∧ wait delay w = (None, w'))
  ∨ (∃ c w', select kind delay lastErr tr w =
             (Return (Some (ctxErr c)), tr ++ [EvWait kind delay (Some c)], w')
             ∧ wait delay w = (Some c, w')).
Proof.
  unfold selectWait. destruct (wait delay w) as [[c|] w'].
  - right. exists c, w'. split; reflexivity.
  - left. exists w'. split; reflexivity.
Qed.

(** *** One pass through the loop body *)

(** A pass at the last attempt ends the loop. *)
Lemma iteration_last config logger attempt tr w lastErr tr' w' :
  pass config logger attempt tr w = (Continue lastErr, tr', w') →
  attempt ≠ MaxRetries config.
Proof.
  unfold iteration. destruct (fn w) as [[err|] w1]; [|discriminate].
  destruct (Z.eqb_spec attempt (MaxRetries config)); [discriminate | auto].
Qed.

(** What a pass adds to the trace: one invocation first, always; then
    either nothing disturbed, or a disturbed wait at the very end, with
    the cancellation condition as the value returned. *)
Lemma iteration_trace config logger attempt tr w s tr' w' :
  pass config logger attempt tr w = (s, tr', w') →
  ∃ added, tr' = tr ++ EvCall (fn w).1 :: added
    ∧ calls added = []
    ∧ (undisturbed added
       ∨ ∃ front kind delay c,
           added = front ++ [EvWait kind delay (Some c)]
           ∧ undisturbed front ∧ s = Return (Some (ctxErr c))).
Proof.
  unfold iteration, backoff.
  destruct (fn w) as [[err|] w1]; simpl.
  2: { intros [= <- <- <-]. exists []. split; [reflexivity|].
       split; [reflexivity | left; constructor]. }
  destruct (attempt =? MaxRetries config).
  { intros [= <- <- <-]. exists []. split; [reflexivity|].
    split; [reflexivity | left; constructor]. }
  assert (Hwait : ∀ kind delay pre w0,
    calls pre = [] → undisturbed pre →
    select kind delay (Some err) ((tr ++ [EvCall (Some err)]) ++ pre) w0 = (s, tr', w') →
    ∃ added, tr' = tr ++ EvCall (Some err) :: added
      ∧ calls added = []
      ∧ (undisturbed added
         ∨ ∃ front kind delay c,
             added = front ++ [EvWait kind delay (Some c)]
             ∧ undisturbed front ∧ s = Return (Some (ctxErr c)))).
  { intros kind delay pre w0 Hc Hu Hs.
    destruct (selectWait_cases kind delay (Some err)
                ((tr ++ [EvCall (Some err)]) ++ pre) w0)
      as [(w2 & E & _) | (c & w2 & E & _)];
      rewrite E in Hs; injection Hs as <- <- <-.
    - exists (pre ++ [EvWait kind delay None]).
      split; [rewrite <- !app_assoc; reflexivity|].
      split; [rewrite calls_app, Hc; reflexivity|].
      left. apply undisturbed_app; [assumption | repeat constructor].
    - exists (pre ++ [EvWait kind delay (Some c)]).
      split; [rewrite <- !app_assoc; reflexivity|].
      split; [rewrite calls_app, Hc; reflexivity|].
      right. exists pre, kind, delay, c. auto. }
  destruct (asOpenRouterError err) as [orErr|].
  - destruct (IsRetryable orErr); simpl.
    2: { intros [= <- <- <-]. exists []. split; [reflexivity|].
         split; [reflexivity | left; constructor]. }
    set (rate := if StatusCode orErr =? 429
                 then logged logger (LogRateLimitHit (RetryAfter orErr)) else []).
    assert (Hrc : calls rate = []).
    { subst rate. destruct (StatusCode orErr =? 429); [apply calls_logged | reflexivity]. }
    assert (Hru : undisturbed rate).
    { subst rate. destruct (StatusCode orErr =? 429);
        [apply undisturbed_logged | constructor]. }
    destruct (RetryAfter orErr >? 0).
    + rewrite <- app_assoc. apply Hwait.
      * rewrite calls_app, Hrc, calls_logged. reflexivity.
      * apply undisturbed_app; [assumption | apply undisturbed_logged].
    + destruct (calculateDelay attempt config w1) as [delay w2].
      rewrite <- app_assoc. apply Hwait.
      * rewrite calls_app, Hrc, calls_logged. reflexivity.
      * apply undisturbed_app; [assumption | apply undisturbed_logged].
  - destruct (calculateDelay attempt config w1) as [delay w2].
    apply Hwait; [apply calls_logged | apply undisturbed_logged].
Qed.

(** A pass that the loop continues after disturbed no wait and kept the
    failure of its invocation as [lastErr]. *)
Lemma iteration_continue config logger attempt tr w lastErr tr' w' :
  pass config logger attempt tr w = (Continue lastErr, tr', w') →
  ∃ added, tr' = tr ++ EvCall (fn w).1 :: added
    ∧ calls added = [] ∧ undisturbed added.
Proof.
  intros Hit. destruct (iteration_trace _ _ _ _ _ _ _ _ Hit)
    as (added & -> & Hc & [Hu | (front & kind & delay & c & _ & _ & Hs)]).
  - exists added. auto.
  - discriminate.
Qed.

(** A retryable failure before the last attempt, with no cancellation,
    leads to the next pass. *)
Lemma iteration_retry config logger attempt tr w e w1 :
  fn w = (Some (ErrOpenRouter e), w1) →
  IsRetryable e = true →
  attempt ≠ MaxRetries config →
  neverDone wait →
  ∃ tr' w', pass config logger attempt tr w = (Continue (Some (ErrOpenRouter e)), tr', w')
    ∧ calls tr' = calls tr ++ [Some (ErrOpenRouter e)].
Proof.
  intros Hfn Hre Hne Hnd.
  assert (Hc : ∃ tr' w',
    pass config logger attempt tr w = (Continue (Some (ErrOpenRouter e)), tr', w')).
  { unfold iteration, backoff. rewrite Hfn.
    destruct (Z.eqb_spec attempt (MaxRetries config)); [done|].
    cbn [asOpenRouterError]. rewrite Hre. cbn [negb].
    assert (Hsel : ∀ kind delay tr0 w0, ∃ tr' w',
      select kind delay (Some (ErrOpenRouter e)) tr0 w0 =
      (Continue (Some (ErrOpenRouter e)), tr', w')).
    { intros kind delay tr0 w0.
      destruct (selectWait_cases kind delay (Some (ErrOpenRouter e)) tr0 w0)
        as [(w2 & E & _) | (c & w2 & _ & E)].
      - eauto.
      - specialize (Hnd delay w0). rewrite E in Hnd. discriminate. }
    destruct (RetryAfter e >? 0); [apply Hsel|].
    destruct (calculateDelay attempt config w1) as [delay w2]. apply Hsel. }
  destruct Hc as (tr' & w' & Hit). exists tr', w'. split; [exact Hit|].
  destruct (iteration_continue _ _ _ _ _ _ _ _ Hit) as (added & -> & Hca & _).
  rewrite Hfn. rewrite calls_app. simpl. rewrite Hca. reflexivity.
Qed.

(** *** The loop *)

(** The fuel [WithRetry] gives is enough. *)
Lemma retryLoop_returns fuel config logger attempt lastErr tr w :
  (0 < fuel)%nat →
  MaxRetries config - attempt + 1 ≤ Z.of_nat fuel →
  ∃ o, loop fuel config logger attempt lastErr tr w = Some o.
Proof.
  revert attempt lastErr tr w.
  induction fuel as [|fuel IH]; intros attempt lastErr tr w Hpos Hfuel; [lia|].
  cbn [retryLoop].
  destruct (Z.leb_spec attempt (MaxRetries config)); [|eauto].
  destruct (pass config logger attempt tr w) as [[[err|lastErr'] tr'] w'] eqn:Hit;
    [eauto|].
  apply iteration_last in Hit. apply IH; lia.
Qed.

(** [WithRetry] returns, whatever the operation, the context and the
    policy are. *)
Lemma WithRetry_returns config logger w : ∃ o, run config logger w = Some o.
Proof. unfold WithRetry. apply retryLoop_returns; lia. Qed.

Lemma retryLoop_cancel fuel config logger attempt lastErr tr w o :
  undisturbed tr →
  loop fuel config logger attempt lastErr tr w = Some o →
  undisturbed (trace o)
  ∨ ∃ front kind delay c,
      trace o = front ++ [EvWait kind delay (Some c)]
      ∧ undisturbed front ∧ ret o = Some (ctxErr c).
Proof.
  revert attempt lastErr tr w.
  induction fuel as [|fuel IH]; intros attempt lastErr tr w Hu; [discriminate|].
  cbn [retryLoop].
  destruct (attempt <=? MaxRetries config).
  2: { intros [= <-]. left. exact Hu. }
  destruct (pass config logger attempt tr w) as [[s tr'] w'] eqn:Hit.
  destruct (iteration_trace _ _ _ _ _ _ _ _ Hit)
    as (added & -> & _ & [Hau | (front & kind & delay & c & -> & Hfu & ->)]).
  - assert (undisturbed (tr ++ EvCall (fn w).1 :: added)).
    { apply undisturbed_app; [exact Hu | constructor; [reflexivity | exact Hau]]. }
    destruct s as [err|lastErr'].
    + intros [= <-]. left. assumption.
    + apply IH. assumption.
  - intros [= <-]. right.
    exists (tr ++ EvCall (fn w).1 :: front), kind, delay, c. cbn [trace ret].
    split; [rewrite <- app_assoc; reflexivity|].
    split; [|reflexivity].
    apply undisturbed_app; [exact Hu | constructor; [reflexivity | exact Hfu]].
Qed.

Lemma retryLoop_always_fails config logger n :
  alwaysRetryable fn → neverDone wait →
  ∀ fuel attempt lastErr tr w,
    MaxRetries config - attempt = Z.of_nat n → (n < fuel)%nat →
    ∃ o, loop fuel config logger attempt lastErr tr w = Some o
      ∧ length (calls (trace o)) = (length (calls tr) + S n)%nat
      ∧ last (calls (trace o)) = Some (ret o)
      ∧ ∃ e, ret o = Some (ErrOpenRouter e) ∧ IsRetryable e = true.
Proof.
  intros Hfail Hnd.
  induction n as [|n IH]; intros fuel attempt lastErr tr w Hn Hfuel;
    (destruct fuel as [|fuel]; [lia|]); cbn [retryLoop];
    (destruct (Z.leb_spec attempt (MaxRetries config)); [|lia]);
    destruct (Hfail w) as (e & w1 & Hfn & Hre).
  - unfold iteration. rewrite Hfn.
    destruct (Z.eqb_spec attempt (MaxRetries config)); [|lia].
    eexists. split; [reflexivity|]. cbn [trace ret].
    rewrite calls_app. cbn [calls]. rewrite length_app, last_snoc. cbn [length].
    split; [reflexivity|]. split; [reflexivity|]. eauto.
  - destruct (iteration_retry config logger attempt tr w e w1 Hfn Hre ltac:(lia) Hnd)
      as (tr' & w' & -> & Hcalls).
    destruct (IH fuel (attempt + 1) (Some (ErrOpenRouter e)) tr' w' ltac:(lia) ltac:(lia))
      as (o & Hloop & Hlen & Hlast & Hret).
    exists o. split; [exact Hloop|]. split; [|auto].
    rewrite Hlen, Hcalls, length_app. cbn [length]. lia.
Qed.

(** *** The trace is what happened *)

Abbreviation did := (performed fn wait calculateDelay).

Lemma performed_app config a w tr1 w1 tr2 w2 :
  did config a w tr1 w1 →
  did config (a + waits tr1) w1 tr2 w2 →
  did config a w (tr1 ++ tr2) w2.
Proof.
  intros H1. induction H1 as [a w | a w r w1 tr w' Hfn _ IH | a w l tr w' _ IH
                              | a w d done w1 tr w' Hw _ IH
                              | a w d w0 done w1 tr w' Hd Hw _ IH];
    cbn [waits app]; intros H2.
  - rewrite Z.add_0_r in H2. exact H2.
  - eapply performed_call; [exact Hfn | apply IH, H2].
  - apply performed_log, IH, H2.
  - eapply performed_suggested; [exact Hw|]. apply IH.
    replace (a + 1 + waits tr) with (a + (1 + waits tr)) by lia. exact H2.
  - eapply performed_backoff; [exact Hd | exact Hw|]. apply IH.
    replace (a + 1 + waits tr) with (a + (1 + waits tr)) by lia. exact H2.
Qed.

Lemma waits_app tr1 tr2 : waits (tr1 ++ tr2) = waits tr1 + waits tr2.
Proof.
  induction tr1 as [|ev tr1 IH]; [reflexivity|].
  destruct ev; cbn [waits app]; rewrite ?IH; lia.
Qed.

Lemma performed_logged config logger l a w tr w' :
  did config a w tr w' → did config a w (logged logger l ++ tr) w'.
Proof. intros H. destruct logger; [apply performed_log|]; exact H. Qed.

Lemma waits_logged logger l tr : waits (logged logger l ++ tr) = waits tr.
Proof. destruct logger; reflexivity. Qed.

(** What one pass adds to the trace is what it did: the invocation, and
    the wait when there is one; a pass the loop goes on after made
    exactly one wait. *)
Lemma iteration_performed config logger attempt tr w s tr' w' :
  pass config logger attempt tr w = (s, tr', w') →
  ∃ added, tr' = tr ++ added
    ∧ did config attempt w added w'
    ∧ ∀ lastErr, s = Continue lastErr → waits added = 1.
Proof.
  unfold iteration, backoff.
  destruct (fn w) as [[err|] w1] eqn:Hfn.
  2: { intros [= <- <- <-]. exists [EvCall None]. split; [reflexivity|].
       split; [|discriminate]. eapply performed_call; [exact Hfn | constructor]. }
  assert (Hstop : ∀ r, (Return r, tr ++ [EvCall (Some err)], w1) = (s, tr', w') →
    ∃ added, tr' = tr ++ added ∧ did config attempt w added w'
      ∧ ∀ lastErr, s = Continue lastErr → waits added = 1).
  { intros r [= <- <- <-]. exists [EvCall (Some err)]. split; [reflexivity|].
    split; [|discriminate]. eapply performed_call; [exact Hfn | constructor]. }
  destruct (attempt =? MaxRetries config); [apply Hstop|].
  assert (Hwait : ∀ kind delay pre w0,
    (∀ w2 done, wait delay w0 = (done, w2) →
       did config attempt w1 (pre ++ [EvWait kind delay done]) w2) →
    waits pre = 0 →
    select kind delay (Some err) ((tr ++ [EvCall (Some err)]) ++ pre) w0 = (s, tr', w') →
    ∃ added, tr' = tr ++ added ∧ did config attempt w added w'
      ∧ ∀ lastErr, s = Continue lastErr → waits added = 1).
  { intros kind delay pre w0 Hdid Hpre. unfold selectWait.
    destruct (wait delay w0) as [done w2] eqn:Hw. intros [= <- <- <-].
    exists (EvCall (Some err) :: pre ++ [EvWait kind delay done]).
    split; [rewrite <- !app_assoc; reflexivity|]. split.
    - eapply performed_call; [exact Hfn | apply Hdid; reflexivity].
    - intros _ _. cbn [waits]. rewrite waits_app, Hpre. reflexivity. }
  destruct (asOpenRouterError err) as [orErr|].
  - destruct (IsRetryable orErr); cbn [negb]; [|apply Hstop].
    set (rate := if StatusCode orErr =? 429
                 then logged logger (LogRateLimitHit (RetryAfter orErr)) else []).
    assert (Hrate : ∀ a w0 tr0 w2, did config a w0 tr0 w2 → did config a w0 (rate ++ tr0) w2).
    { intros a w0 tr0 w2 H. subst rate.
      destruct (StatusCode orErr =? 429); [apply performed_logged|]; exact H. }
    assert (Hrw : ∀ tr0, waits (rate ++ tr0) = waits tr0).
    { intros tr0. subst rate.
      destruct (StatusCode orErr =? 429); [apply waits_logged | reflexivity]. }
    destruct (RetryAfter orErr >? 0).
    + rewrite <- app_assoc. apply Hwait.
      * intros w2 done Hw. rewrite <- app_assoc. apply Hrate, performed_logged.
        eapply performed_suggested; [exact Hw | constructor].
      * rewrite Hrw. destruct logger; reflexivity.
    + destruct (calculateDelay attempt config w1) as [delay w0] eqn:Hd.
      rewrite <- app_assoc. apply Hwait.
      * intros w2 done Hw. rewrite <- app_assoc. apply Hrate, performed_logged.
        eapply performed_backoff; [exact Hd | exact Hw | constructor].
      * rewrite Hrw. destruct logger; reflexivity.
  - destruct (calculateDelay attempt config w1) as [delay w0] eqn:Hd.
    apply Hwait.
    + intros w2 done Hw. apply performed_logged.
      eapply performed_backoff; [exact Hd | exact Hw | constructor].
    + destruct logger; reflexivity.
Qed.

Lemma retryLoop_performed config logger a0 w0 : ∀ fuel attempt lastErr tr w o,
  loop fuel config logger attempt lastErr tr w = Some o →
  did config a0 w0 tr w →
  attempt = a0 + waits tr →
  did config a0 w0 (trace o) (world o).
Proof.
  induction fuel as [|fuel IH]; intros attempt lastErr tr w o; [discriminate|].
  cbn [retryLoop]. destruct (attempt <=? MaxRetries config).
  2: { intros [= <-] H _. exact H. }
  destruct (pass config logger attempt tr w) as [[s tr'] w'] eqn:Hit.
  destruct (iteration_performed _ _ _ _ _ _ _ _ Hit) as (added & -> & Hadd & Hone).
  intros Hloop Htr Ha.
  assert (Hall : did config a0 w0 (tr ++ added) w').
  { eapply performed_app; [exact Htr|]. rewrite <- Ha. exact Hadd. }
  destruct s as [err|lastErr'].
  - injection Hloop as <-. exact Hall.
  - eapply IH; [exact Hloop | exact Hall|].
    rewrite waits_app, (Hone _ eq_refl). lia.
Qed.

(** Every run of [WithRetry] did what its trace says, from the world it
    was started in to the world it returns. *)
Lemma WithRetry_performed config logger w o :
  run config logger w = Some o →
  did (resolve config) 0 w (trace o) (world o).
Proof.
  intros Hrun. eapply retryLoop_performed; [exact Hrun | constructor | reflexivity].
Qed.

(** A run that really ended with a wait ended in the world that wait
    left. *)
Lemma performed_last_wait config tr : ∀ a w kind delay done w',
  did config a w (tr ++ [EvWait kind delay done]) w' →
  ∃ w0, wait delay w0 = (done, w').
Proof.
  induction tr as [|ev tr IH]; intros a w kind delay done w' H.
  - inversion H as [| | | ? ? ? ? ? ? ? Hw Hrest | ? ? ? ? ? ? ? ? Hd Hw Hrest]; subst;
      inversion Hrest; subst; eauto.
  - inversion H; subst; eauto.
Qed.

(** *** The claims on the executor *)

(** C4.  With [MaxRetries >= 0], an operation that fails on every
    invocation with a retryable [OpenRouterError], and a context that
    never ends a wait, [WithRetry] invokes the operation exactly
    [1 + MaxRetries] times and returns the failure of the last
    invocation.  The invocations are those of the operation in the
    world: the trace that holds them is what the run did from the world
    [w] it was started in to the world it returns. *)
Theorem always_failing_uses_all_attempts config logger w :
  0 ≤ MaxRetries (resolve config) →
  alwaysRetryable fn →
  neverDone wait →
  ∃ o, run config logger w = Some o
    ∧ did (resolve config) 0 w (trace o) (world o)
    ∧ invocations (trace o) = 1 + MaxRetries (resolve config)
    ∧ last (calls (trace o)) = Some (ret o)
    ∧ ∃ e, ret o = Some (ErrOpenRouter e) ∧ IsRetryable e = true.
Proof.
  intros Hmax Hfail Hnd.
  destruct (retryLoop_always_fails (resolve config) logger
              (Z.to_nat (MaxRetries (resolve config))) Hfail Hnd
              (S (Z.to_nat (MaxRetries (resolve config)))) 0 None [] w
              ltac:(lia) ltac:(lia))
    as (o & Hloop & Hlen & Hlast & Hret).
  exists o. split; [exact Hloop|].
  split; [apply (WithRetry_performed config logger), Hloop|].
  split; [|auto].
  unfold invocations. rewrite Hlen. cbn [calls length]. lia.
Qed.

(** C5.  In every run of [WithRetry], a wait that the context ends,
    be it the wait for the delay the server suggested or the wait for
    the computed backoff, is the last thing the run does: the operation
    is not invoked again and the value returned is the cancellation
    condition [ctx.Err()], in place of the failure of the operation.
    The waits are those of the world: the trace is what the run did
    from the world [w] on, the cause returned is the one the [select]
    of that wait gave, and the world returned is the one it left. *)
Theorem cancellation_aborts_wait config logger w :
  ∃ o, run config logger w = Some o
    ∧ did (resolve config) 0 w (trace o) (world o)
    ∧ ∀ kind delay c,
        EvWait kind delay (Some c) ∈ trace o →
        ret o = Some (ctxErr c)
        ∧ (∃ front, trace o = front ++ [EvWait kind delay (Some c)]
                    ∧ undisturbed front)
        ∧ ∃ w0, wait delay w0 = (Some c, world o).
Proof.
  destruct (WithRetry_returns config logger w) as [o Hrun].
  exists o. split; [exact Hrun|].
  pose proof (WithRetry_performed config logger w o Hrun) as Hdid.
  split; [exact Hdid|]. intros kind delay c Hin.
  unfold WithRetry in Hrun.
  apply retryLoop_cancel in Hrun; [|constructor].
  destruct Hrun as [Hu | (front & kind' & delay' & c' & Htr & Hfu & Hret)].
  - unfold undisturbed in Hu. rewrite Forall_forall in Hu.
    specialize (Hu _ Hin). discriminate.
  - rewrite Htr in Hin. apply elem_of_app in Hin as [Hin | Hin].
    + unfold undisturbed in Hfu. rewrite Forall_forall in Hfu.
      specialize (Hfu _ Hin). discriminate.
    + apply list_elem_of_singleton in Hin. injection Hin as -> -> ->.
      split; [exact Hret|]. split; [exists front; auto|].
      rewrite Htr in Hdid. exact (performed_last_wait _ _ _ _ _ _ _ _ Hdid).
Qed.

(** C9, as amended.  With [MaxRetries >= 0], when the first invocation
    fails with an [OpenRouterError] that is not retryable, the whole run
    is that one invocation: the error is returned, nothing is waited
    for, and the operation is not invoked again. *)
Theorem non_retryable_returns_at_once config logger w e w1 :
  0 ≤ MaxRetries (resolve config) →
  fn w = (Some (ErrOpenRouter e), w1) →
  IsRetryable e = false →
  run config logger w =
  Some {| ret := Some (ErrOpenRouter e);
          trace := [EvCall (Some (ErrOpenRouter e))];
          world := w1 |}.
Proof.
  intros Hmax Hfn Hre. unfold WithRetry. cbn [retryLoop].
  destruct (Z.leb_spec 0 (MaxRetries (resolve config))); [|lia].
  unfold iteration. rewrite Hfn. cbn [asOpenRouterError]. rewrite Hre.
  destruct (0 =? MaxRetries (resolve config)); reflexivity.
Qed.

(** C10.  With a configuration whose [MaxRetries] is negative the body
    of the loop never runs: the operation is not invoked and [WithRetry]
    returns nil. *)
Theorem negative_MaxRetries_returns_nil config logger w :
  MaxRetries config < 0 →
  run (Some config) logger w = Some {| ret := None; trace := []; world := w |}.
Proof.
  intros Hneg. unfold WithRetry. cbn [retryLoop resolve].
  destruct (Z.leb_spec 0 (MaxRetries config)); [lia | reflexivity].
Qed.

End RetryFacts.

(** C4 on the closure of [TestWithRetry_MaxRetriesExceeded]: the
    counter the closure keeps in the world stands at 3 when the run
    returns. *)
Lemma always_failing_uses_all_attempts_witness :
  ∃ o, WithRetry (Sim.fn (Sim.retryable 0) None) Sim.sleep Sim.doubling
         (Some (Sim.config 2 (1 * Millisecond) (10 * Millisecond))) None
         (Sim.start None) = Some o
    ∧ invocations (trace o) = 3
    ∧ ret o = Some (Sim.retryable 0)
    ∧ Sim.callCount (world o) = 3.
Proof.
  destruct (always_failing_uses_all_attempts
              (Sim.fn (Sim.retryable 0) None) Sim.sleep Sim.doubling
              (Some (Sim.config 2 (1 * Millisecond) (10 * Millisecond))) None
              (Sim.start None))
    as (o & Hrun & _ & Hinv & Hlast & _).
  - cbn. lia.
  - intros w. eexists _, _. split; reflexivity.
  - intros d w. reflexivity.
  - exists o. split; [exact Hrun|]. split; [exact Hinv|].
    vm_compute in Hrun. injection Hrun as <-. split; reflexivity.
Defined.

(** C5 on the run of [TestWithRetry_ContextCancellation]: the deadline
    falls into the first backoff wait, and the run returns at the
    deadline, 50ms into a wait of 100ms, after one invocation. *)
Lemma cancellation_aborts_wait_witness :
  ∃ o, Sim.run (Sim.retryable 0) None
         (Some (Sim.config 5 (100 * Millisecond) (1 * Second)))
         (Some (50 * Millisecond, CauseDeadline)) = Some o
    ∧ EvWait Backoff (100 * Millisecond) (Some CauseDeadline) ∈ trace o
    ∧ ret o = Some DeadlineExceeded
    ∧ invocations (trace o) = 1
    ∧ (∃ w0, Sim.wait (100 * Millisecond) w0 = (Some CauseDeadline, world o))
    ∧ Sim.now (world o) = 50 * Millisecond
    ∧ Sim.callCount (world o) = 1.
Proof.
  destruct (cancellation_aborts_wait
              (Sim.fn (Sim.retryable 0) None) Sim.wait Sim.doubling
              (Some (Sim.config 5 (100 * Millisecond) (1 * Second))) None
              (Sim.start (Some (50 * Millisecond, CauseDeadline))))
    as (o & Hrun & _ & Hcancel).
  exists o. split; [exact Hrun|].
  assert (Hin : EvWait Backoff (100 * Millisecond) (Some CauseDeadline) ∈ trace o).
  { vm_compute in Hrun. injection Hrun as <-. cbn [trace].
    apply list_elem_of_further, list_elem_of_here. }
  split; [exact Hin|].
  destruct (Hcancel _ _ _ Hin) as (Hret & _ & Hwait).
  split; [exact Hret|].
  split; [vm_compute in Hrun; injection Hrun as <-; reflexivity|].
  split; [exact Hwait|].
  vm_compute in Hrun. injection Hrun as <-. split; reflexivity.
Defined.

(** C5 on a wait the server suggested: the context is cancelled during
    the 10ms of [RetryAfter]. *)
Example cancellation_during_retryAfter :
  option_map (fun o => (ret o, trace o))
    (Sim.run (Sim.retryable (10 * Millisecond)) None
       (Some (Sim.config 3 (100 * Millisecond) (1 * Second)))
       (Some (5 * Millisecond, CauseCanceled)))
  = Some (Some Canceled,
          [EvCall (Some (Sim.retryable (10 * Millisecond)));
           EvWait ServerSuggested (10 * Millisecond) (Some CauseCanceled)]).
Proof. vm_compute. reflexivity. Qed.

(** C9, the claim as stated fails: under a policy with [MaxRetries = -1]
    an operation whose invocations fail with a non-retryable error is
    not invoked at all, and nil is returned. *)
Lemma non_retryable_never_invoked :
  Sim.fn Sim.nonRetryable None (Sim.start None)
  = (Some Sim.nonRetryable, Sim.mkWorld 0 1 None)
  ∧ IsRetryableError Sim.nonRetryable = false
  ∧ Sim.run Sim.nonRetryable None
      (Some (Sim.config (-1) (1 * Millisecond) (10 * Millisecond))) None
    = Some {| ret := None; trace := []; world := Sim.start None |}.
Proof. vm_compute. repeat split; reflexivity. Qed.

(** C9 on the closure of [TestWithRetry_NonRetryableError]. *)
Lemma non_retryable_returns_at_once_witness :
  Sim.run Sim.nonRetryable None
    (Some (Sim.config 3 (1 * Millisecond) (10 * Millisecond))) None
  = Some {| ret := Some Sim.nonRetryable;
            trace := [EvCall (Some Sim.nonRetryable)];
            world := Sim.mkWorld 0 1 None |}.
Proof.
  apply (non_retryable_returns_at_once
           (Sim.fn Sim.nonRetryable None) Sim.wait Sim.doubling
           (Some (Sim.config 3 (1 * Millisecond) (10 * Millisecond))) None
           (Sim.start None)).
  - cbn. lia.
  - reflexivity.
  - reflexivity.
Defined.

(** C10 on an operation that would fail: it is never reached. *)
Lemma negative_MaxRetries_returns_nil_witness :
  Sim.run (Sim.retryable 0) None
    (Some (Sim.config (-3) (1 * Millisecond) (10 * Millisecond))) None
  = Some {| ret := None; trace := []; world := Sim.start None |}.
Proof.
  apply (negative_MaxRetries_returns_nil
           (Sim.fn (Sim.retryable 0) None) Sim.wait Sim.doubling
           (Sim.config (-3) (1 * Millisecond) (10 * Millisecond)) None
           (Sim.start None)).
  cbn. lia.
Defined.

(** ** The request/response client *)

Lemma buildRequest_built c method endpoint body made path :
  (∀ err, body ≠ Some (inl err)) →
  made = inr path →
  ∃ req, buildRequest c method endpoint body made = ([LogRequest req], inr req).
Proof.
  intros Hbody ->. unfold buildRequest.
  destruct body as [[err|js]|]; [destruct (Hbody err); reflexivity | | ]; eauto.
Qed.

Section ClientFacts.
Context `{go : GoLib}.
Context {ChatCompletionResponse ImageResponse ModelsResponse Model : Type}.
Variable zeroChat : ChatCompletionResponse.
Variable zeroImage : ImageResponse.
Variable zeroModels : ModelsResponse.
Variable zeroModel : Model.
Variable decodeChat : string → error + ChatCompletionResponse.
Variable decodeImage : string → error + ImageResponse.
Variable decodeModels : string → error + ModelsResponse.
Variable decodeModel : string → error + Model.

Abbreviation chat := (CreateChatCompletion zeroChat decodeChat).
Abbreviation image := (CreateImage zeroImage decodeImage).
Abbreviation models := (ListModels zeroModels decodeModels).
Abbreviation model := (GetModel zeroModel decodeModel).

(** When [doRequest] fails, each of the five calls returns its error. *)
Lemma calls_return_failure c x path err :
  newRequest x = inr path →
  (∀ T req (result : option (string → error + T)),
     (doRequest req result (roundTrip x)).2 = inl err) →
  (∀ req js, ChatCompletionRequest_Validate req = None → marshal x = inr js →
     (chat c req x).2 = inl err)
  ∧ (∀ req js, ImageRequest_Validate req = None → marshal x = inr js →
       (image c req x).2 = inl err)
  ∧ (models c x).2 = inl err
  ∧ (∀ modelID, (model c modelID x).2 = inl err)
  ∧ (Ping c x).2 = Some err.
Proof.
  intros Hn Hdo.
  assert (Hpost : ∀ endpoint js, marshal x = inr js → ∃ req,
    buildRequest c "POST" endpoint (Some (marshal x)) (newRequest x)
    = ([LogRequest req], inr req)).
  { intros endpoint js Hm. apply (buildRequest_built _ _ _ _ _ path); [|exact Hn].
    rewrite Hm. discriminate. }
  assert (Hget : ∀ endpoint, ∃ req,
    buildRequest c "GET" endpoint None (newRequest x) = ([LogRequest req], inr req)).
  { intros endpoint. apply (buildRequest_built _ _ _ _ _ path); [discriminate | exact Hn]. }
  repeat split.
  - intros req js Hv Hm. unfold CreateChatCompletion. rewrite Hv.
    destruct (Hpost "/chat/completions" js Hm) as [r ->].
    specialize (Hdo _ r (Some decodeChat)).
    destruct (doRequest r (Some decodeChat) (roundTrip x)) as [l2 res].
    simpl in *. rewrite Hdo. reflexivity.
  - intros req js Hv Hm. unfold CreateImage. rewrite Hv.
    destruct (Hpost "/images/generations" js Hm) as [r ->].
    specialize (Hdo _ r (Some decodeImage)).
    destruct (doRequest r (Some decodeImage) (roundTrip x)) as [l2 res].
    simpl in *. rewrite Hdo. reflexivity.
  - unfold ListModels. destruct (Hget "/models") as [r ->].
    specialize (Hdo _ r (Some decodeModels)).
    destruct (doRequest r (Some decodeModels) (roundTrip x)) as [l2 res].
    simpl in *. rewrite Hdo. reflexivity.
  - intros modelID. unfold GetModel. destruct (Hget ("/models/" +:+ modelID)) as [r ->].
    specialize (Hdo _ r (Some decodeModel)).
    destruct (doRequest r (Some decodeModel) (roundTrip x)) as [l2 res].
    simpl in *. rewrite Hdo. reflexivity.
  - unfold Ping. destruct (Hget "/models") as [r ->].
    specialize (Hdo unit r None).
    destruct (doRequest r None (roundTrip x)) as [l2 res].
    simpl in *. rewrite Hdo. reflexivity.
Qed.

(** The message [ParseError] stores: the envelope's when the body
    decodes with a non-empty message, else the raw body text, else the
    status text. *)
Lemma ParseError_message resp body :
  Message (ParseError resp body) =
  match Unmarshal body with
  | Some errorResp =>
      if String.eqb (Detail_Message (Detail errorResp)) "" then body
      else Detail_Message (Detail errorResp)
  | None => if String.eqb body "" then StatusText (resp_StatusCode resp) else body
  end.
Proof.
  unfold ParseError. destruct (Unmarshal body) as [errorResp|] eqn:Hu.
  - destruct (String.eqb_spec (Detail_Message (Detail errorResp)) "") as [Hm|Hm]; cbn [negb].
    + destruct (String.eqb_spec body "") as [-> | _].
      { rewrite Unmarshal_empty in Hu. discriminate. }
      destruct (categorizeError _ _ _ _) as [[? ?] ?]. reflexivity.
    + destruct (categorizeError _ _ _ _) as [[? ?] ?]. reflexivity.
  - destruct (categorizeError _ _ _ _) as [[? ?] ?]. reflexivity.
Qed.

(** C2, as amended.  When the transport fails before any response, each
    of the five calls returns the plain error
    [fmt.Errorf("request failed: %w", err)], which is not a Structured
    Error and has the original failure as its cause; the Structured
    Error with status 0, code [network_error], the retryable flag and
    the original failure as its cause is built by [WrapNetworkError] for
    the log record only. *)
Theorem transport_failure_returns_plain_error c x path err :
  newRequest x = inr path →
  roundTrip x = TransportFailed err →
  let plain := ErrWrapf "request failed: " err in
  asOpenRouterError plain = None
  ∧ ((∀ req js, ChatCompletionRequest_Validate req = None → marshal x = inr js →
        (chat c req x).2 = inl plain)
     ∧ (∀ req js, ImageRequest_Validate req = None → marshal x = inr js →
          (image c req x).2 = inl plain)
     ∧ (models c x).2 = inl plain
     ∧ (∀ modelID, (model c modelID x).2 = inl plain)
     ∧ (Ping c x).2 = Some plain)
  ∧ (∀ T req (result : option (string → error + T)),
       (doRequest req result (roundTrip x)).1 =
       [LogError (ErrOpenRouter (WrapNetworkError err)) (httpContext req)])
  ∧ StatusCode (WrapNetworkError err) = 0
  ∧ ErrorCode (WrapNetworkError err) = "network_error"
  ∧ IsRetryable (WrapNetworkError err) = true
  ∧ OriginalErr (WrapNetworkError err) = Some err.
Proof.
  intros Hn Hrt plain. split; [reflexivity|]. split.
  - apply (calls_return_failure c x path); [exact Hn|].
    intros T req result. rewrite Hrt. reflexivity.
  - split; [|repeat split]. intros T req result. rewrite Hrt. reflexivity.
Qed.

(** C3, as amended.  On a response with status 400 or more no call
    returns a success object.  When the body decodes into the envelope
    type, the failure is the Structured Error of [ParseError], whose
    message is the envelope's when that is not empty and the raw body
    text otherwise; when the body does not decode (other text, or
    empty), the failure is the plain error [HTTP <status>: <body>] and
    [ParseError] is not reached. *)
Theorem http_error_status_failure c x path resp body :
  newRequest x = inr path →
  roundTrip x = Received resp body →
  400 ≤ resp_StatusCode resp →
  let failure :=
    match Unmarshal body with
    | Some _ => ErrOpenRouter (ParseError resp body)
    | None => ErrText ("HTTP " +:+ itoa (resp_StatusCode resp) +:+ ": " +:+ body)
    end in
  ((∀ req js, ChatCompletionRequest_Validate req = None → marshal x = inr js →
      (chat c req x).2 = inl failure)
   ∧ (∀ req js, ImageRequest_Validate req = None → marshal x = inr js →
        (image c req x).2 = inl failure)
   ∧ (models c x).2 = inl failure
   ∧ (∀ modelID, (model c modelID x).2 = inl failure)
   ∧ (Ping c x).2 = Some failure)
  ∧ (∀ errorResp, Unmarshal body = Some errorResp →
       Message (ParseError resp body) =
       if String.eqb (Detail_Message (Detail errorResp)) "" then body
       else Detail_Message (Detail errorResp))
  ∧ (body = "" →
     failure = ErrText ("HTTP " +:+ itoa (resp_StatusCode resp) +:+ ": ")).
Proof.
  intros Hn Hrt Hstatus failure. split; [|split].
  - apply (calls_return_failure c x path); [exact Hn|].
    intros T req result. rewrite Hrt. unfold doRequest.
    destruct (Z.geb_spec (resp_StatusCode resp) 400); [|lia].
    subst failure. destruct (Unmarshal body); reflexivity.
  - intros errorResp Hu. rewrite ParseError_message, Hu. reflexivity.
  - intros ->. subst failure. rewrite Unmarshal_empty. reflexivity.
Qed.

End ClientFacts.

(** C2, the claim as stated fails: a refused connection comes back from
    [Ping] and from [CreateChatCompletion] as a wrapped plain error, for
    which the type assertion to [OpenRouterError] fails. *)
Lemma transport_failure_not_structured :
  let x := Sim.exchange (TransportFailed (ErrText "connection refused")) in
  let req := mkChatCompletionRequest "openai/gpt-4" [mkChatCompletionMessage "user" "Hi" ""] in
  let plain := ErrWrapf "request failed: " (ErrText "connection refused") in
  (Ping (go := Ref.lib) Sim.client x).2 = Some plain
  ∧ (CreateChatCompletion (go := Ref.lib) "" Sim.text Sim.client req x).2 = inl plain
  ∧ asOpenRouterError plain = None
  ∧ IsRetryableError plain = false.
Proof. vm_compute. repeat split; reflexivity. Qed.

(** C2: the amended statement on the same refused connection. *)
Lemma transport_failure_returns_plain_error_witness :
  let x := Sim.exchange (TransportFailed (ErrText "connection refused")) in
  let req := mkChatCompletionRequest "openai/gpt-4" [mkChatCompletionMessage "user" "Hi" ""] in
  (newRequest x = inr "/api/v1/test"
   ∧ roundTrip x = TransportFailed (ErrText "connection refused")
   ∧ ChatCompletionRequest_Validate req = None ∧ marshal x = inr "{}")
  ∧ (CreateChatCompletion (go := Ref.lib) "" Sim.text Sim.client req x).2 =
    inl (ErrWrapf "request failed: " (ErrText "connection refused")).
Proof.
  intros x req. split; [repeat split|].
  destruct (transport_failure_returns_plain_error (go := Ref.lib)
              "" "" "" "" Sim.text Sim.text Sim.text Sim.text
              Sim.client x "/api/v1/test" (ErrText "connection refused")
              eq_refl eq_refl)
    as (_ & (Hchat & _) & _).
  exact (Hchat req "{}" eq_refl eq_refl).
Defined.

(** C3, the claim as stated fails: a 502 with the text body of the
    test of [ParseError], and a 503 with an empty body, come back from
    the client as plain errors, for which the type assertion to
    [OpenRouterError] fails. *)
Lemma http_error_text_body_not_structured :
  (Ping (go := Ref.lib) Sim.client
     (Sim.exchange (Received (mkResponse 502 ∅) "Bad Gateway"))).2
  = Some (ErrText "HTTP 502: Bad Gateway")
  ∧ (Ping (go := Ref.lib) Sim.client
       (Sim.exchange (Received (mkResponse 503 ∅) ""))).2
    = Some (ErrText "HTTP 503: ")
  ∧ asOpenRouterError (ErrText "HTTP 502: Bad Gateway") = None
  ∧ asOpenRouterError (ErrText "HTTP 503: ") = None.
Proof. vm_compute. repeat split; reflexivity. Qed.

(** C3: the amended statement on the response of [TestDoRequestError]. *)
Lemma http_error_status_failure_witness :
  let body :=
    Ref.quoted "{'error':{'code':'invalid_request','message':'Invalid request parameters','type':'invalid_request_error'}}" in
  let resp := mkResponse 400 ∅ in
  let x := Sim.exchange (Received resp body) in
  (newRequest x = inr "/api/v1/test" ∧ roundTrip x = Received resp body
   ∧ 400 ≤ resp_StatusCode resp)
  ∧ (Ping (go := Ref.lib) Sim.client x).2 =
    Some (ErrOpenRouter
            {| StatusCode := 400; ErrorCode := "invalid_request";
               ErrorType := "invalid_request_error";
               Message := "Invalid request parameters";
               UserMessage := "Bad request. Please check your input and try again.";
               IsRetryable := false; RetryAfter := 0; OriginalErr := None |}).
Proof.
  intros body resp x.
  assert (Hs : 400 ≤ resp_StatusCode resp) by (cbn; lia).
  split; [repeat split; exact Hs|].
  destruct (http_error_status_failure (go := Ref.lib)
              "" "" "" "" Sim.text Sim.text Sim.text Sim.text
              Sim.client x "/api/v1/test" resp body eq_refl eq_refl Hs)
    as [(_ & _ & _ & _ & Hping) _].
  rewrite Hping. vm_compute. reflexivity.
Defined.

(** * The callers of the client *)

Lemma len_append a b : len (a +:+ b) = len a + len b.
Proof.
  unfold len. induction a as [|c a IH]; [reflexivity|].
  change (String c a +:+ b) with (String c (a +:+ b)).
  cbn [String.length]. lia.
Qed.

Lemma len_nonneg s : 0 ≤ len s.
Proof. unfold len. lia. Qed.

Lemma append_nil_r s : s +:+ "" = s.
Proof.
  induction s as [|c s IH]; [reflexivity|].
  change (String c s +:+ "") with (String c (s +:+ "")). rewrite IH. reflexivity.
Qed.

Lemma append_assoc a b c : (a +:+ b) +:+ c = a +:+ b +:+ c.
Proof.
  induction a as [|x a IH]; [reflexivity|].
  change ((String x a +:+ b) +:+ c) with (String x ((a +:+ b) +:+ c)).
  rewrite IH. reflexivity.
Qed.

(** ** [pkg/commands/gpt] *)

Lemma flat_app l1 l2 : Gpt.flat (l1 ++ l2) = Gpt.flat l1 +:+ Gpt.flat l2.
Proof.
  induction l1 as [|p l1 IH]; [reflexivity|].
  unfold Gpt.flat in *. cbn [foldr app]. rewrite IH, append_assoc. reflexivity.
Qed.

(** The loop from any state: what was packed stays in front. *)
Lemma fold_addWord_prefix words parts cur :
  ∃ more cur',
    fold_left Gpt.addWord words (parts, cur) = (parts ++ more, cur')
    ∧ fold_left Gpt.addWord words ([], cur) = (more, cur').
Proof.
  revert parts cur. induction words as [|w words IH]; intros parts cur.
  - exists [], cur. rewrite app_nil_r. split; reflexivity.
  - cbn [fold_left]. unfold Gpt.addWord at 2 4.
    destruct (len cur + len w + 1 >? Gpt.discordMaxMessageLength).
    + destruct (IH (parts ++ [cur]) (w +:+ " ")) as (more & cur' & E1 & E2).
      destruct (IH ([] ++ [cur]) (w +:+ " ")) as (more0 & cur0 & E3 & E4).
      rewrite E4 in E2. injection E2 as <- <-.
      exists (cur :: more0), cur0. rewrite E1, E3, <- app_assoc. split; reflexivity.
    + apply IH.
Qed.

Lemma flat_snoc l x : Gpt.flat (l ++ [x]) = Gpt.flat l +:+ x.
Proof. rewrite flat_app. unfold Gpt.flat at 2. cbn [foldr]. rewrite append_nil_r. reflexivity. Qed.

Lemma spaced_cons w words : Gpt.spaced (w :: words) = (w +:+ " ") +:+ Gpt.spaced words.
Proof. reflexivity. Qed.

Lemma fold_addWord_content words :
  ∀ parts cur more cur', fold_left Gpt.addWord words (parts, cur) = (more, cur') →
  Gpt.flat (more ++ [cur']) = Gpt.flat (parts ++ [cur]) +:+ Gpt.spaced words.
Proof.
  induction words as [|w words IH]; intros parts cur more cur'.
  - intros [= <- <-]. unfold Gpt.spaced. cbn [map Gpt.flat foldr].
    rewrite append_nil_r. reflexivity.
  - cbn [fold_left]. unfold Gpt.addWord at 2.
    destruct (len cur + len w + 1 >? Gpt.discordMaxMessageLength); intros E;
      rewrite (IH _ _ _ _ E), spaced_cons, !flat_snoc, !append_assoc; reflexivity.
Qed.

(** X1.  [splitMessage] loses no word and keeps their order: a message
    of at most 2000 bytes is returned as it is, and the parts of a longer
    one, written one after the other, are its words, each followed by
    one space. *)
Theorem splitMessage_keeps_words (Fields : string → list string) message :
  Gpt.flat (Gpt.splitMessage Fields message) =
  if len message <=? Gpt.discordMaxMessageLength then message
  else Gpt.spaced (Fields message).
Proof.
  unfold Gpt.splitMessage.
  destruct (len message <=? Gpt.discordMaxMessageLength).
  - cbn. apply append_nil_r.
  - unfold Gpt.packWords.
    destruct (fold_left Gpt.addWord (Fields message) ([], "")) as [more cur'] eqn:E.
    rewrite (fold_addWord_content _ _ _ _ _ E). reflexivity.
Qed.

Lemma fold_addWord_fit words :
  Forall (λ w, len w < Gpt.discordMaxMessageLength) words →
  ∀ parts cur more cur',
    fold_left Gpt.addWord words (parts, cur) = (more, cur') →
    Forall (λ p, 0 < len p ≤ Gpt.discordMaxMessageLength) parts →
    (cur = "" ∧ parts = []) ∨ 0 < len cur ≤ Gpt.discordMaxMessageLength →
    Forall (λ p, 0 < len p ≤ Gpt.discordMaxMessageLength) more
    ∧ ((cur = "" ∧ parts = [] ∧ words = [] ∧ more = [] ∧ cur' = "")
       ∨ 0 < len cur' ≤ Gpt.discordMaxMessageLength).
Proof.
  unfold Gpt.discordMaxMessageLength.
  induction 1 as [|w words Hw _ IH]; intros parts cur more cur'.
  - intros [= <- <-] Hparts Hcur. split; [exact Hparts|].
    destruct Hcur as [[-> ->] | Hcur]; [left | right]; auto.
  - cbn [fold_left]. unfold Gpt.addWord at 2.
    pose proof (len_nonneg w) as Hw0.
    assert (Hnew : len (w +:+ " ") = len w + 1) by (rewrite len_append; reflexivity).
    unfold Gpt.discordMaxMessageLength.
    destruct (Z.gtb_spec (len cur + len w + 1) 2000) as [Hgt | Hle]; intros E Hparts Hcur.
    + destruct Hcur as [[-> ->] | Hcur]; [change (len "") with 0 in Hgt; lia|].
      destruct (IH _ _ _ _ E) as [Hmore Hc].
      * apply Forall_app. split; [exact Hparts | repeat constructor; lia].
      * right. lia.
      * split; [exact Hmore|]. right.
        destruct Hc as [(Hc & _) | Hc]; [|exact Hc].
        rewrite Hc in Hnew. change (len "") with 0 in Hnew. lia.
    + assert (Hlen : len (cur +:+ w +:+ " ") = len cur + len w + 1)
        by (rewrite !len_append; change (len " ") with 1; lia).
      pose proof (len_nonneg cur) as Hc0.
      destruct (IH _ _ _ _ E Hparts) as [Hmore Hc]; [right; lia|].
      split; [exact Hmore|]. right.
      destruct Hc as [(Hc & _) | Hc]; [|exact Hc].
      rewrite Hc in Hlen. change (len "") with 0 in Hlen. lia.
Qed.

(** X2.  When every word of the message is shorter than 2000 bytes,
    every part [splitMessage] returns is at most 2000 bytes long, and
    no part is empty unless the message has no word at all. *)
Theorem splitMessage_parts_fit (Fields : string → list string) message :
  Forall (λ w, len w < Gpt.discordMaxMessageLength) (Fields message) →
  Forall (λ p, len p ≤ Gpt.discordMaxMessageLength) (Gpt.splitMessage Fields message)
  ∧ (Fields message ≠ [] → message ≠ "" →
     Forall (λ p, 0 < len p) (Gpt.splitMessage Fields message)).
Proof.
  intros Hwords. unfold Gpt.splitMessage.
  destruct (Z.leb_spec (len message) Gpt.discordMaxMessageLength) as [Hshort | Hlong].
  - split; [repeat constructor; exact Hshort|].
    intros _ Hne. repeat constructor.
    destruct message; [done | unfold len; cbn; lia].
  - unfold Gpt.packWords.
    destruct (fold_left Gpt.addWord (Fields message) ([], "")) as [more cur'] eqn:E.
    destruct (fold_addWord_fit _ Hwords _ _ _ _ E) as [Hmore Hcur];
      [constructor | left; auto |].
    split.
    + apply Forall_app. split.
      * eapply Forall_impl; [exact Hmore | cbn; intros; lia].
      * repeat constructor.
        destruct Hcur as [(_ & _ & _ & _ & ->) | Hcur];
          [unfold Gpt.discordMaxMessageLength; change (len "") with 0; lia | lia].
    + intros Hne _. apply Forall_app. split.
      * eapply Forall_impl; [exact Hmore | cbn; intros; lia].
      * repeat constructor.
        destruct Hcur as [(_ & _ & Hw & _) | Hcur]; [done | lia].
Qed.

(** X3.  A first word of 2000 bytes or more in a long message makes
    [splitMessage] return an empty first part, followed by a part that
    holds the word and a space and so exceeds the limit. *)
Theorem splitMessage_long_first_word (Fields : string → list string) message w rest :
  Gpt.discordMaxMessageLength < len message →
  Fields message = w :: rest →
  Gpt.discordMaxMessageLength ≤ len w →
  ∃ tail, Gpt.splitMessage Fields message = "" :: (w +:+ " ") :: tail
    ∧ Gpt.discordMaxMessageLength < len (w +:+ " ").
Proof.
  unfold Gpt.discordMaxMessageLength. intros Hlong HF Hw.
  assert (Hnew : len (w +:+ " ") = len w + 1) by (rewrite len_append; reflexivity).
  unfold Gpt.splitMessage, Gpt.packWords.
  destruct (Z.leb_spec (len message) Gpt.discordMaxMessageLength) as [H|_];
    [unfold Gpt.discordMaxMessageLength in H; lia|].
  rewrite HF. cbn [fold_left]. unfold Gpt.addWord at 2.
  unfold Gpt.discordMaxMessageLength.
  destruct (Z.gtb_spec (len "" + len w + 1) 2000) as [_ | H];
    [|change (len "") with 0 in H; lia].
  destruct (fold_addWord_prefix rest ([] ++ [""]) (w +:+ " ")) as (more & cur' & -> & E).
  destruct rest as [|w2 rest].
  - injection E as <- <-. exists []. split; [reflexivity | lia].
  - cbn [fold_left] in E. unfold Gpt.addWord at 2 in E.
    unfold Gpt.discordMaxMessageLength in E. pose proof (len_nonneg w2).
    destruct (Z.gtb_spec (len (w +:+ " ") + len w2 + 1) 2000) as [_ | H']; [|lia].
    destruct (fold_addWord_prefix rest ([] ++ [w +:+ " "]) (w2 +:+ " "))
      as (more2 & cur2 & E2 & _).
    rewrite E2 in E. injection E as <- <-.
    exists (more2 ++ [cur2]). split; [|lia].
    cbn. reflexivity.
Qed.

(** X2 on a message of 500 short words: two parts, both within the
    limit. *)
Lemma splitMessage_parts_fit_witness :
  Forall (λ w, len w < Gpt.discordMaxMessageLength)
    (Gpt.Fields_ascii (Gpt.Repeat "word " 500))
  ∧ Forall (λ p, len p ≤ Gpt.discordMaxMessageLength)
      (Gpt.splitMessage Gpt.Fields_ascii (Gpt.Repeat "word " 500))
  ∧ length (Gpt.splitMessage Gpt.Fields_ascii (Gpt.Repeat "word " 500)) = 2%nat.
Proof.
  assert (H : Forall (λ w, len w < Gpt.discordMaxMessageLength)
                (Gpt.Fields_ascii (Gpt.Repeat "word " 500))).
  { apply (bool_decide_unpack _). vm_compute. exact I. }
  split; [exact H|]. split.
  - exact (proj1 (splitMessage_parts_fit Gpt.Fields_ascii _ H)).
  - vm_compute. reflexivity.
Defined.

(** X3 on a message that is one word of 2001 bytes. *)
Lemma splitMessage_long_first_word_witness :
  ∃ tail,
    Gpt.splitMessage Gpt.Fields_ascii (Gpt.Repeat "a" 2001)
    = "" :: (Gpt.Repeat "a" 2001 +:+ " ") :: tail
    ∧ Gpt.discordMaxMessageLength < len (Gpt.Repeat "a" 2001 +:+ " ").
Proof.
  apply (splitMessage_long_first_word Gpt.Fields_ascii
           (Gpt.Repeat "a" 2001) (Gpt.Repeat "a" 2001) []).
  - vm_compute. reflexivity.
  - vm_compute. reflexivity.
  - vm_compute. discriminate.
Defined.

Lemma swap_lookup {A} (l l' : list A) i j :
  Gpt.swap l i j = Some l' →
  length l' = length l
  ∧ ∀ k, l' !! k =
         if decide (k = j) then l !! i
         else if decide (k = i) then l !! j
         else l !! k.
Proof.
  unfold Gpt.swap.
  destruct (l !! i) as [x|] eqn:Hi; [|discriminate].
  destruct (l !! j) as [y|] eqn:Hj; [|discriminate].
  intros [= <-]. split; [rewrite !length_insert; reflexivity|].
  intros k. apply lookup_lt_Some in Hi as Hli. apply lookup_lt_Some in Hj as Hlj.
  destruct (decide (k = j)) as [-> | Hkj].
  - rewrite list_lookup_insert_eq by (rewrite length_insert; exact Hlj). reflexivity.
  - rewrite list_lookup_insert_ne by auto.
    destruct (decide (k = i)) as [-> | Hki].
    + rewrite list_lookup_insert_eq by exact Hli. reflexivity.
    + rewrite list_lookup_insert_ne by auto. reflexivity.
Qed.

(** After the swaps of the indices below [k], the list is the original
    one with its first [k] and last [k] elements mirrored. *)
Lemma reverseFrom_mirrored {A} (l0 : list A) n :
  ∀ i l,
    (i + n ≤ length l0 / 2)%nat →
    length l = length l0 →
    (∀ j, (j < length l0)%nat →
          l !! j = if decide (j < i ∨ length l0 - i ≤ j)%nat
                   then l0 !! (length l0 - 1 - j)%nat else l0 !! j) →
    ∃ l', Gpt.reverseFrom n i (length l0) l = Some l'
      ∧ length l' = length l0
      ∧ ∀ j, (j < length l0)%nat →
             l' !! j = if decide (j < i + n ∨ length l0 - (i + n) ≤ j)%nat
                       then l0 !! (length l0 - 1 - j)%nat else l0 !! j.
Proof.
  induction n as [|n IH]; intros i l Hbound Hlen Hmir.
  - exists l. split; [reflexivity|]. split; [exact Hlen|].
    intros j Hj. rewrite Hmir by exact Hj.
    repeat case_decide; try reflexivity; lia.
  - cbn [Gpt.reverseFrom].
    assert (Hhalf : (2 * (length l0 / 2) ≤ length l0)%nat)
      by (apply Nat.Div0.mul_div_le).
    assert (Hi : (i < length l)%nat) by lia.
    assert (Hm : (length l0 - i - 1 < length l)%nat) by lia.
    destruct (lookup_lt_is_Some_2 l i Hi) as [x Hx].
    destruct (lookup_lt_is_Some_2 l _ Hm) as [y Hy].
    destruct (Gpt.swap l i (length l0 - i - 1)) as [l1|] eqn:Hswap.
    2: { unfold Gpt.swap in Hswap. rewrite Hx, Hy in Hswap. discriminate. }
    destruct (swap_lookup _ _ _ _ Hswap) as [Hlen1 Hlook].
    destruct (IH (S i) l1) as (l' & Hrun & Hlen' & Hmir'); [lia | lia | |].
    + intros j Hj. rewrite Hlook.
      destruct (decide (j = length l0 - i - 1)%nat) as [-> | Hne1].
      * rewrite Hmir by lia.
        rewrite decide_False by lia. rewrite decide_True by lia.
        f_equal. lia.
      * destruct (decide (j = i)) as [-> | Hne2].
        -- rewrite Hmir by lia.
           rewrite decide_False by lia. rewrite decide_True by lia.
           f_equal. lia.
        -- rewrite Hmir by exact Hj.
           repeat case_decide; try reflexivity; lia.
    + exists l'. split; [exact Hrun|]. split; [exact Hlen'|].
      intros j Hj. rewrite Hmir' by exact Hj.
      repeat case_decide; try reflexivity; lia.
Qed.

(** X4.  [reverseOpenRouterMessages] (and [reverseMessages]) never
    indexes out of range and leaves the messages in reverse order,
    whatever their number. *)
Theorem reverseOpenRouterMessages_reverses {A} (messages : list A) :
  Gpt.reverseOpenRouterMessages messages = Some (reverse messages).
Proof.
  unfold Gpt.reverseOpenRouterMessages.
  destruct (reverseFrom_mirrored messages (length messages / 2) 0 messages)
    as (l' & -> & Hlen & Hmir); [lia | reflexivity | |].
  - intros j Hj. rewrite decide_False by lia. reflexivity.
  - f_equal. apply list_eq. intros j.
    assert (Hhalf : (2 * (length messages / 2) ≤ length messages)%nat)
      by (apply Nat.Div0.mul_div_le).
    assert (Hhalf' : (length messages < 2 * (length messages / 2) + 2)%nat).
    { pose proof (Nat.div_mod_eq (length messages) 2).
      pose proof (Nat.mod_upper_bound (length messages) 2). lia. }
    destruct (decide (j < length messages)%nat) as [Hj | Hj].
    + rewrite Hmir by exact Hj. rewrite reverse_lookup by exact Hj.
      case_decide as Hc; [f_equal; lia|].
      f_equal. lia.
    + rewrite !lookup_ge_None_2; [reflexivity | rewrite length_reverse; lia | lia].
Qed.

Lemma length_SplitByte sep s :
  length (Gpt.SplitByte sep s) = S (Gpt.countByte sep s).
Proof.
  induction s as [|c s IH]; [reflexivity|].
  cbn [Gpt.SplitByte Gpt.countByte].
  destruct (Ascii.eqb c sep); cbn [length].
  - rewrite IH. reflexivity.
  - destruct (Gpt.SplitByte sep s); [discriminate|]. cbn [length] in *. lia.
Qed.

Lemma HasPrefix_empty s : HasPrefix s "" = true.
Proof. destruct s; reflexivity. Qed.

Lemma Contains_byte sep s :
  Contains s (String sep "") = true ↔ (1 ≤ Gpt.countByte sep s)%nat.
Proof.
  induction s as [|c s IH].
  - cbn. split; [discriminate | lia].
  - cbn [Contains HasPrefix Gpt.countByte]. rewrite HasPrefix_empty, Ascii.eqb_sym.
    destruct (Ascii.eqb c sep); cbn [andb orb].
    + split; [lia | reflexivity].
    + rewrite IH. cbn. reflexivity.
Qed.

(** X5.  [validateOpenRouterModel] accepts a model name exactly when it
    holds one slash: a name without a slash or with two or more is
    rejected, and nothing is asked of what stands before or after the
    slash (both may be empty). *)
Theorem validateOpenRouterModel_one_slash model :
  Gpt.validateOpenRouterModel model = true ↔ Gpt.countByte "/" model = 1%nat.
Proof.
  unfold Gpt.validateOpenRouterModel.
  rewrite andb_true_iff, Contains_byte, Nat.eqb_eq, length_SplitByte. lia.
Qed.

Lemma countByte_append sep a b :
  Gpt.countByte sep (a +:+ b) = (Gpt.countByte sep a + Gpt.countByte sep b)%nat.
Proof.
  induction a as [|c a IH]; [reflexivity|].
  change (String c a +:+ b) with (String c (a +:+ b)).
  cbn [Gpt.countByte]. rewrite IH. lia.
Qed.

Lemma SplitByte_none sep s : Gpt.countByte sep s = 0%nat → Gpt.SplitByte sep s = [s].
Proof.
  induction s as [|c s IH]; [reflexivity|].
  cbn [Gpt.countByte Gpt.SplitByte].
  destruct (Ascii.eqb c sep); [discriminate|].
  intros H. rewrite IH by exact H. reflexivity.
Qed.

Lemma SplitByte_first sep a b :
  Gpt.countByte sep a = 0%nat →
  Gpt.SplitByte sep (a +:+ String sep b) = a :: Gpt.SplitByte sep b.
Proof.
  induction a as [|c a IH].
  - intros _. change ("" +:+ String sep b) with (String sep b).
    cbn [Gpt.SplitByte]. rewrite Ascii.eqb_refl. reflexivity.
  - change (String c a +:+ String sep b) with (String c (a +:+ String sep b)).
    cbn [Gpt.countByte Gpt.SplitByte].
    destruct (Ascii.eqb c sep); [discriminate|].
    intros H. rewrite IH by exact H. reflexivity.
Qed.

(** X28.  [extractBaseModel] undoes the provider prefix: of a name made
    of a provider, a slash and a base model, neither with a slash in it,
    it returns the base model, and a name without a slash it returns as
    it is.  So such a name is a valid model name, and its truncate limit
    is that of its base model, whatever the provider is. *)
Theorem extractBaseModel_provider_model provider base :
  Gpt.countByte "/" provider = 0%nat →
  Gpt.countByte "/" base = 0%nat →
  Gpt.extractBaseModel (provider +:+ "/" +:+ base) = base
  ∧ Gpt.extractBaseModel base = base
  ∧ Gpt.validateOpenRouterModel (provider +:+ "/" +:+ base) = true
  ∧ Gpt.modelTruncateLimit (provider +:+ "/" +:+ base) = Gpt.modelTruncateLimit base.
Proof.
  intros Hp Hb.
  assert (Hcount : Gpt.countByte "/" (provider +:+ "/" +:+ base) = 1%nat).
  { rewrite !countByte_append, Hp, Hb. reflexivity. }
  assert (H1 : Gpt.extractBaseModel (provider +:+ "/" +:+ base) = base).
  { unfold Gpt.extractBaseModel.
    assert (Contains (provider +:+ "/" +:+ base) "/" = true) as ->
      by (apply Contains_byte; lia).
    change ("/" +:+ base) with (String "/" base).
    rewrite SplitByte_first by exact Hp. rewrite SplitByte_none by exact Hb. reflexivity. }
  assert (H2 : Gpt.extractBaseModel base = base).
  { unfold Gpt.extractBaseModel.
    destruct (Contains base "/") eqn:Hc; [|reflexivity].
    apply Contains_byte in Hc. lia. }
  split; [exact H1|]. split; [exact H2|]. split.
  - unfold Gpt.validateOpenRouterModel.
    rewrite andb_true_iff, Contains_byte, Nat.eqb_eq, length_SplitByte. lia.
  - unfold Gpt.modelTruncateLimit. rewrite H1, H2. reflexivity.
Qed.

(** X28 on [openai/gpt-4]. *)
Lemma extractBaseModel_provider_model_witness :
  Gpt.extractBaseModel "openai/gpt-4" = "gpt-4"
  ∧ Gpt.modelTruncateLimit "openai/gpt-4" = Some 6500.
Proof.
  destruct (extractBaseModel_provider_model "openai" "gpt-4" eq_refl eq_refl)
    as (H1 & _ & _ & H4).
  split; [exact H1 | exact H4].
Defined.

(** ** Runs of the Retry Executor, whatever the operation does *)

Lemma lastCall_app r tr1 tr2 :
  lastCall r (tr1 ++ tr2) = lastCall (lastCall r tr1) tr2.
Proof.
  revert r. induction tr1 as [|ev tr1 IH]; intros r; [reflexivity|].
  destruct ev; simpl; apply IH.
Qed.

Lemma waitsAfter_app r tr1 tr2 :
  waitsAfter r (tr1 ++ tr2) = waitsAfter r tr1 ++ waitsAfter (lastCall r tr1) tr2.
Proof.
  revert r. induction tr1 as [|ev tr1 IH]; intros r; [reflexivity|].
  destruct ev; simpl; rewrite IH; reflexivity.
Qed.

Lemma lastCall_no_calls r tr : calls tr = [] → lastCall r tr = r.
Proof.
  induction tr as [|ev tr IH]; [reflexivity|].
  destruct ev; simpl; [discriminate | exact IH | exact IH].
Qed.

Lemma waitsAfter_logged r logger l : waitsAfter r (logged logger l) = [].
Proof. destruct logger; reflexivity. Qed.

Lemma lastCall_logged r logger l : lastCall r (logged logger l) = r.
Proof. destruct logger; reflexivity. Qed.

Section RunFacts.
Context {World : Type}.
Variable fn : World → option error * World.
Variable wait : Duration → World → option Cause * World.
Variable calculateDelay : Z → RetryConfig → World → Duration * World.

Abbreviation pass := (iteration fn wait calculateDelay).
Abbreviation loop := (retryLoop fn wait calculateDelay).
Abbreviation run := (WithRetry fn wait calculateDelay).

(** The two ways a pass ends: straight after the invocation, with its
    result, or after one wait of the kind the failure asks for. *)
Lemma iteration_cases config logger attempt tr w s tr' w' :
  pass config logger attempt tr w = (s, tr', w') →
  (s = Return (fn w).1 ∧ tr' = tr ++ [EvCall (fn w).1]
   ∧ (retried (fn w).1 = false ∨ attempt = MaxRetries config))
  ∨ (attempt ≠ MaxRetries config
     ∧ ∃ pre kind delay done w0,
         tr' = tr ++ EvCall (fn w).1 :: pre ++ [EvWait kind delay done]
         ∧ calls pre = [] ∧ undisturbed pre ∧ waitsAfter (fn w).1 pre = []
         ∧ wait delay w0 = (done, w')
         ∧ s = match done with
               | Some c => Return (Some (ctxErr c))
               | None => Continue (fn w).1
               end
         ∧ waitChosen ((fn w).1, kind, delay)).
Proof.
  unfold iteration, backoff.
  destruct (fn w) as [[err|] w1]; cbn [fst].
  2: { intros [= <- <- <-]. left. auto. }
  destruct (Z.eqb_spec attempt (MaxRetries config)) as [Heq | Hne].
  { intros [= <- <- <-]. left. auto. }
  assert (Hwait : ∀ kind delay pre w0,
    calls pre = [] → undisturbed pre → waitsAfter (Some err) pre = [] →
    waitChosen (Some err, kind, delay) →
    selectWait wait kind delay (Some err) ((tr ++ [EvCall (Some err)]) ++ pre) w0
      = (s, tr', w') →
    ∃ pre kind delay done w0,
      tr' = tr ++ EvCall (Some err) :: pre ++ [EvWait kind delay done]
      ∧ calls pre = [] ∧ undisturbed pre ∧ waitsAfter (Some err) pre = []
      ∧ wait delay w0 = (done, w')
      ∧ s = match done with
            | Some c => Return (Some (ctxErr c))
            | None => Continue (Some err)
            end
      ∧ waitChosen (Some err, kind, delay)).
  { intros kind delay pre w0 Hc Hu Hw Hch. unfold selectWait.
    destruct (wait delay w0) as [done w2] eqn:Ew. intros [= <- <- <-].
    exists pre, kind, delay, done, w0.
    split; [rewrite <- !app_assoc; reflexivity|].
    repeat (split; [assumption|]). split; [|assumption].
    destruct done; reflexivity. }
  unfold waitChosen, retried, suggested in Hwait |- *.
  destruct (asOpenRouterError err) as [orErr|] eqn:Eas.
  - destruct (IsRetryable orErr) eqn:Ere; cbn [negb].
    2: { intros [= <- <- <-]. left. auto. }
    intros Hs. right. split; [exact Hne|]. revert Hs.
    set (rate := if StatusCode orErr =? 429
                 then logged logger (LogRateLimitHit (RetryAfter orErr)) else []).
    assert (Hrc : calls rate = []).
    { subst rate. destruct (StatusCode orErr =? 429); [apply calls_logged | reflexivity]. }
    assert (Hru : undisturbed rate).
    { subst rate. destruct (StatusCode orErr =? 429);
        [apply undisturbed_logged | constructor]. }
    assert (Hrw : waitsAfter (Some err) rate = []).
    { subst rate. destruct (StatusCode orErr =? 429);
        [apply waitsAfter_logged | reflexivity]. }
    assert (Hrl : lastCall (Some err) rate = Some err).
    { apply lastCall_no_calls, Hrc. }
    destruct (RetryAfter orErr >? 0) eqn:Era.
    + rewrite <- app_assoc. apply Hwait.
      * rewrite calls_app, Hrc, calls_logged. reflexivity.
      * apply undisturbed_app; [assumption | apply undisturbed_logged].
      * rewrite waitsAfter_app, Hrw, Hrl, waitsAfter_logged. reflexivity.
      * auto.
    + destruct (calculateDelay attempt config w1) as [delay w2].
      rewrite <- app_assoc. apply Hwait.
      * rewrite calls_app, Hrc, calls_logged. reflexivity.
      * apply undisturbed_app; [assumption | apply undisturbed_logged].
      * rewrite waitsAfter_app, Hrw, Hrl, waitsAfter_logged. reflexivity.
      * auto.
  - intros Hs. right. split; [exact Hne|]. revert Hs.
    destruct (calculateDelay attempt config w1) as [delay w2].
    apply Hwait; [apply calls_logged | apply undisturbed_logged
                 | apply waitsAfter_logged | auto].
Qed.

(** The shape of every run of the loop: passes that each made one
    retried invocation and an undisturbed wait, then a last invocation,
    followed by nothing or by a wait the context ended. *)
Lemma retryLoop_run fuel config logger : ∀ attempt lastErr tr w o,
  loop fuel config logger attempt lastErr tr w = Some o →
  (MaxRetries config < attempt ∧ ret o = lastErr ∧ trace o = tr)
  ∨ (attempt ≤ MaxRetries config ∧ ∃ mid r tail,
       trace o = tr ++ mid ++ EvCall r :: tail
       ∧ Forall (λ r', retried r' = true ∧ ∃ w0, r' = (fn w0).1) (calls mid)
       ∧ undisturbed mid
       ∧ Z.of_nat (length (calls mid)) ≤ MaxRetries config - attempt
       ∧ (∃ w0, r = (fn w0).1)
       ∧ calls tail = []
       ∧ ((tail = [] ∧ ret o = r
           ∧ (retried r = false
              ∨ Z.of_nat (length (calls mid)) = MaxRetries config - attempt))
          ∨ (∃ front kind delay c w0,
               tail = front ++ [EvWait kind delay (Some c)]
               ∧ undisturbed front ∧ ret o = Some (ctxErr c)
               ∧ retried r = true ∧ (wait delay w0).1 = Some c))).
Proof.
  induction fuel as [|fuel IH]; intros attempt lastErr tr w o; [discriminate|].
  cbn [retryLoop].
  destruct (Z.leb_spec attempt (MaxRetries config)) as [Hle | Hgt].
  2: { intros [= <-]. left. auto. }
  destruct (pass config logger attempt tr w) as [[s tr'] w'] eqn:Hit.
  intros Hloop. right. split; [exact Hle|].
  destruct (iteration_cases _ _ _ _ _ _ _ _ Hit)
    as [(-> & -> & Hwhy)
       | (Hne & pre & kind & delay & done & w0 & -> & Hpc & Hpu & _ & Hw & -> & Hch & _)].
  - injection Hloop as <-. exists [], (fn w).1, []. cbn [trace ret app calls length].
    split; [reflexivity|]. split; [constructor|]. split; [constructor|].
    split; [lia|]. split; [eauto|]. split; [reflexivity|].
    left. split; [reflexivity|]. split; [reflexivity|].
    destruct Hwhy as [? | ->]; [auto | right; lia].
  - destruct done as [c|].
    + injection Hloop as <-. exists [], (fn w).1, (pre ++ [EvWait kind delay (Some c)]).
      cbn [trace ret app calls length].
      split; [reflexivity|]. split; [constructor|]. split; [constructor|].
      split; [lia|]. split; [eauto|].
      split; [rewrite calls_app, Hpc; reflexivity|].
      right. exists pre, kind, delay, c, w0. rewrite Hw. auto.
    + apply IH in Hloop as [(Hlt & _) | (_ & mid & r & tail & Htr & Hre & Hun & Hlen & Hr & Htl & Hend)];
        [lia|].
      exists ((EvCall (fn w).1 :: pre ++ [EvWait kind delay None]) ++ mid), r, tail.
      assert (Hcalls : calls ((EvCall (fn w).1 :: pre ++ [EvWait kind delay None]) ++ mid)
                       = (fn w).1 :: calls mid).
      { rewrite calls_app. cbn [calls]. rewrite calls_app, Hpc. reflexivity. }
      rewrite Hcalls. cbn [length].
      split; [rewrite Htr, <- !app_assoc; reflexivity|].
      split; [constructor; [eauto | exact Hre]|].
      split.
      { apply undisturbed_app; [|exact Hun].
        constructor; [reflexivity|].
        apply undisturbed_app; [exact Hpu | repeat constructor]. }
      split; [lia|]. split; [exact Hr|]. split; [exact Htl|].
      destruct Hend as [(-> & Hret & Hwhy) | Hend]; [|right; exact Hend].
      left. split; [reflexivity|]. split; [exact Hret|].
      destruct Hwhy as [? | ?]; [auto | right; lia].
Qed.

(** The waits of a run are all chosen by the failure before them. *)
Lemma retryLoop_waits fuel config logger : ∀ attempt lastErr tr w o r0,
  loop fuel config logger attempt lastErr tr w = Some o →
  Forall waitChosen (waitsAfter r0 tr) →
  Forall waitChosen (waitsAfter r0 (trace o)).
Proof.
  induction fuel as [|fuel IH]; intros attempt lastErr tr w o r0; [discriminate|].
  cbn [retryLoop].
  destruct (attempt <=? MaxRetries config).
  2: { intros [= <-]. auto. }
  destruct (pass config logger attempt tr w) as [[s tr'] w'] eqn:Hit.
  intros Hloop Htr.
  assert (Htr' : Forall waitChosen (waitsAfter r0 tr')).
  { destruct (iteration_cases _ _ _ _ _ _ _ _ Hit)
      as [(_ & -> & _)
         | (_ & pre & kind & delay & done & w0 & -> & Hpc & _ & Hpw & _ & _ & Hch)].
    - rewrite waitsAfter_app. cbn [waitsAfter]. rewrite app_nil_r. exact Htr.
    - rewrite waitsAfter_app. cbn [waitsAfter]. rewrite waitsAfter_app, Hpw.
      rewrite (lastCall_no_calls _ _ Hpc). cbn [app waitsAfter].
      apply Forall_app. split; [exact Htr|]. constructor; [exact Hch | constructor]. }
  destruct s as [err|lastErr'].
  - injection Hloop as <-. exact Htr'.
  - eapply IH; eauto.
Qed.

Lemma WithRetry_run config logger w :
  ∃ o, run config logger w = Some o
    ∧ ((MaxRetries (resolve config) < 0 ∧ ret o = None ∧ trace o = [])
       ∨ (0 ≤ MaxRetries (resolve config) ∧ ∃ mid r tail,
            trace o = mid ++ EvCall r :: tail
            ∧ Forall (λ r', retried r' = true ∧ ∃ w0, r' = (fn w0).1) (calls mid)
            ∧ undisturbed mid
            ∧ Z.of_nat (length (calls mid)) ≤ MaxRetries (resolve config)
            ∧ (∃ w0, r = (fn w0).1)
            ∧ calls tail = []
            ∧ ((tail = [] ∧ ret o = r
                ∧ (retried r = false
                   ∨ Z.of_nat (length (calls mid)) = MaxRetries (resolve config)))
               ∨ (∃ front kind delay c w0,
                    tail = front ++ [EvWait kind delay (Some c)]
                    ∧ undisturbed front ∧ ret o = Some (ctxErr c)
                    ∧ retried r = true ∧ (wait delay w0).1 = Some c)))).
Proof.
  destruct (WithRetry_returns fn wait calculateDelay config logger w) as [o Ho].
  exists o. split; [exact Ho|].
  apply retryLoop_run in Ho as [(? & ? & ?) | (? & mid & r & tail & Ho)].
  - left. auto.
  - right. split; [lia|]. exists mid, r, tail.
    rewrite Z.sub_0_r in Ho. exact Ho.
Qed.


(** X6.  [WithRetry] returns for every operation, context and policy,
    and it invokes the operation at most [1 + MaxRetries] times: not at
    all when [MaxRetries] is negative, at least once otherwise.  The
    invocations counted are those of the operation in the world: the
    trace is what the run did from the world it was started in to the
    world it returns. *)
Theorem WithRetry_invocation_bound config logger w :
  ∃ o, run config logger w = Some o
    ∧ performed fn wait calculateDelay (resolve config) 0 w (trace o) (world o)
    ∧ 0 ≤ invocations (trace o) ≤ Z.max 0 (1 + MaxRetries (resolve config))
    ∧ (invocations (trace o) = 0 ↔ MaxRetries (resolve config) < 0).
Proof.
  destruct (WithRetry_run config logger w)
    as (o & Ho & [(Hneg & _ & Htr)
                 | (Hpos & mid & r & tail & Htr & _ & _ & Hlen & _ & Htl & _)]);
    exists o; (split; [exact Ho|]);
    (split; [exact (WithRetry_performed fn wait calculateDelay config logger w o Ho)|]);
    unfold invocations; rewrite Htr.
  - cbn [calls length]. lia.
  - rewrite calls_app. cbn [calls]. rewrite Htl, length_app. cbn [length]. lia.
Qed.


(** X8.  [WithRetry] returns nil exactly when the last invocation
    succeeded, or when [MaxRetries] is negative and there was none.
    The invocations are those of the operation in the world: the trace
    is what the run did from the world it was started in to the world
    it returns. *)
Theorem WithRetry_nil_iff_last_succeeded config logger w :
  ∃ o, run config logger w = Some o
    ∧ performed fn wait calculateDelay (resolve config) 0 w (trace o) (world o)
    ∧ (ret o = None
       ↔ MaxRetries (resolve config) < 0 ∨ last (calls (trace o)) = Some None).
Proof.
  destruct (WithRetry_run config logger w)
    as (o & Ho & [(Hneg & Hret & Htr)
                 | (Hpos & mid & r0 & tail & Htr & _ & _ & _ & _ & Htl & Hend)]);
    exists o; (split; [exact Ho|]);
    (split; [exact (WithRetry_performed fn wait calculateDelay config logger w o Ho)|]).
  - split; [auto | intros _; exact Hret].
  - rewrite Htr, calls_app. cbn [calls]. rewrite Htl, last_snoc.
    destruct Hend as [(_ & Hret & _) | (front & kind & delay & c & w0 & _ & _ & Hret & Hr0 & _)].
    + rewrite Hret. split; [intros ->; auto | intros [? | [= ->]]; [lia | reflexivity]].
    + rewrite Hret. split; [discriminate|]. intros [? | [= ->]]; [lia | discriminate].
Qed.



(** X11.  A failure that is not an [OpenRouterError], such as the
    wrapped transport failure [doRequest] returns, is retried although
    [IsRetryableError] answers false for it: when the operation fails
    that way on every invocation, [MaxRetries] is not negative and the
    context ends no wait, [WithRetry] invokes the operation
    [1 + MaxRetries] times, returns the last failure, and every wait is
    a backoff wait.  The invocations are those of the operation in the
    world: the trace is what the run did from the world it was started
    in to the world it returns. *)
Theorem unstructured_failures_are_retried config logger w :
  0 ≤ MaxRetries (resolve config) →
  (∀ w0, ∃ err, (fn w0).1 = Some err ∧ asOpenRouterError err = None) →
  neverDone wait →
  ∃ o, run config logger w = Some o
    ∧ performed fn wait calculateDelay (resolve config) 0 w (trace o) (world o)
    ∧ invocations (trace o) = 1 + MaxRetries (resolve config)
    ∧ last (calls (trace o)) = Some (ret o)
    ∧ (∃ err, ret o = Some err ∧ IsRetryableError err = false)
    ∧ Forall (λ x, x.1.2 = Backoff) (waitsAfter None (trace o)).
Proof.
  intros Hpos Hfn Hnd.
  assert (Hplain : ∀ w0, retried (fn w0).1 = true ∧ suggested (fn w0).1 = None).
  { intros w0. destruct (Hfn w0) as (err & -> & Has).
    unfold retried, suggested. rewrite Has. auto. }
  destruct (WithRetry_run config logger w)
    as (o & Ho & [(Hneg & _ & _)
                 | (_ & mid & r0 & tail & Htr & Hre & _ & Hlen & [w1 Hr0] & Htl & Hend)]);
    [lia|].
  exists o. split; [exact Ho|].
  split; [exact (WithRetry_performed fn wait calculateDelay config logger w o Ho)|].
  destruct Hend as [(-> & Hret & Hwhy) | (front & kind & delay & c & w0 & _ & _ & _ & _ & Hw)].
  2: { rewrite (Hnd delay w0) in Hw. discriminate. }
  destruct Hwhy as [Hno | Hall].
  { rewrite Hr0 in Hno. destruct (Hplain w1). congruence. }
  unfold invocations. rewrite Htr, calls_app. cbn [calls].
  rewrite length_app, last_snoc. cbn [length].
  split; [lia|]. split; [rewrite Hret; reflexivity|]. split.
  - destruct (Hfn w1) as (err & Herr & Has). exists err.
    split; [rewrite Hret, Hr0; exact Herr|].
    unfold IsRetryableError. rewrite Has. reflexivity.
  - rewrite <- Htr.
    assert (Hw : Forall waitChosen (waitsAfter None (trace o))).
    { eapply retryLoop_waits; [exact Ho | constructor]. }
    assert (Hall' : ∀ r, r ∈ calls (trace o) → suggested r = None).
    { rewrite Htr, calls_app. cbn [calls]. intros r Hin.
      apply elem_of_app in Hin as [Hin | Hin].
      - rewrite Forall_forall in Hre. destruct (Hre _ Hin) as (_ & w2 & ->).
        apply Hplain.
      - apply list_elem_of_singleton in Hin as ->. rewrite Hr0. apply Hplain. }
    clear - Hw Hall'.
    assert (Hgen : ∀ tr r, suggested r = None → (∀ r', r' ∈ calls tr → suggested r' = None) →
      Forall waitChosen (waitsAfter r tr) → Forall (λ x, x.1.2 = Backoff) (waitsAfter r tr)).
    { induction tr as [|ev tr IH]; intros r Hr Hc Hf; [constructor|].
      destruct ev as [r' | l | kind delay done]; cbn [waitsAfter calls] in *.
      - apply IH; [apply Hc, list_elem_of_here | | exact Hf].
        intros r'' Hin. apply Hc, list_elem_of_further, Hin.
      - apply IH; assumption.
      - inversion Hf as [|? ? Hx Hrest]; subst. constructor.
        + destruct Hx as [_ Hx]. rewrite Hr in Hx. exact Hx.
        + apply IH; assumption. }
    apply Hgen; [reflexivity | exact Hall' | exact Hw].
Qed.

End RunFacts.

(** X11 on an operation that always fails the way [doRequest] does
    when the transport fails. *)
Lemma unstructured_failures_are_retried_witness :
  ∃ o, WithRetry
         (Sim.fn (ErrWrapf "request failed: " (ErrText "connection refused")) None)
         Sim.sleep Sim.doubling
         (Some (Sim.config 2 (1 * Millisecond) (10 * Millisecond))) None
         (Sim.start None) = Some o
    ∧ invocations (trace o) = 3
    ∧ ret o = Some (ErrWrapf "request failed: " (ErrText "connection refused"))
    ∧ waitsAfter None (trace o) =
      [(Some (ErrWrapf "request failed: " (ErrText "connection refused")),
        Backoff, 1 * Millisecond);
       (Some (ErrWrapf "request failed: " (ErrText "connection refused")),
        Backoff, 2 * Millisecond)]
    ∧ Sim.callCount (world o) = 3.
Proof.
  destruct (unstructured_failures_are_retried
              (Sim.fn (ErrWrapf "request failed: " (ErrText "connection refused")) None)
              Sim.sleep Sim.doubling
              (Some (Sim.config 2 (1 * Millisecond) (10 * Millisecond))) None
              (Sim.start None))
    as (o & Hrun & _ & Hinv & _).
  - cbn. lia.
  - intros w. eexists. split; reflexivity.
  - intros d w. reflexivity.
  - exists o. split; [exact Hrun|]. split; [exact Hinv|].
    vm_compute in Hrun. injection Hrun as <-. repeat split; reflexivity.
Defined.

(** ** More on the Error Classifier *)

Section VerdictFacts.
Context `{go : GoLib}.

Lemma statusTable_retryable statusCode errorCode headers :
  (statusTable statusCode errorCode headers).1.1 = true
  ↔ statusCode = 429 ∨ 500 ≤ statusCode.
Proof.
  unfold statusTable.
  repeat match goal with
         | |- context [Z.eqb statusCode ?k] => destruct (Z.eqb_spec statusCode k)
         | |- context [Z.geb statusCode ?k] =>
             rewrite (Z.geb_leb statusCode k); destruct (Z.leb_spec k statusCode)
         end; cbn [fst snd]; split; (discriminate || lia || auto).
Qed.

Lemma statusTable_message statusCode errorCode headers :
  (statusTable statusCode errorCode headers).1.2 ≠ "".
Proof.
  unfold statusTable.
  repeat match goal with
         | |- context [if ?b then _ else _] => destruct b
         end; cbn [fst snd]; discriminate.
Qed.

(** X12.  The verdict of the classifier in full: an error is retryable
    exactly when its lower-cased type is [model_overloaded] or
    [model_unavailable], or when the type is not [insufficient_quota]
    and the status is 429 or at least 500.  The same holds of every
    error [ParseError] builds, for the type and status it stores. *)
Theorem retryable_iff_type_or_status :
  (∀ statusCode errorCode errorType headers,
     (categorizeError statusCode errorCode errorType headers).1.1 = true
     ↔ ToLower errorType = "model_overloaded"
       ∨ ToLower errorType = "model_unavailable"
       ∨ (ToLower errorType ≠ "insufficient_quota"
          ∧ (statusCode = 429 ∨ 500 ≤ statusCode)))
  ∧ (∀ resp body,
       let e := ParseError resp body in
       IsRetryable e = true
       ↔ ToLower (ErrorType e) = "model_overloaded"
         ∨ ToLower (ErrorType e) = "model_unavailable"
         ∨ (ToLower (ErrorType e) ≠ "insufficient_quota"
            ∧ (StatusCode e = 429 ∨ 500 ≤ StatusCode e))).
Proof.
  assert (Hcat : ∀ statusCode errorCode errorType headers,
     (categorizeError statusCode errorCode errorType headers).1.1 = true
     ↔ ToLower errorType = "model_overloaded"
       ∨ ToLower errorType = "model_unavailable"
       ∨ (ToLower errorType ≠ "insufficient_quota"
          ∧ (statusCode = 429 ∨ 500 ≤ statusCode))).
  { intros statusCode errorCode errorType headers.
    unfold categorizeError, errorTypeOverride.
    pose proof (statusTable_retryable statusCode errorCode headers) as Ht.
    destruct (statusTable statusCode errorCode headers) as [[r m] a]. cbn [fst snd] in Ht.
    destruct (String.eqb_spec (ToLower errorType) "insufficient_quota") as [Eq | Nq].
    { cbn [fst]. rewrite Eq. split; [discriminate|].
      intros [? | [? | [? _]]]; [discriminate | discriminate | done]. }
    destruct (String.eqb_spec (ToLower errorType) "model_overloaded") as [Eo | No].
    { cbn [fst]. split; auto. }
    destruct (String.eqb_spec (ToLower errorType) "model_unavailable") as [Eu | Nu].
    { cbn [fst]. split; auto. }
    cbn [fst]. rewrite Ht. split; [auto|]. intros [? | [? | [_ ?]]]; done. }
  split; [exact Hcat|].
  intros resp body e. subst e.
  destruct (ParseError_classified resp body) as [Hs Hc]. cbn zeta in Hs, Hc.
  rewrite Hs. rewrite <- Hcat with (errorCode := ErrorCode (ParseError resp body))
    (headers := resp_Header resp).
  rewrite <- Hc. reflexivity.
Qed.

(** X13.  The classifier never leaves the user message empty, so
    [GetUserMessage] of an error built by [ParseError] is that message
    and never falls back to the raw message of the API, and
    [GetUserFriendlyMessage] of such an error is never empty. *)
Theorem parsed_error_has_user_message resp body :
  let e := ParseError resp body in
  UserMessage e ≠ ""
  ∧ GetUserMessage e = UserMessage e
  ∧ GetUserFriendlyMessage (ErrOpenRouter e) ≠ "".
Proof.
  intros e.
  assert (Hne : UserMessage e ≠ "").
  { subst e. destruct (ParseError_classified resp body) as [_ Hc]. cbn zeta in Hc.
    set (c := categorizeError _ _ _ _) in Hc.
    assert (Hm : c.1.2 ≠ "").
    { subst c. unfold categorizeError, errorTypeOverride.
      pose proof (statusTable_message (resp_StatusCode resp)
                    (ErrorCode (ParseError resp body)) (resp_Header resp)) as Ht.
      destruct (statusTable _ _ _) as [[r m] a]. cbn [fst snd] in Ht.
      repeat match goal with
             | |- context [if ?b then _ else _] => destruct b
             end; cbn [fst snd]; (discriminate || exact Ht). }
    rewrite <- Hc in Hm. exact Hm. }
  assert (Hget : GetUserMessage e = UserMessage e).
  { unfold GetUserMessage.
    destruct (String.eqb_spec (UserMessage e) ""); [done | reflexivity]. }
  split; [exact Hne|]. split; [exact Hget|].
  cbn [GetUserFriendlyMessage asOpenRouterError]. rewrite Hget. exact Hne.
Qed.

End VerdictFacts.

(** ** The conversation cache of the chat command *)

Lemma wrap64_add_l a b : wrap64 (wrap64 a + b) = wrap64 (a + b).
Proof.
  unfold wrap64. f_equal.
  replace ((a + 2 ^ 63) mod 2 ^ 64 - 2 ^ 63 + b + 2 ^ 63)
    with ((a + 2 ^ 63) mod 2 ^ 64 + b) by lia.
  rewrite Zplus_mod_idemp_l. f_equal. lia.
Qed.

Lemma wrap64_sub_l a b : wrap64 (wrap64 a - b) = wrap64 (a - b).
Proof. apply (wrap64_add_l a (- b)). Qed.

Section TokenFacts.
Variable Encode : string → string → list Z.

Abbreviation countTokens := (Gpt.countOpenRouterMessageTokens Encode).
Abbreviation countAll := (Gpt.countAllOpenRouterMessagesTokens Encode).
Abbreviation adjust := (Gpt.adjustMessageTokens Encode).
Abbreviation remaining := (Gpt.remaining Encode).

(** The count of one message for a model, as a number. *)
Abbreviation tokensOf model :=
  (λ m, default 0 (Gpt.countOpenRouterMessageTokens Encode m model)).

Lemma tokensConfiguration_ok model : (Gpt._tokensConfiguration model).1.1 = true.
Proof.
  unfold Gpt._tokensConfiguration.
  repeat match goal with
         | |- context [if ?b then _ else _] => destruct b
         end; reflexivity.
Qed.

(** Every model gets a configuration, so a message always has a count. *)
Lemma countOpenRouterMessageTokens_some m model :
  countTokens m model = Some (tokensOf model m).
Proof.
  unfold Gpt.countOpenRouterMessageTokens.
  pose proof (tokensConfiguration_ok (Gpt.extractBaseModel model)) as Hok.
  destruct (Gpt._tokensConfiguration (Gpt.extractBaseModel model)) as [[ok tpm] tpn].
  cbn [fst] in Hok. subst ok. reflexivity.
Qed.

Lemma adjustLoop_spec limit model : ∀ messages tokenCount,
  match Gpt.adjustLoop Encode limit model messages tokenCount with
  | Some (messages', tokenCount') =>
      ∃ k, (k ≤ length messages)%nat
        ∧ messages' = drop k messages
        ∧ tokenCount' = remaining model messages tokenCount k
        ∧ tokenCount' ≤ limit
        ∧ ∀ j, (j < k)%nat → limit < remaining model messages tokenCount j
  | None =>
      ∀ j, (j ≤ length messages)%nat → limit < remaining model messages tokenCount j
  end.
Proof.
  induction messages as [|m rest IH]; intros tokenCount; cbn [Gpt.adjustLoop].
  - destruct (Z.gtb_spec tokenCount limit) as [Hgt | Hle].
    + intros j Hj. unfold Gpt.remaining. rewrite take_nil. cbn. lia.
    + exists O. cbn. repeat split; [lia | lia | intros j Hj; lia].
  - destruct (Z.gtb_spec tokenCount limit) as [Hgt | Hle].
    + rewrite countOpenRouterMessageTokens_some.
      specialize (IH (wrap64 (tokenCount - tokensOf model m))).
      destruct (Gpt.adjustLoop Encode limit model rest _) as [[messages' tokenCount']|].
      * destruct IH as (k & Hk & Hd & Ht & Hl & Hmin).
        exists (S k). cbn [length drop]. split; [lia|]. split; [exact Hd|].
        split; [exact Ht|]. split; [exact Hl|].
        intros [|j] Hj; [cbn; lia | apply Hmin; lia].
      * intros [|j] Hj; [cbn; lia | apply IH; cbn [length] in Hj; lia].
    + exists O. cbn. repeat split; [lia | lia | intros j Hj; lia].
Qed.

(** X14.  For a model without a truncate limit [adjustMessageTokens]
    changes nothing.  For a model with one it drops the fewest oldest
    messages that bring the token count down to the limit, takes their
    counts off [TokenCount] in 64-bit arithmetic, and leaves the model
    and the system message alone; it panics exactly when dropping every
    message still leaves the count above the limit. *)
Theorem adjustMessageTokens_drops_oldest (c : Gpt.MessagesCacheData) :
  match Gpt.modelTruncateLimit (Gpt.Model c) with
  | None => adjust c = Some c
  | Some limit =>
      let left := remaining (Gpt.Model c) (Gpt.Messages c) (Gpt.TokenCount c) in
      match adjust c with
      | Some c' =>
          ∃ k, (k ≤ length (Gpt.Messages c))%nat
            ∧ Gpt.Messages c' = drop k (Gpt.Messages c)
            ∧ Gpt.TokenCount c' = left k
            ∧ left k ≤ limit
            ∧ (∀ j, (j < k)%nat → limit < left j)
            ∧ Gpt.Model c' = Gpt.Model c
            ∧ Gpt.SystemMessage c' = Gpt.SystemMessage c
      | None => ∀ j, (j ≤ length (Gpt.Messages c))%nat → limit < left j
      end
  end.
Proof.
  unfold Gpt.adjustMessageTokens.
  destruct (Gpt.modelTruncateLimit (Gpt.Model c)) as [limit|]; [|reflexivity].
  pose proof (adjustLoop_spec limit (Gpt.Model c) (Gpt.Messages c) (Gpt.TokenCount c)) as H.
  destruct (Gpt.adjustLoop Encode limit (Gpt.Model c) (Gpt.Messages c) (Gpt.TokenCount c))
    as [[messages' tokenCount']|]; cbn zeta.
  - destruct H as (k & Hk & Hd & Ht & Hl & Hmin). exists k. cbn.
    rewrite <- Ht. auto 10.
  - exact H.
Qed.

(** The plain sum of the counts of some messages. *)
Abbreviation total model :=
  (foldr (λ m acc, tokensOf model m + acc) 0).

Lemma fold_left_wrap64 (f : ChatCompletionMessage → Z) messages t :
  fold_left (λ tokens m, wrap64 (tokens + f m)) messages (wrap64 t)
  = wrap64 (t + foldr (λ m acc, f m + acc) 0 messages).
Proof.
  revert t. induction messages as [|m rest IH]; intros t; cbn [fold_left foldr].
  - f_equal. lia.
  - rewrite wrap64_add_l, IH. f_equal. lia.
Qed.

(** What [countAllOpenRouterMessagesTokens] returns: the sum of the
    counts of the messages and of the system message, plus 3, in 64-bit
    arithmetic. *)
Lemma countAll_sum systemMessage messages model :
  countAll systemMessage messages model =
  Some (wrap64 (total model messages
                + from_option (tokensOf model) 0 systemMessage + 3)).
Proof.
  unfold Gpt.countAllOpenRouterMessagesTokens, Gpt.countOpenRouterMessageTokens.
  pose proof (tokensConfiguration_ok (Gpt.extractBaseModel model)) as Hok.
  destruct (Gpt._tokensConfiguration (Gpt.extractBaseModel model)) as [[ok tpm] tpn].
  cbn [fst] in Hok. subst ok. cbn [negb default]. apply (f_equal Some).
  pose proof (fold_left_wrap64
                (Gpt._countMessageTokens (Encode (Gpt.extractBaseModel model)) tpm tpn)
                messages 0) as Hf.
  change (wrap64 0) with 0 in Hf. rewrite Hf.
  destruct systemMessage as [sys|]; cbn [from_option].
  - rewrite (wrap64_add_l (0 + _)), wrap64_add_l. unfold id. f_equal; lia.
  - rewrite wrap64_add_l. unfold id. f_equal; lia.
Qed.

Lemma adjustLoop_exact limit model x : ∀ messages tokenCount messages' tokenCount',
  tokenCount = wrap64 (total model messages + x) →
  Gpt.adjustLoop Encode limit model messages tokenCount = Some (messages', tokenCount') →
  tokenCount' = wrap64 (total model messages' + x).
Proof.
  induction messages as [|m rest IH]; intros tokenCount messages' tokenCount' Ht;
    cbn [Gpt.adjustLoop]; destruct (tokenCount >? limit).
  - discriminate.
  - intros [= <- <-]. exact Ht.
  - rewrite countOpenRouterMessageTokens_some. apply IH.
    rewrite Ht, wrap64_sub_l. cbn [foldr]. f_equal. lia.
  - intros [= <- <-]. exact Ht.
Qed.

(** X15.  [adjustMessageTokens] keeps the token count exact: when
    [TokenCount] is what [countAllOpenRouterMessagesTokens] gives for
    the conversation, as [isCacheItemWithinTruncateLimit] sets it, it
    still is for the conversation left after the oldest messages were
    dropped. *)
Theorem adjustMessageTokens_keeps_count_exact (c c' : Gpt.MessagesCacheData) :
  countAll (Gpt.SystemMessage c) (Gpt.Messages c) (Gpt.Model c) = Some (Gpt.TokenCount c) →
  adjust c = Some c' →
  countAll (Gpt.SystemMessage c') (Gpt.Messages c') (Gpt.Model c')
  = Some (Gpt.TokenCount c').
Proof.
  rewrite !countAll_sum. intros [= Hc]. unfold Gpt.adjustMessageTokens.
  destruct (Gpt.modelTruncateLimit (Gpt.Model c)) as [limit|].
  2: { intros [= <-]. rewrite Hc. reflexivity. }
  destruct (Gpt.adjustLoop Encode limit (Gpt.Model c) (Gpt.Messages c) (Gpt.TokenCount c))
    as [[messages' tokenCount']|] eqn:Hl; [|discriminate].
  intros [= <-]. cbn. f_equal. symmetry.
  rewrite <- Z.add_assoc.
  eapply adjustLoop_exact; [|exact Hl].
  rewrite <- Hc. f_equal. lia.
Qed.

(** X27.  Counting, adjusting and counting again agree: when
    [isCacheItemWithinTruncateLimit] finds a conversation above the
    limit of its model and [adjustMessageTokens] then returns, at least
    one message is gone and [isCacheItemWithinTruncateLimit] finds what
    is left within the limit, with the token count the adjustment left. *)
Theorem adjusted_conversation_within_limit (c c1 c2 : Gpt.MessagesCacheData) n :
  Gpt.isCacheItemWithinTruncateLimit Encode c = (false, n, c1) →
  adjust c1 = Some c2 →
  Gpt.isCacheItemWithinTruncateLimit Encode c2 = (true, Gpt.TokenCount c2, c2)
  ∧ ∃ k, (0 < k ≤ length (Gpt.Messages c))%nat
      ∧ Gpt.Messages c2 = drop k (Gpt.Messages c).
Proof.
  unfold Gpt.isCacheItemWithinTruncateLimit at 1.
  destruct (Gpt.modelTruncateLimit (Gpt.Model c)) as [limit|] eqn:Hlim; [|discriminate].
  rewrite countAll_sum.
  destruct (Z.leb_spec
              (wrap64 (total (Gpt.Model c) (Gpt.Messages c)
                       + from_option (tokensOf (Gpt.Model c)) 0 (Gpt.SystemMessage c) + 3))
              limit) as [|Hgt]; [discriminate|].
  intros [= <- <-]. unfold Gpt.adjustMessageTokens. cbn [Gpt.Model Gpt.Messages Gpt.TokenCount
    Gpt.SystemMessage]. rewrite Hlim.
  set (tokens := wrap64 _) in *.
  pose proof (adjustLoop_spec limit (Gpt.Model c) (Gpt.Messages c) tokens) as Hspec.
  destruct (Gpt.adjustLoop Encode limit (Gpt.Model c) (Gpt.Messages c) tokens)
    as [[messages' tokenCount']|] eqn:Hl; [|discriminate].
  intros [= <-].
  destruct Hspec as (k & Hk & Hd & Ht & Hle & Hmin).
  assert (Hexact : tokenCount' =
    wrap64 (total (Gpt.Model c) messages'
            + (from_option (tokensOf (Gpt.Model c)) 0 (Gpt.SystemMessage c) + 3))).
  { eapply adjustLoop_exact; [|exact Hl]. subst tokens. f_equal. lia. }
  split.
  - unfold Gpt.isCacheItemWithinTruncateLimit.
    cbn [Gpt.Model Gpt.Messages Gpt.TokenCount Gpt.SystemMessage]. rewrite Hlim, countAll_sum.
    rewrite <- Z.add_assoc, <- Hexact.
    destruct (Z.leb_spec tokenCount' limit); [reflexivity | lia].
  - exists k. cbn [Gpt.Messages]. split; [|exact Hd]. split; [|exact Hk].
    destruct k as [|k]; [|lia].
    change (tokenCount' = tokens) in Ht. lia.
Qed.

End TokenFacts.

(** X14 and X15 on that conversation: it is above the limit of 6500,
    the oldest message goes, and the count that is left is the count of
    what is left. *)
Lemma adjustMessageTokens_keeps_count_exact_witness :
  6500 < Gpt.TokenCount Gpt.longConversation
  ∧ ∃ c', Gpt.adjustMessageTokens (λ _, Gpt.Encode_bytes) Gpt.longConversation = Some c'
    ∧ Gpt.Messages c' = drop 1 (Gpt.Messages Gpt.longConversation)
    ∧ Gpt.countAllOpenRouterMessagesTokens (λ _, Gpt.Encode_bytes)
        (Gpt.SystemMessage c') (Gpt.Messages c') (Gpt.Model c')
      = Some (Gpt.TokenCount c').
Proof.
  split; [vm_compute; reflexivity|].
  eexists. split; [vm_compute; reflexivity|]. split; [reflexivity|].
  apply (adjustMessageTokens_keeps_count_exact (λ _, Gpt.Encode_bytes) Gpt.longConversation);
    vm_compute; reflexivity.
Defined.

(** X27 on the same conversation. *)
Lemma adjusted_conversation_within_limit_witness :
  (Gpt.isCacheItemWithinTruncateLimit (λ _, Gpt.Encode_bytes) Gpt.uncounted).1.1 = false
  ∧ ∃ c2, Gpt.adjustMessageTokens (λ _, Gpt.Encode_bytes) Gpt.longConversation = Some c2
      ∧ Gpt.isCacheItemWithinTruncateLimit (λ _, Gpt.Encode_bytes) c2
        = (true, Gpt.TokenCount c2, c2).
Proof.
  split; [vm_compute; reflexivity|].
  eexists. split; [vm_compute; reflexivity|].
  eapply (adjusted_conversation_within_limit (λ _, Gpt.Encode_bytes) Gpt.uncounted
            Gpt.longConversation); vm_compute; reflexivity.
Defined.

(** ** Sending the conversation *)

Lemma validateMessages_app msgs1 : ∀ i msgs2,
  validateMessages i (msgs1 ++ msgs2) =
  match validateMessages i msgs1 with
  | Some err => Some err
  | None => validateMessages (i + Z.of_nat (length msgs1)) msgs2
  end.
Proof.
  induction msgs1 as [|msg rest IH]; intros i msgs2; cbn [app validateMessages length].
  - f_equal. lia.
  - destruct (Role msg =? "")%string; [reflexivity|].
    destruct (Content msg =? "")%string; [reflexivity|].
    rewrite IH. destruct (validateMessages (i + 1) rest); [reflexivity|].
    f_equal. lia.
Qed.

(** A valid request stops being valid at the message added to it when
    that message has no content. *)
Lemma Validate_spoiled model msgs role :
  ChatCompletionRequest_Validate (mkChatCompletionRequest model msgs) = None →
  role ≠ "" →
  ChatCompletionRequest_Validate
    (mkChatCompletionRequest model (msgs ++ [mkChatCompletionMessage role "" ""]))
  = Some (ErrText ("message " +:+ itoa (Z.of_nat (length msgs))
                   +:+ ": content is required")).
Proof.
  unfold ChatCompletionRequest_Validate. cbn [Chat_Model Messages].
  destruct (model =? "")%string; [discriminate|].
  destruct msgs as [|m ms]; [discriminate|]. intros Hv Hrole.
  cbn [app].
  change (validateMessages 0 (m :: (ms ++ [mkChatCompletionMessage role "" ""])))
    with (validateMessages 0 ((m :: ms) ++ [mkChatCompletionMessage role "" ""])).
  rewrite validateMessages_app, Hv. cbn [validateMessages Role Content].
  destruct (String.eqb_spec role ""); [done|].
  rewrite Z.add_0_l. reflexivity.
Qed.

Section SendFacts.
Context `{go : GoLib}.
Variable decodeChat : string → error + ChatCompletionResponse.

Abbreviation complete := (CreateChatCompletion zeroChatCompletionResponse decodeChat).
Abbreviation send := (Gpt.sendOpenRouterRequest decodeChat).

(** A chat completion succeeds only on a valid request, with a response
    below 400 whose body decodes. *)
Lemma CreateChatCompletion_success c req x log resp :
  complete c req x = (log, inr resp) →
  ChatCompletionRequest_Validate req = None
  ∧ ∃ r body, roundTrip x = Received r body
      ∧ resp_StatusCode r < 400 ∧ decodeChat body = inr resp.
Proof.
  unfold CreateChatCompletion.
  destruct (ChatCompletionRequest_Validate req); [discriminate|].
  destruct (buildRequest c "POST" "/chat/completions" (Some (marshal x)) (newRequest x))
    as [l1 [err|httpReq]]; [discriminate|].
  unfold doRequest.
  destruct (roundTrip x) as [err|r err|r body]; [discriminate | discriminate|].
  destruct (Z.geb_spec (resp_StatusCode r) 400) as [Hge | Hlt].
  { destruct (Unmarshal body); discriminate. }
  destruct (decodeChat body) as [err|v] eqn:Hd; [discriminate|].
  cbn [filled]. intros [= _ <-]. split; [reflexivity|]. exists r, body. auto.
Qed.

(** X16.  What [sendOpenRouterRequest] does to the conversation.  When
    it ends with an error or panics, the cache item is as it was.  When
    it ends with a response, the exchange gave a status below 400 and a
    body that decodes with at least one choice; the content returned is
    that of the first choice, the cache item has one more message, that
    content with the role [assistant], and the total of the usage as
    its token count; the system message is not stored among the
    messages. *)
Theorem sendOpenRouterRequest_outcomes client (c : Gpt.MessagesCacheData) x :
  match (send client c x).2 with
  | Gpt.Replied r =>
      Gpt.Messages (send client c x).1.2 =
        Gpt.Messages c ++ [mkChatCompletionMessage "assistant" (Gpt.content r) ""]
      ∧ Gpt.TokenCount (send client c x).1.2 = TotalTokens (Gpt.usage r)
      ∧ Gpt.SystemMessage (send client c x).1.2 = Gpt.SystemMessage c
      ∧ Gpt.Model (send client c x).1.2 = Gpt.Model c
      ∧ ∃ resp body choice rest,
          roundTrip x = Received resp body
          ∧ resp_StatusCode resp < 400
          ∧ decodeChat body = inr (mkChatCompletionResponse (choice :: rest) (Gpt.usage r))
          ∧ Gpt.content r = Content (Choice_Message choice)
  | Gpt.Failed _ | Gpt.IndexOutOfRange => (send client c x).1.2 = c
  end.
Proof.
  unfold Gpt.sendOpenRouterRequest.
  destruct (complete client _ x) as [log [err|resp]] eqn:Hc; [reflexivity|].
  apply CreateChatCompletion_success in Hc as (_ & r & body & Hrt & Hlt & Hd).
  destruct resp as [[|choice rest] u]; cbn [Choices]; [reflexivity|].
  cbn. repeat (split; [reflexivity|]).
  exists r, body, choice, rest. auto.
Qed.

(** X17.  A reply with empty content spoils the conversation: the
    assistant message stored for it has no content, so every later
    [sendOpenRouterRequest] on that cache item, with whatever client
    and exchange, fails the validation of the request at that message,
    before anything is sent, and leaves the cache item as it is. *)
Theorem empty_reply_spoils_conversation client (c : Gpt.MessagesCacheData) x r :
  (send client c x).2 = Gpt.Replied r →
  Gpt.content r = "" →
  ∀ client' x',
    let c' := (send client c x).1.2 in
    let err :=
      ErrText ("message "
               +:+ itoa (Z.of_nat (length (option_list (Gpt.SystemMessage c))
                                   + length (Gpt.Messages c)))
               +:+ ": content is required") in
    send client' c' x' =
    ([LogError err "Chat completion request validation"], c',
     Gpt.Failed (ErrWrapf "invalid request: " err)).
Proof.
  unfold Gpt.sendOpenRouterRequest at 1 2 3.
  destruct (complete client _ x) as [log [e|resp]] eqn:Hc; [discriminate|].
  apply CreateChatCompletion_success in Hc as (Hv & _).
  destruct resp as [[|choice rest] u]; cbn [Choices]; [discriminate|].
  cbn [snd fst]. intros [= <-]. cbn [Gpt.content]. intros -> client' x'. cbn zeta.
  unfold Gpt.sendOpenRouterRequest, CreateChatCompletion.
  cbn [Gpt.SystemMessage Gpt.Messages Gpt.Model].
  assert (Hreq : ∀ more,
    match Gpt.SystemMessage c with
    | Some systemMessage => [systemMessage] ++ more
    | None => more
    end = option_list (Gpt.SystemMessage c) ++ more).
  { intros more. destruct (Gpt.SystemMessage c); reflexivity. }
  rewrite Hreq in Hv |- *. rewrite app_assoc.
  rewrite (Validate_spoiled _ _ "assistant" Hv) by discriminate.
  rewrite length_app. reflexivity.
Qed.

End SendFacts.

(** X17 on a reply without content to a conversation with a system
    message and one user message: the next request fails at message 2. *)
Lemma empty_reply_spoils_conversation_witness :
  let x := Sim.exchange (Received (mkResponse 200 ∅) "{}") in
  let sent := Gpt.sendOpenRouterRequest (go := Ref.lib) Gpt.emptyReply
                Sim.client Gpt.greeting x in
  sent.2 = Gpt.Replied (Gpt.mkChatGPTResponse "" (mkUsage 5 0 5))
  ∧ (Gpt.sendOpenRouterRequest (go := Ref.lib) Gpt.emptyReply Sim.client sent.1.2 x).2
    = Gpt.Failed (ErrWrapf "invalid request: "
                    (ErrText "message 2: content is required")).
Proof.
  intros x sent.
  assert (H1 : sent.2 = Gpt.Replied (Gpt.mkChatGPTResponse "" (mkUsage 5 0 5))).
  { vm_compute. reflexivity. }
  split; [exact H1|].
  subst sent.
  rewrite (empty_reply_spoils_conversation (go := Ref.lib) Gpt.emptyReply
             Sim.client Gpt.greeting x _ H1 eq_refl Sim.client x).
  vm_compute. reflexivity.
Defined.

(** ** The configuration of the bot *)

Lemma firstWithoutSlash_none models :
  firstWithoutSlash models = None ↔ Forall (λ m, Contains m "/" = true) models.
Proof.
  induction models as [|m rest IH]; cbn [firstWithoutSlash].
  - split; [constructor | reflexivity].
  - destruct (Contains m "/") eqn:Hm; cbn [negb].
    + rewrite IH. split; [intros; constructor; assumption|].
      intros H. inversion H; assumption.
    + split; [discriminate|]. intros H. inversion H; congruence.
Qed.

(** A configuration that needs no default and breaks no rule is
    accepted as it is. *)
Lemma Config_Validate_fixed c :
  Discord_Token c ≠ "" →
  HasPrefix (OpenRouter_APIKey c) "sk-or-v1-" = true →
  HasPrefix (OpenRouter_BaseURL c) "http://" = true
  ∨ HasPrefix (OpenRouter_BaseURL c) "https://" = true →
  OpenRouter_CompletionModels c ≠ [] →
  Forall (λ m, Contains m "/" = true) (OpenRouter_CompletionModels c) →
  OpenRouter_ImageModels c ≠ [] →
  Forall (λ m, Contains m "/" = true) (OpenRouter_ImageModels c) →
  Config_Validate c = (c, None).
Proof.
  intros Htok Hkey Hurl Hcm Hcs Him His. unfold Config_Validate.
  destruct (String.eqb_spec (Discord_Token c) ""); [done|].
  destruct (String.eqb_spec (OpenRouter_APIKey c) "") as [E|_].
  { rewrite E in Hkey. discriminate. }
  rewrite Hkey. cbn [negb].
  destruct (String.eqb_spec (OpenRouter_BaseURL c) "") as [E|_].
  { rewrite E in Hurl. destruct Hurl; discriminate. }
  assert (negb (HasPrefix (OpenRouter_BaseURL c) "http://")
          && negb (HasPrefix (OpenRouter_BaseURL c) "https://") = false) as ->.
  { destruct Hurl as [-> | ->]; [reflexivity | apply andb_false_r]. }
  destruct (OpenRouter_CompletionModels c) as [|cm cms] eqn:Ecm; [done|].
  destruct (OpenRouter_ImageModels c) as [|im ims] eqn:Eim; [done|].
  change (length (cm :: cms) =? 0)%nat with false. cbv iota. rewrite Eim.
  change (length (im :: ims) =? 0)%nat with false. cbv iota. rewrite Ecm, Eim.
  apply firstWithoutSlash_none in Hcs, His. rewrite Hcs, His. reflexivity.
Qed.

(** What [Validate] checked of a configuration it accepts. *)
Lemma Config_Validate_rules c c' :
  Config_Validate c = (c', None) →
  (Discord_Token c' ≠ "" ∧ OpenRouter_APIKey c' = OpenRouter_APIKey c)
  ∧ HasPrefix (OpenRouter_APIKey c') "sk-or-v1-" = true
  ∧ (HasPrefix (OpenRouter_BaseURL c') "http://" = true
     ∨ HasPrefix (OpenRouter_BaseURL c') "https://" = true)
  ∧ OpenRouter_CompletionModels c' ≠ []
  ∧ Forall (λ m, Contains m "/" = true) (OpenRouter_CompletionModels c')
  ∧ OpenRouter_ImageModels c' ≠ []
  ∧ Forall (λ m, Contains m "/" = true) (OpenRouter_ImageModels c').
Proof.
  unfold Config_Validate.
  destruct (String.eqb_spec (Discord_Token c) "") as [|Htok]; [discriminate|].
  destruct (String.eqb_spec (OpenRouter_APIKey c) ""); [discriminate|].
  destruct (HasPrefix (OpenRouter_APIKey c) "sk-or-v1-") eqn:Hkey; [|discriminate].
  cbn [negb].
  set (c1 := if (OpenRouter_BaseURL c =? "")%string then _ else c).
  destruct (HasPrefix (OpenRouter_BaseURL c1) "http://") eqn:Hh;
    [|destruct (HasPrefix (OpenRouter_BaseURL c1) "https://") eqn:Hs; [|discriminate]];
    cbn [negb andb].
  all: set (c2 := if (length (OpenRouter_CompletionModels c1) =? 0)%nat then _ else c1).
  all: set (c3 := if (length (OpenRouter_ImageModels c2) =? 0)%nat then _ else c2).
  all: destruct (firstWithoutSlash (OpenRouter_CompletionModels c3)) eqn:Hcs;
    [discriminate|].
  all: destruct (firstWithoutSlash (OpenRouter_ImageModels c3)) eqn:His;
    [discriminate|].
  all: intros [= <-].
  all: apply firstWithoutSlash_none in Hcs, His.
  all: assert (Hc1 : Discord_Token c1 = Discord_Token c
                     ∧ OpenRouter_APIKey c1 = OpenRouter_APIKey c)
         by (subst c1; destruct (OpenRouter_BaseURL c =? "")%string; auto).
  all: assert (Hc2 : Discord_Token c2 = Discord_Token c1
                     ∧ OpenRouter_APIKey c2 = OpenRouter_APIKey c1
                     ∧ OpenRouter_BaseURL c2 = OpenRouter_BaseURL c1
                     ∧ OpenRouter_CompletionModels c2 ≠ [])
         by (subst c2;
             destruct (Nat.eqb_spec (length (OpenRouter_CompletionModels c1)) 0)
               as [|Hn]; cbn; repeat split; try done;
             intros E; rewrite E in Hn; done).
  all: assert (Hc3 : Discord_Token c3 = Discord_Token c2
                     ∧ OpenRouter_APIKey c3 = OpenRouter_APIKey c2
                     ∧ OpenRouter_BaseURL c3 = OpenRouter_BaseURL c2
                     ∧ OpenRouter_CompletionModels c3 = OpenRouter_CompletionModels c2
                     ∧ OpenRouter_ImageModels c3 ≠ [])
         by (subst c3;
             destruct (Nat.eqb_spec (length (OpenRouter_ImageModels c2)) 0)
               as [|Hn]; cbn; repeat split; try done;
             intros E; rewrite E in Hn; done).
  all: destruct Hc1 as (T1 & K1), Hc2 as (T2 & K2 & U2 & M2),
         Hc3 as (T3 & K3 & U3 & M3 & I3).
  all: rewrite T3, T2, T1, K3, K2, K1, U3, U2, M3.
  all: rewrite M3 in Hcs.
  all: repeat split; auto.
Qed.

(** X18.  A configuration that [Validate] accepts has a Discord token,
    an API key that starts with [sk-or-v1-], a base URL that starts with
    [http://] or [https://], and at least one completion model and one
    image model, every one of them with a slash in its name.  Validating
    it again accepts it and changes nothing. *)
Theorem Config_Validate_accepted c c' :
  Config_Validate c = (c', None) →
  Discord_Token c' ≠ ""
  ∧ HasPrefix (OpenRouter_APIKey c') "sk-or-v1-" = true
  ∧ (HasPrefix (OpenRouter_BaseURL c') "http://" = true
     ∨ HasPrefix (OpenRouter_BaseURL c') "https://" = true)
  ∧ OpenRouter_CompletionModels c' ≠ []
  ∧ Forall (λ m, Contains m "/" = true) (OpenRouter_CompletionModels c')
  ∧ OpenRouter_ImageModels c' ≠ []
  ∧ Forall (λ m, Contains m "/" = true) (OpenRouter_ImageModels c')
  ∧ Config_Validate c' = (c', None).
Proof.
  intros Hv.
  destruct (Config_Validate_rules c c' Hv) as ((H1 & _) & H2 & H3 & H4 & H5 & H6 & H7).
  repeat (split; [assumption|]).
  apply Config_Validate_fixed; assumption.
Qed.

(** X18 on a configuration that gives the token and the key only: the
    three defaults are filled in. *)
Lemma Config_Validate_accepted_witness :
  let c := mkConfig "token" "" false "sk-or-v1-0123" "" "" "" [] [] in
  Config_Validate c =
    (mkConfig "token" "" false "sk-or-v1-0123" "https://openrouter.ai/api/v1" "" ""
       ["openai/gpt-3.5-turbo"] ["openai/dall-e-2"], None)
  ∧ Config_Validate (Config_Validate c).1 = ((Config_Validate c).1, None).
Proof.
  intros c. split; [vm_compute; reflexivity|].
  apply (Config_Validate_accepted c (Config_Validate c).1). vm_compute. reflexivity.
Defined.

(** X19.  [Validate] never overwrites a value that was given, whether
    it accepts the configuration or not: the token, the guild, the flag,
    the API key and the site information come back as they were, and the
    base URL and the two lists of models either come back as they were
    or were empty and hold their default. *)
Theorem Config_Validate_keeps_given c :
  let c' := (Config_Validate c).1 in
  Discord_Token c' = Discord_Token c
  ∧ Discord_Guild c' = Discord_Guild c
  ∧ Discord_RemoveCommands c' = Discord_RemoveCommands c
  ∧ OpenRouter_APIKey c' = OpenRouter_APIKey c
  ∧ OpenRouter_SiteURL c' = OpenRouter_SiteURL c
  ∧ OpenRouter_SiteName c' = OpenRouter_SiteName c
  ∧ (OpenRouter_BaseURL c' = OpenRouter_BaseURL c
     ∨ (OpenRouter_BaseURL c = ""
        ∧ OpenRouter_BaseURL c' = "https://openrouter.ai/api/v1"))
  ∧ (OpenRouter_CompletionModels c' = OpenRouter_CompletionModels c
     ∨ (OpenRouter_CompletionModels c = []
        ∧ OpenRouter_CompletionModels c' = ["openai/gpt-3.5-turbo"]))
  ∧ (OpenRouter_ImageModels c' = OpenRouter_ImageModels c
     ∨ (OpenRouter_ImageModels c = []
        ∧ OpenRouter_ImageModels c' = ["openai/dall-e-2"])).
Proof.
  destruct c as [tok guild rm key url surl sname cms ims].
  unfold Config_Validate.
  cbn [Discord_Token OpenRouter_APIKey OpenRouter_BaseURL].
  destruct (tok =? "")%string; [cbn; auto 10|].
  destruct (key =? "")%string; [cbn; auto 10|].
  destruct (negb (HasPrefix key "sk-or-v1-")); [cbn; auto 10|].
  destruct (String.eqb_spec url "") as [-> | _];
    cbn [withBaseURL Discord_Token Discord_Guild Discord_RemoveCommands
         OpenRouter_APIKey OpenRouter_BaseURL OpenRouter_SiteURL OpenRouter_SiteName
         OpenRouter_CompletionModels OpenRouter_ImageModels];
    (match goal with
     | |- context [if negb (HasPrefix ?u "http://") && negb (HasPrefix ?u "https://")
                   then _ else _] =>
         destruct (negb (HasPrefix u "http://") && negb (HasPrefix u "https://"))
     end; [cbn; auto 10|]);
    destruct cms as [|cm cms], ims as [|im ims];
    cbn [withCompletionModels withImageModels length Nat.eqb
         Discord_Token Discord_Guild Discord_RemoveCommands
         OpenRouter_APIKey OpenRouter_BaseURL OpenRouter_SiteURL OpenRouter_SiteName
         OpenRouter_CompletionModels OpenRouter_ImageModels];
    repeat match goal with
           | |- context [match firstWithoutSlash ?l with _ => _ end] =>
               destruct (firstWithoutSlash l)
           end;
    cbn [fst Discord_Token Discord_Guild Discord_RemoveCommands
         OpenRouter_APIKey OpenRouter_BaseURL OpenRouter_SiteURL OpenRouter_SiteName
         OpenRouter_CompletionModels OpenRouter_ImageModels];
    auto 12.
Qed.

(** ** Requests as they leave the client *)

(** The request [buildRequest] hands out. *)
Lemma buildRequest_request c method endpoint body made l req :
  buildRequest c method endpoint body made = (l, inr req) →
  req = mkRequest method (baseURL c +:+ endpoint) (Req_Path req)
    (let h0 : Header :=
       Header_Set (Header_Set ∅ "Authorization" ("Bearer " +:+ apiKey c))
         "Content-Type" "application/json" in
     let h1 := if negb (siteURL c =? "")%string
               then Header_Set h0 "Http-Referer" (siteURL c) else h0 in
     if negb (siteName c =? "")%string
     then Header_Set h1 "X-Title" (siteName c) else h1)
  ∧ l = [LogRequest req].
Proof.
  unfold buildRequest. intros H.
  destruct body as [[err|js]|], made as [err'|path]; try discriminate;
    injection H as <- <-; split; reflexivity.
Qed.

(** X20.  Every request [buildRequest] hands out is for the base URL of
    the client followed by the endpoint, carries the API key as a bearer
    token and the JSON content type, names the site of the client in
    [Http-Referer] and [X-Title] exactly when the client has one, and
    has no other header. *)
Theorem buildRequest_headers c method endpoint body made l req :
  buildRequest c method endpoint body made = (l, inr req) →
  Req_Method req = method
  ∧ Req_URL req = baseURL c +:+ endpoint
  ∧ Header_Get (Req_Header req) "Authorization" = "Bearer " +:+ apiKey c
  ∧ Header_Get (Req_Header req) "Content-Type" = "application/json"
  ∧ Header_Get (Req_Header req) "Http-Referer" = siteURL c
  ∧ Header_Get (Req_Header req) "X-Title" = siteName c
  ∧ (is_Some (Req_Header req !! "Http-Referer") ↔ siteURL c ≠ "")
  ∧ (is_Some (Req_Header req !! "X-Title") ↔ siteName c ≠ "")
  ∧ ∀ key, is_Some (Req_Header req !! key) →
      key ∈ ["Authorization"; "Content-Type"; "Http-Referer"; "X-Title"].
Proof.
  intros H. apply buildRequest_request in H as [Hreq _]. rewrite Hreq. cbn [Req_Method Req_URL Req_Header]. cbv zeta.
  unfold Header_Get, Header_Set.
  destruct (String.eqb_spec (siteURL c) "") as [-> | Hu];
    destruct (String.eqb_spec (siteName c) "") as [-> | Hn]; cbn [negb];
    (split; [reflexivity|]); (split; [reflexivity|]);
    repeat (split; [by simplify_map_eq|]);
    intros key [v Hv];
    repeat (apply lookup_insert_Some in Hv as [[<- _] | [_ Hv]]; [set_solver|]);
    rewrite lookup_empty in Hv; discriminate.
Qed.

(** X20 on a client configured with a site: the request for the list
    of models. *)
Lemma buildRequest_headers_witness :
  let c := NewClientWithConfig
             {| APIKey := "key"; BaseURL := ""; SiteURL := "https://example.org";
                SiteName := "bot"; Config_Logger := None |} in
  ∃ l req, buildRequest c "GET" "/models" None (inr "/api/v1/models") = (l, inr req)
    ∧ Req_URL req = "https://openrouter.ai/api/v1/models"
    ∧ Header_Get (Req_Header req) "Authorization" = "Bearer key"
    ∧ Header_Get (Req_Header req) "Http-Referer" = "https://example.org".
Proof.
  intros c. eexists _, _. split; [reflexivity|].
  destruct (buildRequest_headers c "GET" "/models" None (inr "/api/v1/models") _ _ eq_refl)
    as (_ & Hu & Ha & _ & Hr & _).
  split; [exact Hu|]. split; [exact Ha | exact Hr].
Defined.

Lemma validateMessages_none msgs : ∀ i,
  validateMessages i msgs = None
  ↔ Forall (λ m, Role m ≠ "" ∧ Content m ≠ "") msgs.
Proof.
  induction msgs as [|msg rest IH]; intros i; cbn [validateMessages].
  - split; [constructor | reflexivity].
  - destruct (String.eqb_spec (Role msg) "") as [Er | Nr].
    { split; [discriminate|]. intros H. inversion H as [|? ? [? ?]]; done. }
    destruct (String.eqb_spec (Content msg) "") as [Ec | Nc].
    { split; [discriminate|]. intros H. inversion H as [|? ? [? ?]]; done. }
    rewrite IH. split; [intros; constructor; auto|].
    intros H. inversion H; assumption.
Qed.

Section ValidationFacts.
Context `{go : GoLib}.
Variable decodeChat : string → error + ChatCompletionResponse.

(** X21.  A chat completion request is valid exactly when it names a
    model and has at least one message, every message with a role and a
    content.  A request that is not valid never reaches the exchange:
    [CreateChatCompletion] returns the validation error, wrapped as an
    invalid request, whatever the exchange would have answered. *)
Theorem chat_request_validated_before_sending c req :
  (ChatCompletionRequest_Validate req = None
   ↔ Chat_Model req ≠ "" ∧ Messages req ≠ []
     ∧ Forall (λ m, Role m ≠ "" ∧ Content m ≠ "") (Messages req))
  ∧ (∀ err, ChatCompletionRequest_Validate req = Some err →
       ∀ x, CreateChatCompletion zeroChatCompletionResponse decodeChat c req x =
            ([LogError err "Chat completion request validation"],
             inl (ErrWrapf "invalid request: " err))).
Proof.
  split.
  - unfold ChatCompletionRequest_Validate.
    destruct (String.eqb_spec (Chat_Model req) "") as [Em | Nm].
    { split; [discriminate | intros (? & _); done]. }
    destruct (Messages req) as [|m ms] eqn:Emsgs.
    { split; [discriminate | intros (_ & ? & _); done]. }
    rewrite validateMessages_none. split; [auto | intros (_ & _ & H); exact H].
  - intros err Hv x. unfold CreateChatCompletion. rewrite Hv. reflexivity.
Qed.

End ValidationFacts.

(** ** The connection test *)

Section PingFacts.
Context `{go : GoLib}.

(** X22.  [Ping] reports success exactly when the request could be
    created and a response with a status below 400 arrived, whatever
    the body of that response is. *)
Theorem Ping_succeeds_iff c x :
  (Ping c x).2 = None
  ↔ ∃ path resp body,
      newRequest x = inr path ∧ roundTrip x = Received resp body
      ∧ resp_StatusCode resp < 400.
Proof.
  unfold Ping, buildRequest.
  destruct (newRequest x) as [err|path].
  { cbn. split; [discriminate | intros (? & ? & ? & ? & _); discriminate]. }
  unfold doRequest.
  destruct (roundTrip x) as [err|resp err|resp body].
  - cbn. split; [discriminate | intros (? & ? & ? & _ & ? & _); discriminate].
  - cbn. split; [discriminate | intros (? & ? & ? & _ & ? & _); discriminate].
  - destruct (Z.geb_spec (resp_StatusCode resp) 400) as [Hge | Hlt].
    + destruct (Unmarshal body); cbn;
        (split; [discriminate | intros (? & ? & ? & _ & [= <- <-] & ?); lia]).
    + cbn. split; [|reflexivity]. intros _. exists path, resp, body. auto.
Qed.

End PingFacts.

(** ** From the configuration to the requests *)

Lemma HasPrefix_append s t prefix :
  HasPrefix s prefix = true → HasPrefix (s +:+ t) prefix = true.
Proof.
  revert s. induction prefix as [|a p IH]; intros s; [intros _; apply HasPrefix_empty|].
  destruct s as [|b r]; [discriminate|].
  change (String b r +:+ t) with (String b (r +:+ t)). cbn [HasPrefix].
  intros [-> H]%andb_true_iff. rewrite (IH _ H). reflexivity.
Qed.

Lemma HasPrefix_split s prefix :
  HasPrefix s prefix = true → ∃ rest, s = prefix +:+ rest.
Proof.
  revert s. induction prefix as [|a p IH]; intros s.
  - exists s. reflexivity.
  - destruct s as [|b r]; [discriminate|]. cbn [HasPrefix].
    intros [Hab H]%andb_true_iff. apply Ascii.eqb_eq in Hab as ->.
    destruct (IH _ H) as [rest ->]. exists rest. reflexivity.
Qed.

(** X23.  The client that [main] builds from a configuration [Validate]
    accepted sends every request to a URL that is the validated base
    URL followed by the endpoint, so one that starts with [http://] or
    [https://], and with a bearer token that starts with [sk-or-v1-]. *)
Theorem validated_config_requests c c' method endpoint body made l req :
  Config_Validate c = (c', None) →
  buildRequest (clientOf c') method endpoint body made = (l, inr req) →
  Req_URL req = OpenRouter_BaseURL c' +:+ endpoint
  ∧ (HasPrefix (Req_URL req) "http://" = true
     ∨ HasPrefix (Req_URL req) "https://" = true)
  ∧ ∃ rest, OpenRouter_APIKey c = "sk-or-v1-" +:+ rest
      ∧ Header_Get (Req_Header req) "Authorization" = "Bearer sk-or-v1-" +:+ rest.
Proof.
  intros Hv Hb.
  destruct (Config_Validate_rules c c' Hv) as ((_ & Hk) & Hkey & Hurl & _).
  apply buildRequest_request in Hb as [-> _]. cbn [Req_URL Req_Header].
  assert (Hbase : baseURL (clientOf c') = OpenRouter_BaseURL c').
  { unfold clientOf, NewClientWithConfig. cbn [baseURL BaseURL].
    destruct (String.eqb_spec (OpenRouter_BaseURL c') "") as [E|_]; [|reflexivity].
    rewrite E in Hurl. destruct Hurl; discriminate. }
  rewrite Hbase. split; [reflexivity|]. split.
  { destruct Hurl as [H | H]; [left | right]; apply HasPrefix_append, H. }
  destruct (HasPrefix_split _ _ Hkey) as [rest Hrest].
  exists rest. split; [rewrite <- Hk; exact Hrest|].
  cbv zeta. unfold Header_Get, Header_Set.
  change (apiKey (clientOf c')) with (OpenRouter_APIKey c'). rewrite Hrest.
  destruct (negb (siteURL (clientOf c') =? "")%string),
    (negb (siteName (clientOf c') =? "")%string); by simplify_map_eq.
Qed.

(** X23 on the configuration with a token and a key only. *)
Lemma validated_config_requests_witness :
  let c := mkConfig "token" "" false "sk-or-v1-0123" "" "" "" [] [] in
  ∃ l req, buildRequest (clientOf (Config_Validate c).1) "GET" "/models" None
             (inr "/api/v1/models") = (l, inr req)
    ∧ Req_URL req = "https://openrouter.ai/api/v1/models"
    ∧ HasPrefix (Req_URL req) "https://" = true.
Proof.
  intros c. eexists _, _. split; [reflexivity|].
  destruct (validated_config_requests c (Config_Validate c).1 "GET" "/models" None
              (inr "/api/v1/models") _ _ eq_refl eq_refl) as (Hu & _ & _).
  split; [exact Hu | reflexivity].
Defined.

(** ** What the logger writes of a request *)

Section LoggerFacts.
Context `{go : GoLib}.

(** X24.  The headers the logger writes for a request of the client do
    not depend on the API key: the authorization is written as
    [Bearer [REDACTED]], the other headers as they are.  The names of
    the four headers are ASCII, on which [strings.ToLower] lowers the
    letters A to Z. *)
Theorem logged_headers_hide_api_key c method endpoint body made l req :
  (∀ key, key ∈ ["Authorization"; "Content-Type"; "Http-Referer"; "X-Title"] →
          ToLower key = Ref.ToLower_ascii key) →
  buildRequest c method endpoint body made = (l, inr req) →
  sanitizedHeaders (Req_Header req) =
    let h0 : gmap string string :=
      <["Content-Type" := "application/json"]>
        (<["Authorization" := "Bearer [REDACTED]"]> ∅) in
    let h1 := if negb (siteURL c =? "")%string
              then <["Http-Referer" := siteURL c]> h0 else h0 in
    if negb (siteName c =? "")%string then <["X-Title" := siteName c]> h1 else h1.
Proof.
  intros Hlow Hb. apply buildRequest_request in Hb as [-> _]. cbn [Req_Header].
  assert (HA : ToLower "Authorization" = "authorization")
    by (rewrite Hlow by set_solver; reflexivity).
  assert (HC : ToLower "Content-Type" = "content-type")
    by (rewrite Hlow by set_solver; reflexivity).
  assert (HR : ToLower "Http-Referer" = "http-referer")
    by (rewrite Hlow by set_solver; reflexivity).
  assert (HX : ToLower "X-Title" = "x-title")
    by (rewrite Hlow by set_solver; reflexivity).
  cbv zeta. unfold sanitizedHeaders, Header_Set.
  destruct (negb (siteURL c =? "")%string), (negb (siteName c =? "")%string);
    rewrite !map_imap_insert, map_imap_empty, ?HA, ?HC, ?HR, ?HX; reflexivity.
Qed.

End LoggerFacts.

(** X24 on two clients that differ in their API key only. *)
Lemma logged_headers_hide_api_key_witness :
  ∃ l1 req1 l2 req2,
    buildRequest (NewClient "sk-or-v1-first") "GET" "/models" None (inr "/api/v1/models")
      = (l1, inr req1)
    ∧ buildRequest (NewClient "sk-or-v1-second") "GET" "/models" None (inr "/api/v1/models")
      = (l2, inr req2)
    ∧ Req_Header req1 ≠ Req_Header req2
    ∧ sanitizedHeaders (go := Ref.lib) (Req_Header req1)
      = sanitizedHeaders (go := Ref.lib) (Req_Header req2).
Proof.
  eexists _, _, _, _. split; [reflexivity|]. split; [reflexivity|]. split.
  - intros E. apply (f_equal (λ h, Header_Get h "Authorization")) in E.
    vm_compute in E. discriminate.
  - rewrite (logged_headers_hide_api_key (go := Ref.lib) (NewClient "sk-or-v1-first")
               "GET" "/models" None (inr "/api/v1/models") _ _
               ltac:(intros key Hkey; reflexivity) eq_refl).
    rewrite (logged_headers_hide_api_key (go := Ref.lib) (NewClient "sk-or-v1-second")
               "GET" "/models" None (inr "/api/v1/models") _ _
               ltac:(intros key Hkey; reflexivity) eq_refl).
    reflexivity.
Defined.

Lemma len_substring n : ∀ s,
  (n ≤ String.length s)%nat → String.length (substring 0 n s) = n.
Proof.
  induction n as [|n IH]; intros s Hn.
  - destruct s; reflexivity.
  - destruct s as [|c s]; cbn [String.length] in Hn; [lia|].
    cbn [substring String.length]. rewrite IH by lia. reflexivity.
Qed.

Lemma substring_prefix n : ∀ s,
  (n ≤ String.length s)%nat → ∃ rest, s = substring 0 n s +:+ rest.
Proof.
  induction n as [|n IH]; intros s Hn.
  - exists s. destruct s; reflexivity.
  - destruct s as [|c s]; cbn [String.length] in Hn; [lia|].
    destruct (IH s ltac:(lia)) as [rest Hrest]. exists rest.
    cbn [substring]. change (String c (substring 0 n s) +:+ rest)
      with (String c (substring 0 n s +:+ rest)). rewrite <- Hrest. reflexivity.
Qed.

(** X25.  With a limit of at least 3, [truncateString] returns a string
    of at most that many bytes: the string itself when it fits, else its
    first [maxLen - 3] bytes followed by three dots.  With a limit below
    3 that a string exceeds it panics. *)
Theorem truncateString_fits s maxLen :
  0 ≤ maxLen ≤ maxInt64 →
  (3 ≤ maxLen →
   ∃ r, truncateString s maxLen = Some r
     ∧ len r ≤ maxLen
     ∧ (len s ≤ maxLen → r = s)
     ∧ (maxLen < len s →
        len r = maxLen
        ∧ ∃ head rest, r = head +:+ "..." ∧ s = head +:+ rest
                       ∧ len head = maxLen - 3))
  ∧ (maxLen < 3 → maxLen < len s → truncateString s maxLen = None).
Proof.
  intros Hrange. unfold truncateString, maxInt64 in *.
  destruct (Z.leb_spec (len s) maxLen) as [Hfit | Hlong].
  { split; [|lia]. intros _. exists s. split; [reflexivity|].
    split; [exact Hfit|]. split; [reflexivity | lia]. }
  split.
  - intros H3.
    assert (Hw : wrap64 (maxLen - 3) = maxLen - 3).
    { unfold wrap64. rewrite Z.mod_small by lia. lia. }
    rewrite Hw.
    destruct (Z.leb_spec 0 (maxLen - 3)); [|lia].
    destruct (Z.leb_spec (maxLen - 3) (len s)); [|lia]. cbn [andb].
    assert (Hn : (Z.to_nat (maxLen - 3) ≤ String.length s)%nat) by (unfold len in *; lia).
    assert (Hhead : len (substring 0 (Z.to_nat (maxLen - 3)) s) = maxLen - 3).
    { unfold len. rewrite len_substring by exact Hn. lia. }
    eexists. split; [reflexivity|]. rewrite len_append, Hhead.
    change (len "...") with 3.
    split; [lia|]. split; [lia|]. intros _. split; [lia|].
    destruct (substring_prefix _ s Hn) as [rest Hrest].
    exists (substring 0 (Z.to_nat (maxLen - 3)) s), rest. auto.
  - intros H3 _.
    assert (Hw : wrap64 (maxLen - 3) = maxLen - 3).
    { unfold wrap64. rewrite Z.mod_small by lia. lia. }
    rewrite Hw. destruct (Z.leb_spec 0 (maxLen - 3)); [lia | reflexivity].
Qed.

(** X25 on the limit [LogImageGeneration] passes, 100, and a prompt of
    120 bytes. *)
Lemma truncateString_fits_witness :
  ∃ r, truncateString (Gpt.Repeat "a" 120) 100 = Some r
    ∧ len r = 100
    ∧ r = Gpt.Repeat "a" 97 +:+ "...".
Proof.
  destruct (truncateString_fits (Gpt.Repeat "a" 120) 100) as [H _].
  { unfold maxInt64. lia. }
  destruct (H ltac:(lia)) as (r & Hr & _ & _ & Hlong).
  exists r. split; [exact Hr|].
  destruct (Hlong ltac:(vm_compute; reflexivity)) as [Hlen _].
  split; [exact Hlen|].
  vm_compute in Hr. injection Hr as <-. reflexivity.
Defined.

(** ** The [Retry-After] header, written and read *)

Lemma digits_of_uint_acc d : ∀ acc,
  digits (Z.pos acc) (NilEmpty.string_of_uint d) = Some (Z.pos (Pos.of_uint_acc d acc)).
Proof.
  induction d as [|d IH|d IH|d IH|d IH|d IH|d IH|d IH|d IH|d IH|d IH]; intros acc;
    cbn [NilEmpty.string_of_uint digits Pos.of_uint_acc]; [reflexivity|..];
    match goal with
    | |- context [digit ?c] =>
        let v := eval vm_compute in (digit c) in change (digit c) with v
    end; cbv beta iota; rewrite <- IH; f_equal; lia.
Qed.

Lemma digits_of_uint d :
  digits 0 (NilEmpty.string_of_uint d) = Some (Z.of_N (Pos.of_uint d)).
Proof.
  induction d as [|d IH|d IH|d IH|d IH|d IH|d IH|d IH|d IH|d IH|d IH];
    cbn [NilEmpty.string_of_uint digits Pos.of_uint]; [reflexivity|..];
    match goal with
    | |- context [digit ?c] =>
        let v := eval vm_compute in (digit c) in change (digit c) with v
    end; cbv beta iota;
    [exact IH | apply (digits_of_uint_acc d)..].
Qed.

(** The decimal of a positive number: its digits read back as the
    number, and it starts with a digit. *)
Lemma digits_of_positive p :
  ∃ c r, NilZero.string_of_uint (Pos.to_uint p) = String c r
    ∧ digits 0 (String c r) = Some (Z.pos p)
    ∧ c ≠ "-"%char ∧ c ≠ "+"%char.
Proof.
  pose proof (digits_of_uint (Pos.to_uint p)) as Hd.
  rewrite DecimalPos.Unsigned.of_to in Hd. cbn [Z.of_N] in Hd.
  pose proof (DecimalPos.Unsigned.to_uint_nonnil p) as Hnil.
  assert (Hs : NilZero.string_of_uint (Pos.to_uint p)
               = NilEmpty.string_of_uint (Pos.to_uint p)).
  { unfold NilZero.string_of_uint. destruct (Pos.to_uint p); [done | reflexivity..]. }
  rewrite Hs.
  destruct (NilEmpty.string_of_uint (Pos.to_uint p)) as [|c r] eqn:E.
  { destruct (Pos.to_uint p); [done | discriminate..]. }
  exists c, r. split; [reflexivity|]. split; [exact Hd|].
  cbn [digits] in Hd.
  split; intros ->; discriminate.
Qed.

(** Without a sign, [Atoi] reads the digits and checks the range. *)
Lemma Atoi_unsigned c r :
  c ≠ "-"%char → c ≠ "+"%char →
  Atoi (String c r) =
  match digits 0 (String c r) with
  | Some n => if (minInt64 <=? n) && (n <=? maxInt64) then Some n else None
  | None => None
  end.
Proof.
  intros Hm Hp. unfold Atoi.
  destruct c as [[] [] [] [] [] [] [] []]; try reflexivity; done.
Qed.

(** [strconv.Atoi] reads back what the [%d] verb writes. *)
Lemma Atoi_itoa n : minInt64 ≤ n ≤ maxInt64 → Atoi (itoa n) = Some n.
Proof.
  intros Hn. unfold itoa. destruct n as [|p|p]; cbn [Z.to_int NilZero.string_of_int].
  - reflexivity.
  - destruct (digits_of_positive p) as (c & r & -> & Hd & Hm & Hp).
    rewrite Atoi_unsigned, Hd by assumption.
    destruct (Z.leb_spec minInt64 (Z.pos p)); [|lia].
    destruct (Z.leb_spec (Z.pos p) maxInt64); [reflexivity | lia].
  - destruct (digits_of_positive p) as (c & r & -> & Hd & _ & _).
    unfold Atoi. rewrite Hd.
    change (- Z.pos p) with (Z.neg p).
    destruct (Z.leb_spec minInt64 (Z.neg p)); [|lia].
    destruct (Z.leb_spec (Z.neg p) maxInt64); [reflexivity | lia].
Qed.

Section RetryAfterFacts.
Context `{go : GoLib}.

(** X29.  A [Retry-After] header written as the decimal of a number of
    seconds comes back from the classifier as that many seconds: on a
    429 status whose error type is not one of the two that set their own
    delay, the delay is the number of the header times one second, for
    every number of up to 9223372036 seconds in absolute value, zero
    apart, which gives the default of 60s.  A negative number gives a
    negative delay. *)
Theorem retry_after_header_round_trip n errorCode errorType headers :
  -9223372036 ≤ n ≤ 9223372036 →
  ToLower errorType ≠ "model_overloaded" →
  ToLower errorType ≠ "model_unavailable" →
  (categorizeError 429 errorCode errorType
     (Header_Set headers "Retry-After" (itoa n))).2
  = if n =? 0 then 60 * Second else n * Second.
Proof.
  intros Hn Ho Hu. unfold categorizeError. rewrite statusTable_429.
  assert (Hget : Header_Get (Header_Set headers "Retry-After" (itoa n)) "Retry-After"
                 = itoa n).
  { unfold Header_Get, Header_Set. rewrite lookup_insert_eq. reflexivity. }
  rewrite Hget, Atoi_itoa by (unfold minInt64, maxInt64; lia).
  assert (Hw : wrap64 (n * Second) = n * Second).
  { unfold wrap64, Second. rewrite Z.mod_small by lia. lia. }
  rewrite Hw. unfold errorTypeOverride.
  assert (Hz : (n * Second =? 0) = (n =? 0)).
  { unfold Second. destruct (Z.eqb_spec n 0), (Z.eqb_spec (n * 1000000000) 0); lia. }
  rewrite Hz.
  destruct (ToLower errorType =? "insufficient_quota")%string; [reflexivity|].
  destruct (String.eqb_spec (ToLower errorType) "model_overloaded"); [done|].
  destruct (String.eqb_spec (ToLower errorType) "model_unavailable"); [done|].
  reflexivity.
Qed.

End RetryAfterFacts.

(** X29 on a header of 120 seconds. *)
Lemma retry_after_header_round_trip_witness :
  Header_Set ∅ "Retry-After" (itoa 120) = Header_Set ∅ "Retry-After" "120"
  ∧ (categorizeError (go := Ref.lib) 429 "" "" (Header_Set ∅ "Retry-After" (itoa 120))).2
    = 120 * Second.
Proof.
  split; [reflexivity|].
  apply (retry_after_header_round_trip (go := Ref.lib) 120 "" "" ∅);
    [lia | vm_compute; discriminate | vm_compute; discriminate].
Defined.
